(** * YOLO_Tools: dataset utilities, shallow embedding and specification

    The scripts of the repository are Tk front-ends around a handful of
    data algorithms.  This development embeds the algorithms:

    - [ClassRemover]  : AZYoloClassRemover2.py  (class removal, label rewrite)
    - [ClassExport]   : AZ_ClassExport2.py      (episode scan, frame selection)
    - [Rearrange]     : AZYoloDatasetRearrange.py (train/val/test re-split)
    - [FolderSplitter]: AZ_Yolov8ClassificationFolderSpliter.py

    Widgets, progress bars and message boxes are kept only as far as they
    decide what the algorithms do (which dialog ends a run).  Text is
    modelled with code points below 256 ([string] of [ascii]); Python's
    [float] is IEEE 754 binary64, taken from the standard library's
    [SpecFloat] with precision 53 and [emax] 1024. *)

From Stdlib Require Import ZArith List Ascii String Lia.
From Stdlib Require Import SpecFloat QArith Qpower Lqa.
From stdpp Require Import gmap strings list.

Local Open Scope string_scope.
Local Open Scope list_scope.
Local Open Scope Z_scope.

(* ===================================================================== *)
(** * Part I: definitions                                                 *)
(* ===================================================================== *)

(** ** The Python runtime the scripts rely on *)
Module Py.

(** Exceptions the embedded code can raise. *)
Inductive exn : Set :=
| IndexError | ValueError | KeyError | ZeroDivisionError | OverflowError.

(** A computation that returns or raises. *)
Inductive result (A : Type) : Type :=
| Ok (a : A)
| Raise (e : exn).
Global Arguments Ok {A} a.
Global Arguments Raise {A} e.

Global Instance result_ret : MRet result := λ A a, Ok a.
Global Instance result_bind : MBind result := λ A B f m,
  match m with Ok a => f a | Raise e => Raise e end.
Global Instance result_fmap : FMap result := λ A B f m,
  match m with Ok a => Ok (f a) | Raise e => Raise e end.

Global Instance exn_eq_dec : EqDecision exn.
Proof. solve_decision. Defined.

(** [str.isspace] on one character, for code points below 256:
    TAB..CR, FS..US, SPACE, NEL and NBSP. *)
Definition is_space (c : ascii) : bool :=
  let n := N_of_ascii c in
  ((9 <=? n) && (n <=? 13) || (28 <=? n) && (n <=? 32)
   || (n =? 133) || (n =? 160))%N.

(** The pending token of [str.split], emitted when a separator or the end
    of the text is reached. *)
Definition flush (cur : string) : list string :=
  match cur with "" => [] | _ => [cur] end.

Fixpoint split_go (cur s : string) : list string :=
  match s with
  | "" => flush cur
  | String a s' =>
      if is_space a then flush cur ++ split_go "" s'
      else split_go (cur +:+ String a "") s'
  end.

(** [s.split()] without arguments: the maximal runs of non-whitespace. *)
Definition split (s : string) : list string := split_go "" s.

(** [sep.join(parts)]. *)
Definition join (sep : string) (parts : list string) : string :=
  String.concat sep parts.

(** [s.endswith(suffix)]. *)
Definition endswith (s suffix : string) : bool :=
  String.prefix (String.rev suffix) (String.rev s).

Definition newline : ascii := ascii_of_N 10.

(** [file.readlines()] on the decoded text: lines keep their terminator,
    a last line without terminator is kept when it is not empty. *)
Fixpoint readlines_go (cur s : string) : list string :=
  match s with
  | "" => flush cur
  | String a s' =>
      if Ascii.eqb a newline then (cur +:+ String a "") :: readlines_go "" s'
      else readlines_go (cur +:+ String a "") s'
  end.
Definition readlines (text : string) : list string := readlines_go "" text.

(** [file.writelines(lines)] on a truncated file. *)
Definition writelines (lines : list string) : string := String.concat "" lines.

(** The value of a decimal digit. *)
Definition digit_val (c : ascii) : option Z :=
  let n := N_of_ascii c in
  if ((48 <=? n) && (n <=? 57))%N then Some (Z.of_N n - 48) else None.

Definition is_digit (c : ascii) : bool :=
  match digit_val c with Some _ => true | None => false end.

(** The digit part of an integer literal accepted by [int(str)]: digits,
    single underscores allowed between two digits.  [prev] tells whether
    the previous character was a digit. *)
Fixpoint int_digits (acc : Z) (prev : bool) (s : string) : option Z :=
  match s with
  | "" => if prev then Some acc else None
  | String c s' =>
      match digit_val c with
      | Some d => int_digits (10 * acc + d) true s'
      | None =>
          if Ascii.eqb c "_" && prev then int_digits acc false s' else None
      end
  end.

(** The whitespace [int] skips around a literal: TAB..CR, SPACE, NEL and
    NBSP.  Unlike [str.isspace] it does not hold FS..US. *)
Definition is_int_space (c : ascii) : bool :=
  let n := N_of_ascii c in
  ((9 <=? n) && (n <=? 13) || (n =? 32) || (n =? 133) || (n =? 160))%N.

Fixpoint int_lstrip (s : string) : string :=
  match s with
  | String c s' => if is_int_space c then int_lstrip s' else s
  | "" => ""
  end.
Definition int_rstrip (s : string) : string :=
  String.rev (int_lstrip (String.rev s)).
Definition int_strip (s : string) : string := int_rstrip (int_lstrip s).

(** [int(s)] in base 10: surrounding whitespace, an optional sign, digits.
    The limit that CPython puts on the number of digits (4300 unless set
    otherwise) is left out. *)
Definition int_of_str (s : string) : result Z :=
  let parsed :=
    match int_strip s with
    | String c ds =>
        if Ascii.eqb c "-" then Z.opp <$> int_digits 0 false ds
        else if Ascii.eqb c "+" then int_digits 0 false ds
        else int_digits 0 false (String c ds)
    | "" => None
    end in
  match parsed with Some z => Ok z | None => Raise ValueError end.

Definition digit_char (d : Z) : ascii := ascii_of_N (Z.to_N (48 + d)).

(** The decimal digits of a non-negative integer, most significant first,
    pushed in front of [acc].  [fuel] bounds the number of divisions. *)
Fixpoint str_digits (fuel : nat) (n : Z) (acc : string) : string :=
  let acc' := String (digit_char (n mod 10)) acc in
  match fuel with
  | O => acc'
  | S f => if n <? 10 then acc' else str_digits f (n / 10) acc'
  end.

(** [str(z)] for an integer. *)
Definition str_of_int (z : Z) : string :=
  if z <? 0 then String "-" (str_digits (Z.to_nat (Z.log2 (- z))) (- z) "")
  else str_digits (Z.to_nat (Z.log2 z)) z "".

(** A predicate on every character of a text. *)
Fixpoint string_forall (p : ascii → bool) (s : string) : bool :=
  match s with
  | "" => true
  | String c s' => p c && string_forall p s'
  end.

(** What [split] produces: a non-empty text without whitespace. *)
Definition token (t : string) : Prop :=
  t ≠ "" ∧ string_forall (λ c, negb (is_space c)) t = true.

(** What [readlines] produces from a text that ends with a newline: a
    newline-free body followed by the terminator. *)
Definition terminated_line (l : string) : Prop :=
  ∃ body, l = body +:+ String newline ""
          ∧ string_forall (λ c, negb (Ascii.eqb c newline)) body = true.

(** [range(n)]. *)
Definition range (n : Z) : list Z := seqZ 0 n.

(** [l[i]] with Python's negative indices. *)
Definition getitem {A} (l : list A) (i : Z) : result A :=
  let n := Z.of_nat (length l) in
  let j := if i <? 0 then i + n else i in
  if (0 <=? j) && (j <? n) then
    match l !! Z.to_nat j with Some x => Ok x | None => Raise IndexError end
  else Raise IndexError.

(** [l[lo:hi]] with step 1: a bound that is left out is [None]; negative
    bounds count from the end, and bounds are clamped to the list. *)
Definition slice_bound (n i : Z) : nat :=
  Z.to_nat (Z.max 0 (Z.min n (if i <? 0 then i + n else i))).

Definition slice {A} (l : list A) (lo hi : option Z) : list A :=
  let n := Z.of_nat (length l) in
  let a := match lo with Some i => slice_bound n i | None => O end in
  let b := match hi with Some i => slice_bound n i | None => length l end in
  take (b - a) (drop a l).

(** *** Floating point: binary64 *)

Definition float : Type := spec_float.

(** The double nearest to an integer (ties to even). *)
Definition float_of_Z (z : Z) : float := binary_normalize 53 1024 z 0 false.

(** The implicit conversion of an [int] operand. *)
Definition float_of_int (z : Z) : result float :=
  match float_of_Z z with
  | S754_infinity _ => Raise OverflowError
  | f => Ok f
  end.

(** [a / b] on two [int]s: the exact quotient, rounded once. *)
Definition int_truediv (a b : Z) : result float :=
  match a, b with
  | _, Z0 => Raise ZeroDivisionError
  | Z0, _ => Ok (S754_zero (b <? 0))
  | _, _ =>
      let '(q, e, l) := SFdiv_core_binary 53 1024 (Z.abs a) 0 (Z.abs b) 0 in
      match binary_round_aux 53 1024 (xorb (a <? 0) (b <? 0)) q e l with
      | S754_infinity _ => Raise OverflowError
      | f => Ok f
      end
  end.

Definition float_mul (x y : float) : float := SFmul 53 1024 x y.
Definition float_add (x y : float) : float := SFadd 53 1024 x y.
Definition float_sub (x y : float) : float := SFsub 53 1024 x y.
Definition float_abs (x : float) : float := SFabs x.

(** [x / y] on floats. *)
Definition float_div (x y : float) : result float :=
  match y with
  | S754_zero _ => Raise ZeroDivisionError
  | _ => Ok (SFdiv 53 1024 x y)
  end.

(** [x > y]; false as soon as one side is NaN. *)
Definition float_gt (x y : float) : bool := SFltb y x.

(** [int(x)]: truncation towards zero. *)
Definition int_of_float (x : float) : result Z :=
  match x with
  | S754_zero _ => Ok 0
  | S754_finite s m e => Ok (cond_Zopp s (Z.shiftl (Zpos m) e))
  | S754_infinity _ => Raise OverflowError
  | S754_nan => Raise ValueError
  end.

(** [i * x] and [x * i] with an [int] operand [i]. *)
Definition int_mul_float (i : Z) (x : float) : result float :=
  fi ← float_of_int i; Ok (float_mul fi x).
Definition float_mul_int (x : float) (i : Z) : result float :=
  fi ← float_of_int i; Ok (float_mul x fi).

(** The literals [1.0], [0.01] and the converted [100]. *)
Definition float_1 : float := S754_finite false 4503599627370496 (-52).
Definition float_0_01 : float := S754_finite false 5764607523034235 (-59).
Definition float_100 : float := S754_finite false 7036874417766400 (-46).

(** The value of a float as a rational; zero for infinities and NaN. *)
Definition pow2 (e : Z) : Q := (2 ^ e)%Q.

Definition F2Q (f : float) : Q :=
  match f with
  | S754_finite s m e => (inject_Z (cond_Zopp s (Zpos m)) * pow2 e)%Q
  | _ => 0%Q
  end.

(** A positive finite float with a full mantissa and an exponent in a range. *)
Definition normal_pos (f : float) (lo hi : Z) : Prop :=
  ∃ m e, f = S754_finite false m e ∧ 2 ^ 52 ≤ Zpos m < 2 ^ 53 ∧ lo ≤ e ≤ hi.

(** A float in the interval [0, 1]: zero, or normal and at most one. *)
Definition unit_float (f : float) : bool :=
  match f with
  | S754_zero false => true
  | S754_finite false m e =>
      (2 ^ 52 <=? Zpos m) && (Zpos m <? 2 ^ 53) && (-1074 <=? e)
      && ((e <=? -53) || ((e =? -52) && (Zpos m =? 2 ^ 52)))
  | _ => false
  end.

(** [l.index(x)]: position of the first occurrence. *)
Fixpoint index (x : string) (l : list string) : option nat :=
  match l with
  | [] => None
  | y :: l' => if String.eqb y x then Some O else S <$> index x l'
  end.

(** *** Texts and paths of [move_files] *)

(** [s.replace(old, new)]: the occurrences of [old] found from the left,
    none overlapping the one before, become [new].  [skip] counts the
    characters of the occurrence just replaced that are still to pass. *)
Fixpoint replace_go (old new : string) (skip : nat) (s : string) : string :=
  match s with
  | "" => ""
  | String c s' =>
      match skip with
      | S k => replace_go old new k s'
      | O =>
          if String.prefix old s
          then new +:+ replace_go old new (String.length old - 1) s'
          else String c (replace_go old new O s')
      end
  end.

(** With an empty [old], [new] goes before every character and at the end. *)
Fixpoint interleave (new s : string) : string :=
  match s with
  | "" => new
  | String c s' => new +:+ String c (interleave new s')
  end.

Definition replace (s old new : string) : string :=
  match old with
  | "" => interleave new s
  | _ => replace_go old new O s
  end.

(** [os.path] is [posixpath]. *)

(** One step of [os.path.join(a, *p)]. *)
Definition path_join2 (path b : string) : string :=
  if String.prefix "/" b then b
  else if String.eqb path "" || endswith path "/" then path +:+ b
  else path +:+ "/" +:+ b.

Definition path_join (a : string) (p : list string) : string :=
  foldl path_join2 a p.

(** [os.path.basename(p)]: what follows the last slash. *)
Fixpoint basename_go (cur s : string) : string :=
  match s with
  | "" => cur
  | String c s' =>
      if Ascii.eqb c "/" then basename_go "" s'
      else basename_go (cur +:+ String c "") s'
  end.
Definition basename (p : string) : string := basename_go "" p.

(** [p.rfind(c)] for a character: the last index, or -1. *)
Fixpoint rfind_go (c : ascii) (i : nat) (best : option nat) (s : string) : option nat :=
  match s with
  | "" => best
  | String x s' => rfind_go c (S i) (if Ascii.eqb x c then Some i else best) s'
  end.
Definition rfind (c : ascii) (s : string) : Z :=
  match rfind_go c O None s with Some i => Z.of_nat i | None => -1 end.

(** [s[:n]] and [s[n:]] for [0 <= n]. *)
Fixpoint str_take (n : nat) (s : string) : string :=
  match n, s with
  | S k, String c s' => String c (str_take k s')
  | _, _ => ""
  end.
Fixpoint str_drop (n : nat) (s : string) : string :=
  match n, s with
  | S k, String c s' => str_drop k s'
  | _, _ => s
  end.

(** [os.path.splitext(p)]: the split is at the last dot, when that dot
    comes after the last slash and after a character of the file name that
    is not a dot. *)
Definition splitext (p : string) : string * string :=
  let sepIndex := rfind "/" p in
  let dotIndex := rfind "." p in
  if (sepIndex <? dotIndex)
     && negb (string_forall (λ c, Ascii.eqb c ".")
                (str_take (Z.to_nat (dotIndex - sepIndex - 1))
                   (str_drop (Z.to_nat (sepIndex + 1)) p)))
  then (str_take (Z.to_nat dotIndex) p, str_drop (Z.to_nat dotIndex) p)
  else (p, "").

(** [old] does not occur in [s]. *)
Fixpoint free (old s : string) : bool :=
  negb (String.prefix old s)
  && match s with "" => true | String _ s' => free old s' end.

End Py.

(** ** AZYoloClassRemover2.py *)
Module ClassRemover.
Import Py.

(** The part of data.yaml the script reads and writes: the 'names'
    sequence and 'nc'; the remaining keys are carried along. *)
Record yaml_doc : Type := mk_yaml {
  names : option (list string);
  nc : option Z;
  other_keys : gmap string string
}.

(** A labels directory as [os.listdir] enumerates it: file name and text.
    The text is what [open(path, 'r')] delivers and takes back: decoded,
    with every line end already translated to the newline character. *)
Definition label_dir : Type := list (string * string).

(** The dataset next to data.yaml: the parsed document and, for each
    split whose labels directory exists, that directory. *)
Record dataset : Type := mk_dataset {
  yaml : yaml_doc;
  labels : gmap string label_dir
}.

(** How [process_dataset] ends: an error box, the success box, or an
    exception that escapes into the Tk callback. *)
Inductive outcome : Type :=
| ShowError (msg : string)
| ShowInfo (msg : string)
| Uncaught (e : exn).

Definition get_class_index (classes : list string) (class_name : string) : Z :=
  match index class_name classes with
  | Some i => Z.of_nat i
  | None => -1
  end.

(** [{i: (i if i < old_class_index else i - 1) for i in range(len(classes) + 1)}]
    where [classes] is the list after the pop. *)
Definition make_class_map (old_class_index : Z) (classes : list string) : gmap Z Z :=
  list_to_map
    ((λ i, (i, if i <? old_class_index then i else i - 1))
       <$> range (Z.of_nat (length classes) + 1)).

(** The body of the loop over the lines of one file: [None] when the line
    is dropped, the rewritten line otherwise. *)
Definition rewrite_line (old_class_index : Z) (class_map : gmap Z Z)
    (line : string) : result (option string) :=
  let parts := split line in
  match parts with
  | [] => Raise IndexError
  | p0 :: rest =>
      class_idx ← int_of_str p0;
      if bool_decide (class_idx ≠ old_class_index) then
        match class_map !! class_idx with
        | Some new_idx =>
            Ok (Some (join " " (str_of_int new_idx :: rest) +:+ String newline ""))
        | None => Raise KeyError
        end
      else Ok None
  end.

Fixpoint rewrite_lines (old_class_index : Z) (class_map : gmap Z Z)
    (lines : list string) : result (list string) :=
  match lines with
  | [] => Ok []
  | line :: lines' =>
      o ← rewrite_line old_class_index class_map line;
      new_lines ← rewrite_lines old_class_index class_map lines';
      Ok (match o with Some l => l :: new_lines | None => new_lines end)
  end.

(** Read, rewrite, write back: the file is opened for writing only after
    every line went through, so a raising line leaves the file as it was. *)
Definition rewrite_file (old_class_index : Z) (class_map : gmap Z Z)
    (text : string) : result string :=
  writelines <$> rewrite_lines old_class_index class_map (readlines text).

(** [update_labels]: the files of one labels directory in listing order.
    The result is the directory afterwards and the exception, if any, that
    stopped the loop. *)
Fixpoint update_labels (dir : label_dir) (old_class_index : Z)
    (class_map : gmap Z Z) : label_dir * option exn :=
  match dir with
  | [] => ([], None)
  | (label_file, text) :: dir' =>
      if endswith label_file ".txt" then
        match rewrite_file old_class_index class_map text with
        | Ok text' =>
            let '(done, e) := update_labels dir' old_class_index class_map in
            ((label_file, text') :: done, e)
        | Raise e => (dir, Some e)
        end
      else
        let '(done, e) := update_labels dir' old_class_index class_map in
        ((label_file, text) :: done, e)
  end.

(** The loop over the splits whose labels directory exists. *)
Fixpoint update_splits (splits : list string) (old_class_index : Z)
    (class_map : gmap Z Z) (dirs : gmap string label_dir)
    : gmap string label_dir * option exn :=
  match splits with
  | [] => (dirs, None)
  | split :: splits' =>
      match dirs !! split with
      | Some dir =>
          let '(dir', e) := update_labels dir old_class_index class_map in
          let dirs' := <[split := dir']> dirs in
          match e with
          | Some x => (dirs', Some x)
          | None => update_splits splits' old_class_index class_map dirs'
          end
      | None => update_splits splits' old_class_index class_map dirs
      end
  end.

Definition all_splits : list string := ["train"; "val"; "test"].

(** [process_dataset], from the two widget values and the dataset on disk
    to the dataset afterwards and the way the callback ends. *)
Definition process_dataset (yaml_path selected_class : string) (ds : dataset)
    : dataset * outcome :=
  if bool_decide (yaml_path = "") then
    (ds, ShowError "Please select a data.yaml file.")
  else if bool_decide (selected_class = "") then
    (ds, ShowError "Please select a class to remove.")
  else
    let data := yaml ds in
    let classes := default [] (names data) in
    let old_class_index := get_class_index classes selected_class in
    if bool_decide (old_class_index = -1) then
      (ds, ShowError ("Class '" +:+ selected_class +:+ "' not found in the dataset."))
    else
      let classes := delete (Z.to_nat old_class_index) classes in
      let data := {| names := Some classes;
                     nc := Some (Z.of_nat (length classes));
                     other_keys := other_keys data |} in
      let class_map := make_class_map old_class_index classes in
      let '(dirs, e) :=
        update_splits all_splits old_class_index class_map (labels ds) in
      ({| yaml := data; labels := dirs |},
       match e with
       | Some x => Uncaught x
       | None =>
           ShowInfo ("Class '" +:+ selected_class
                     +:+ "' removed successfully from the dataset.")
       end).

(** *** Sample datasets *)

Definition nl : string := String newline "".

Definition sample_yaml : yaml_doc :=
  {| names := Some ["cat"; "dog"; "bird"]; nc := Some 3;
     other_keys := {[ "train" := "train/images" ]} |}.

(** Three classes; train and test have labels, val has no labels directory. *)
Definition sample_dataset : dataset :=
  {| yaml := sample_yaml;
     labels :=
       {[ "train" := [("a.txt", "0 0.5 0.5 0.2 0.2" +:+ nl +:+ "1 0.1 0.1 0.3 0.3" +:+ nl
                                +:+ "2   0.7 0.7 0.1 0.1" +:+ nl);
                      ("classes.names", "cat" +:+ nl)];
          "test" := [("b.txt", "1 0.4 0.4 0.2 0.2" +:+ nl +:+ "02 0.6 0.6 0.1 0.1")] ]} |}.

(** A label file with an empty line. *)
Definition blank_line_dir : label_dir :=
  [("a.txt", "0 0.5 0.5 0.2 0.2" +:+ nl +:+ nl)].

(** A label file that names class 3 in a dataset of three classes. *)
Definition out_of_range_dir : label_dir :=
  [("a.txt", "3 0.5 0.5 0.2 0.2" +:+ nl)].

(** *** Vocabulary of the specification *)

(** The leading whitespace-separated token of a line, parsed as an integer. *)
Definition leading_index (line : string) : option Z :=
  match split line with
  | t :: _ => match int_of_str t with Ok i => Some i | Raise _ => None end
  | [] => None
  end.

(** The renumbering of the classes that stay. *)
Definition remap (r i : Z) : Z := if i <? r then i else i - 1.

(** A rewritten line against the line it comes from: the leading index
    [i] differs from [r] and became [remap r i]; the other tokens stayed. *)
Definition line_rewritten (r : Z) (old new : string) : Prop :=
  ∃ t rest i,
    split old = t :: rest ∧ int_of_str t = Ok i ∧ i ≠ r
    ∧ split new = str_of_int (remap r i) :: rest
    ∧ int_of_str (str_of_int (remap r i)) = Ok (remap r i)
    ∧ (i < r → remap r i = i) ∧ (i > r → remap r i = i - 1).

(** A rewritten file against the original: the lines whose leading index
    is not [r], in order, each rewritten. *)
Definition text_rewritten (r : Z) (old new : string) : Prop :=
  Forall2 (line_rewritten r)
    (filter (λ l, leading_index l ≠ Some r) (readlines old))
    (readlines new).

(** A rewritten labels directory against the original: same entries in the
    same order, .txt files rewritten, other entries untouched. *)
Definition dir_rewritten (r : Z) (old new : label_dir) : Prop :=
  Forall2 (λ o n, n.1 = o.1 ∧
                  if endswith o.1 ".txt" then text_rewritten r o.2 n.2
                  else n.2 = o.2) old new.

(** A line [update_labels] can process when the dataset had [count]
    classes: it has a leading token, an integer in [0, count - 1]. *)
Definition wf_line (count : Z) (line : string) : Prop :=
  ∃ i, leading_index line = Some i ∧ 0 ≤ i < count.

Definition wf_dir (count : Z) (dir : label_dir) : Prop :=
  Forall (λ f, endswith f.1 ".txt" = true → Forall (wf_line count) (readlines f.2)) dir.

(** *** Vocabulary of the further properties *)

(** [" ".join(parts) + "\n"] with [parts[0] = str(i)]. *)
Definition render_line (i : Z) (rest : list string) : string :=
  join " " (str_of_int i :: rest) +:+ String newline "".

(** What the loop body makes of a line it can process: nothing when the
    leading index is [r], the renumbered line otherwise. *)
Definition rewritten_line (r : Z) (line : string) : option string :=
  match split line with
  | t :: rest =>
      match int_of_str t with
      | Ok i => if bool_decide (i ≠ r) then Some (render_line (remap r i) rest) else None
      | Raise _ => None
      end
  | [] => None
  end.

Definition rewritten_text (r : Z) (text : string) : string :=
  writelines (omap (rewritten_line r) (readlines text)).

Definition rewritten_dir (r : Z) (dir : label_dir) : label_dir :=
  (λ f, if endswith f.1 ".txt" then (f.1, rewritten_text r f.2) else f) <$> dir.

(** A dataset whose train labels are fine and whose val labels have a
    file with an empty line between two good files. *)
Definition broken_dataset : dataset :=
  {| yaml := sample_yaml;
     labels :=
       {[ "train" := [("a.txt", "2 0.5 0.5 0.2 0.2" +:+ nl)];
          "val" := [("b.txt", "2 0.1 0.1 0.2 0.2" +:+ nl);
                    ("c.txt", "0 0.5 0.5 0.2 0.2" +:+ nl +:+ nl);
                    ("d.txt", "2 0.3 0.3 0.2 0.2" +:+ nl)];
          "test" := [("e.txt", "2 0.4 0.4 0.2 0.2" +:+ nl)] ]} |}.

End ClassRemover.

(** ** AZ_ClassExport2.py *)
Module ClassExport.
Import Py.

Section Extractor.

(** The pixels of a frame; the extractor stores and writes them, nothing more. *)
Variable Frame : Type.

(** [(frame_index, frame.copy())] *)
Local Abbreviation tagged := (Z * Frame)%type.

(** [(current_episode[0], current_episode[-1])] *)
Local Abbreviation episode := (tagged * tagged)%type.

(** The opened video: its frame count and what seeking to an index and
    reading gives ([None] when [ret] is false). *)
Record video : Type := mk_video {
  total_frames : Z;
  read : Z → option Frame
}.

(** The model on a frame: [None] when [boxes] is [None], otherwise the
    names of the detected classes. *)
Definition detector : Type := Frame → option (list string).

(** The local variables of the scan loop. *)
Record scan_state : Type := mk_scan {
  frame_index : Z;
  detected_frame_indices : list tagged;
  class_episodes : list episode;
  current_episode : list tagged
}.

Definition initial_scan (resume_from_frame : Z) : scan_state :=
  {| frame_index := resume_from_frame; detected_frame_indices := [];
     class_episodes := []; current_episode := [] |}.

(** [if len(current_episode) >= 2: class_episodes.append((current_episode[0], current_episode[-1]))] *)
Definition close_episode (ep : list tagged) : list episode :=
  if (2 <=? length ep)%nat then
    match head ep, last ep with
    | Some a, Some b => [(a, b)]
    | _, _ => []
    end
  else [].

(** The bookkeeping for a frame in which the class was detected. *)
Definition record_detection (st : scan_state) (frame : Frame) : scan_state :=
  let i := frame_index st in
  let detected := detected_frame_indices st ++ [(i, frame)] in
  match last (current_episode st) with
  | None =>
      {| frame_index := i; detected_frame_indices := detected;
         class_episodes := class_episodes st;
         current_episode := [(i, frame)] |}
  | Some prev =>
      if i - prev.1 <=? 60 then
        {| frame_index := i; detected_frame_indices := detected;
           class_episodes := class_episodes st;
           current_episode := current_episode st ++ [(i, frame)] |}
      else
        {| frame_index := i; detected_frame_indices := detected;
           class_episodes := class_episodes st ++ close_episode (current_episode st);
           current_episode := [(i, frame)] |}
  end.

(** One pass through the loop body after a successful read. *)
Definition visit (class_name : string) (detect : detector) (step : Z)
    (st : scan_state) (frame : Frame) : scan_state :=
  let st' :=
    match detect frame with
    | Some detected_classes =>
        if bool_decide (class_name ∈ detected_classes)
        then record_detection st frame else st
    | None => st
    end in
  {| frame_index := frame_index st + step;
     detected_frame_indices := detected_frame_indices st';
     class_episodes := class_episodes st';
     current_episode := current_episode st' |}.

(** The while loop.  [stopped k] is the value of [self.stopped] at the
    [k]-th evaluation of the loop condition: the flag is written by the
    Stop button's handler on the Tk thread while the loop runs on the
    thread made by [start_processing_thread].  [detect] is the model
    bound to [self.model] for the whole run; [scan_loop_live] below has the
    loop with the attribute read in every pass.  [None] when [fuel]
    iterations did not reach the end of the loop. *)
Fixpoint scan_loop (fuel : nat) (v : video) (class_name : string)
    (detect : detector) (step : Z) (stopped : nat → bool) (k : nat)
    (st : scan_state) : option scan_state :=
  if (frame_index st <? total_frames v) && negb (stopped k) then
    match fuel with
    | O => None
    | S fuel' =>
        match read v (frame_index st) with
        | None => Some st
        | Some frame =>
            scan_loop fuel' v class_name detect step stopped (S k)
              (visit class_name detect step st frame)
        end
    end
  else Some st.

(** The episodes once the pending one is closed after the loop. *)
Definition final_episodes (st : scan_state) : list episode :=
  class_episodes st ++ close_episode (current_episode st).

(** [[ep[0] for ep in class_episodes] + [ep[1] for ep in class_episodes]] *)
Definition flatten (eps : list episode) : list tagged :=
  (fst <$> eps) ++ (snd <$> eps).

End Extractor.

Global Arguments mk_video {Frame}.
Global Arguments total_frames {Frame}.
Global Arguments read {Frame}.
Global Arguments mk_scan {Frame}.
Global Arguments frame_index {Frame}.
Global Arguments detected_frame_indices {Frame}.
Global Arguments class_episodes {Frame}.
Global Arguments current_episode {Frame}.
Global Arguments initial_scan {Frame}.
Global Arguments close_episode {Frame}.
Global Arguments record_detection {Frame}.
Global Arguments visit {Frame}.
Global Arguments scan_loop {Frame}.
Global Arguments final_episodes {Frame}.
Global Arguments flatten {Frame}.

(** [int(i * interval)] *)
Definition scaled_index (interval : float) (i : Z) : result Z :=
  x ← int_mul_float i interval; int_of_float x.

(** The choice of the frames to write, from [all_detected] and the
    "Max Frames to Save" entry. *)
Definition select_frames {A} (all_detected : list A) (max_to_save : Z)
    : result (list A) :=
  let n := Z.of_nat (length all_detected) in
  if n >? max_to_save then
    interval ← int_truediv n max_to_save;
    indices ← mapM (scaled_index interval) (range max_to_save);
    mapM (getitem all_detected) indices
  else Ok all_detected.

(** How [process_video] ends. *)
Inductive outcome (Frame : Type) : Type :=
| ShowError (msg : string)
| Exported (selected_frames : list (Z * Frame)) (resume_from_frame : Z)
| Uncaught (e : exn) (resume_from_frame : Z).
Global Arguments ShowError {Frame}.
Global Arguments Exported {Frame}.
Global Arguments Uncaught {Frame}.

(** [process_video]: the checks, the scan from [resume_from_frame], the
    selection; the selected frames are the ones written to disk.  [None]
    when the loop did not end within [fuel] iterations. *)
Definition process_video {Frame} (fuel : nat) (video_paths : option (video Frame))
    (model : option (detector Frame)) (class_name : string)
    (step max_to_save resume_from_frame : Z) (stopped : nat → bool)
    : option (outcome Frame) :=
  match video_paths, model with
  | Some v, Some detect =>
      if bool_decide (class_name = "") then
        Some (ShowError "Please select a class.")
      else
        st ← scan_loop fuel v class_name detect step stopped O
               (initial_scan resume_from_frame);
        let all_detected := flatten (final_episodes st) in
        Some match select_frames all_detected max_to_save with
             | Ok selected_frames => Exported selected_frames (frame_index st)
             | Raise e => Uncaught e (frame_index st)
             end
  | _, _ => Some (ShowError "Please select a video file and a YOLO model.")
  end.

(** *** The run beside the Tk thread *)

(** The while loop with the attribute [self.model] read in every pass, as
    line 120 does: [model k] is what the attribute is bound to in the
    [k]-th pass.  [select_model], a handler of the Tk thread, rebinds it,
    also while the loop runs on the worker thread.  [scan_loop] is this
    loop for a model that stays bound. *)
Fixpoint scan_loop_live {Frame} (fuel : nat) (v : video Frame) (class_name : string)
    (model : nat → detector Frame) (step : Z) (stopped : nat → bool) (k : nat)
    (st : scan_state Frame) : option (scan_state Frame) :=
  if (frame_index st <? total_frames v) && negb (stopped k) then
    match fuel with
    | O => None
    | S fuel' =>
        match read v (frame_index st) with
        | None => Some st
        | Some frame =>
            scan_loop_live fuel' v class_name model step stopped (S k)
              (visit class_name (model k) step st frame)
        end
    end
  else Some st.

(** [process_video] with that loop: [model_at_start] is the attribute when
    the first check reads it. *)
Definition process_video_live {Frame} (fuel : nat) (video_paths : option (video Frame))
    (model_at_start : option (detector Frame)) (model : nat → detector Frame)
    (class_name : string) (step max_to_save resume_from_frame : Z)
    (stopped : nat → bool) : option (outcome Frame) :=
  match video_paths, model_at_start with
  | Some v, Some _ =>
      if bool_decide (class_name = "") then
        Some (ShowError "Please select a class.")
      else
        st ← scan_loop_live fuel v class_name model step stopped O
               (initial_scan resume_from_frame);
        let all_detected := flatten (final_episodes st) in
        Some match select_frames all_detected max_to_save with
             | Ok selected_frames => Exported selected_frames (frame_index st)
             | Raise e => Uncaught e (frame_index st)
             end
  | _, _ => Some (ShowError "Please select a video file and a YOLO model.")
  end.

(** *** Vocabulary of the specification *)

(** Every two neighbours of a list are related. *)
Fixpoint chain {A} (R : A → A → Prop) (l : list A) : Prop :=
  match l with
  | a :: (b :: _) as l' => R a b ∧ chain R l'
  | _ => True
  end.

(** A run of detected frames: not empty, neighbours at most 60 apart. *)
Definition is_run {Frame} (r : list (Z * Frame)) : Prop :=
  r ≠ [] ∧ chain (λ a b, b.1 - a.1 ≤ 60) r.

(** Two runs that follow each other are more than 60 apart, so that
    neither can be extended into the other. *)
Definition apart {Frame} (r1 r2 : list (Z * Frame)) : Prop :=
  ∃ a b, last r1 = Some a ∧ head r2 = Some b ∧ b.1 - a.1 > 60.

(** [runs] are the maximal runs of the detected frames [detected]. *)
Definition maximal_runs {Frame} (detected : list (Z * Frame))
    (runs : list (list (Z * Frame))) : Prop :=
  concat runs = detected ∧ Forall is_run runs ∧ chain apart runs.

(** The (first, last) pair of a run. *)
Definition endpoints {Frame} (r : list (Z * Frame))
    : option ((Z * Frame) * (Z * Frame)) :=
  match head r, last r with
  | Some a, Some b => Some (a, b)
  | _, _ => None
  end.

(** The episodes the specification asks for: the endpoints of the runs
    with at least two frames. *)
Definition episodes_of {Frame} (runs : list (list (Z * Frame)))
    : list ((Z * Frame) * (Z * Frame)) :=
  omap endpoints (filter (λ r, (2 ≤ length r)%nat) runs).

(** The list that the pending episode contributes to the runs. *)
Definition pending {Frame} (cur : list (Z * Frame)) : list (list (Z * Frame)) :=
  match cur with [] => [] | _ => [cur] end.

(** What the scan maintains: the closed runs and the pending episode are
    the maximal runs of the detected frames, and the recorded episodes are
    those of the closed runs. *)
Definition scan_inv {Frame} (st : scan_state Frame) : Prop :=
  ∃ closed,
    maximal_runs (detected_frame_indices st) (closed ++ pending (current_episode st))
    ∧ class_episodes st = episodes_of closed
    ∧ (current_episode st = [] → closed = []).

(** An entry of [detected_frame_indices] is a frame of the video in which
    the class was detected. *)
Definition detected_in {Frame} (v : video Frame) (class_name : string)
    (detect : detector Frame) (t : Z * Frame) : Prop :=
  read v t.1 = Some t.2
  ∧ ∃ detected_classes, detect t.2 = Some detected_classes
                        ∧ class_name ∈ detected_classes.

(** The class is among the detections of the model on a frame. *)
Definition shows {Frame} (class_name : string) (detect : detector Frame)
    (frame : Frame) : bool :=
  match detect frame with
  | Some detected_classes => bool_decide (class_name ∈ detected_classes)
  | None => false
  end.

(** The frames of [n] passes of the scan that starts at index [from]: the
    frames at [from], [from + step], ..., [from + (n - 1) * step], each with
    its index. *)
Definition visited {Frame} (v : video Frame) (from step : Z) (n : nat)
    : list (Z * Frame) :=
  omap (λ j : nat, pair (from + Z.of_nat j * step)
                     <$> read v (from + Z.of_nat j * step)) (seq 0 n).

(** Those of them in which the class is detected. *)
Definition detections {Frame} (v : video Frame) (class_name : string)
    (detect : detector Frame) (from step : Z) (n : nat) : list (Z * Frame) :=
  filter (λ t, shows class_name detect t.2 = true) (visited v from step n).

(** The scan that starts at [from] makes exactly [n] passes: [n] times the
    loop condition holds and the frame is read, and then the video is
    over, the flag is set, or the read fails. *)
Definition passes {Frame} (v : video Frame) (step : Z) (stopped : nat → bool)
    (from : Z) (n : nat) : Prop :=
  (∀ j, (j < n)%nat →
     from + Z.of_nat j * step < total_frames v ∧ stopped j = false
     ∧ is_Some (read v (from + Z.of_nat j * step)))
  ∧ (total_frames v ≤ from + Z.of_nat n * step ∨ stopped n = true
     ∨ read v (from + Z.of_nat n * step) = None).
(** The frames of a video visited from index [from] on with step [step]
    when exactly [k] loop tests pass. *)
Definition truncated {Frame} (v : video Frame) (from step : Z) (k : nat)
    : video Frame :=
  {| total_frames := Z.min (total_frames v) (from + Z.of_nat k * step);
     read := read v |}.

(** The elements at the exactly spaced positions [floor(i * L / M)],
    [i = 0 .. M - 1], of a list of length [L]. *)
Definition evenly_spaced {A} (l : list A) (m : Z) : list A :=
  omap (λ i, l !! Z.to_nat (i * Z.of_nat (length l) / m)) (range m).

(** *** A sample video *)

(** Frames are their own index; 1500 frames; the class shows in frames
    100 j and 100 j + 10, so that every pair is an episode. *)
Definition sample_video : video Z :=
  {| total_frames := 1500; read := λ i, Some i |}.

Definition sample_detector : detector Z :=
  λ frame, if (frame mod 100 =? 0) || (frame mod 100 =? 10)
           then Some ["person"; "dog"] else Some ["person"].

Definition never : nat → bool := λ _, false.

(** The thirty episode endpoints of the sample video. *)
Definition sample_endpoints : list (Z * Z) :=
  match scan_loop 200 sample_video "dog" sample_detector 10 never O (initial_scan 0) with
  | Some st => flatten (final_episodes st)
  | None => []
  end.

(** The Stop button is pressed so that the [n]-th test of the flag sees it. *)
Definition stop_at (n : nat) : nat → bool := λ k, (n <=? k)%nat.

(** A model that finds the class nowhere, and the sample model replaced by
    it from the [n]-th pass on. *)
Definition blind_detector : detector Z := λ _, Some [].
Definition rebound_at (n : nat) : nat → detector Z :=
  λ k, if (n <=? k)%nat then blind_detector else sample_detector.
(** *** Vocabulary of the further properties *)

(** No episode is recorded and at most one frame is pending, more than
    one step behind the frame to visit next. *)
Definition sparse {Frame} (step : Z) (st : scan_state Frame) : Prop :=
  class_episodes st = []
  ∧ (current_episode st = []
     ∨ ∃ t, current_episode st = [t] ∧ t.1 + step ≤ frame_index st).

(** What the scan keeps about positions: the pending frames ascend and lie
    behind the frame to visit next, the recorded episodes ascend, lie more
    than 60 apart and more than 60 before the pending frames. *)
Definition ordered {Frame} (resume step total : Z) (st : scan_state Frame) : Prop :=
  resume ≤ frame_index st
  ∧ Forall (λ t, resume ≤ t.1 ∧ t.1 < total ∧ t.1 + step ≤ frame_index st)
      (current_episode st)
  ∧ chain (λ a b : Z * Frame, a.1 < b.1) (current_episode st)
  ∧ Forall (λ e, resume ≤ e.1.1 ∧ e.1.1 < e.2.1 ∧ e.2.1 < total
                 ∧ e.2.1 + step ≤ frame_index st) (class_episodes st)
  ∧ chain (λ e1 e2 : (Z * Frame) * (Z * Frame), e2.1.1 - e1.2.1 > 60)
      (class_episodes st)
  ∧ (∀ e c, last (class_episodes st) = Some e → head (current_episode st) = Some c →
            c.1 - e.2.1 > 60)
  ∧ (current_episode st = [] → class_episodes st = []).

End ClassExport.

(** ** AZYoloDatasetRearrange.py *)
Module Rearrange.
Import Py.

(** An image on disk, [<dataset>/<split>/images/<name>]: the split folder
    it sits in and its file name. *)
Definition image_path : Type := string * string.

Definition splits : list string := ["train"; "val"; "test"].

(** [img_file.endswith('.jpg') or img_file.endswith('.png')] *)
Definition is_image (img_file : string) : bool :=
  endswith img_file ".jpg" || endswith img_file ".png".

(** The images of one split: the listing of its images folder, when the
    folder exists, filtered by extension. *)
Definition collect (image_folders : gmap string (list string)) (split : string)
    : list image_path :=
  match image_folders !! split with
  | Some listing => (λ img_file, (split, img_file)) <$> filter is_image listing
  | None => []
  end.

(** [int(test_percent / 100 * len(all_images))] *)
Definition test_count_of (test_percent n : Z) : result Z :=
  q ← int_truediv test_percent 100;
  x ← float_mul_int q n;
  int_of_float x.

(** [(self.split_scale.get() / 100) * remaining_percent] *)
Definition train_percent_of (scale remaining_percent : Z) : result float :=
  q ← int_truediv scale 100;
  float_mul_int q remaining_percent.

(** [int(train_percent / 100 * len(remaining_images))] *)
Definition train_count_of (train_percent : float) (n : Z) : result Z :=
  q ← float_div train_percent float_100;
  x ← float_mul_int q n;
  int_of_float x.

(** How [rearrange_dataset] ends: an error box, the three lists handed to
    [move_files] (test first, then train, then val), or an exception. *)
Inductive outcome : Type :=
| ShowError (msg : string)
| Rearranged (test_images train_images valid_images : list image_path)
| Uncaught (e : exn).

(** [rearrange_dataset].  [shuffle] is what [random.shuffle] does to the
    list on this run, [scale] the position of the train/validation slider.
    The error box for an entry that is no integer shows [str(e)]; the model
    keeps the fixed part of that message and leaves out the quoted entry. *)
Definition rearrange_dataset (shuffle : list image_path → list image_path)
    (dataset_path test_percent_entry : string) (scale : Z)
    (image_folders : gmap string (list string)) : outcome :=
  if bool_decide (dataset_path = "") then
    ShowError "Please select a dataset folder."
  else
    match int_of_str test_percent_entry with
    | Raise _ => ShowError "invalid literal for int() with base 10"
    | Ok test_percent =>
        if negb ((0 <=? test_percent) && (test_percent <=? 100)) then
          ShowError "Test set percentage must be between 0 and 100."
        else
          let remaining_percent := 100 - test_percent in
          let all_images :=
            shuffle (collect image_folders "train" ++ collect image_folders "val"
                     ++ collect image_folders "test") in
          let r :=
            train_percent ← train_percent_of scale remaining_percent;
            test_count ← test_count_of test_percent (Z.of_nat (length all_images));
            let test_images := slice all_images None (Some test_count) in
            let remaining_images := slice all_images (Some test_count) None in
            train_count ← train_count_of train_percent
                            (Z.of_nat (length remaining_images));
            let train_images := slice remaining_images None (Some train_count) in
            let valid_images := slice remaining_images (Some train_count) None in
            Ok (test_images, train_images, valid_images) in
          match r with
          | Ok (test_images, train_images, valid_images) =>
              Rearranged test_images train_images valid_images
          | Raise e => Uncaught e
          end
    end.

(** *** Vocabulary of the specification *)

(** [floor(p / 100 * n)] in exact arithmetic. *)
Definition exact_percent (p n : Z) : Z := p * n / 100.

(** The fraction [test_percent / 100] lies in [0, 1]. *)
Definition unit_quotient (test_percent : Z) : bool :=
  match int_truediv test_percent 100 with
  | Ok q => unit_float q
  | Raise _ => false
  end.

(** The fraction [train_percent / 100] lies in [0, 1]. *)
Definition unit_train_fraction (scale remaining_percent : Z) : bool :=
  match train_percent ← train_percent_of scale remaining_percent;
        float_div train_percent float_100 with
  | Ok q => unit_float q
  | Raise _ => false
  end.

(** *** A sample dataset: 100 images in train *)
Definition sample_folders : gmap string (list string) :=
  {[ "train" := (λ i, str_of_int i +:+ ".jpg") <$> range 100 ]}.

(** *** Vocabulary of the further properties *)

(** With the slider at 0 the train percentage is [0.0]. *)
Definition zero_train_percent (remaining_percent : Z) : bool :=
  match train_percent_of 0 remaining_percent with
  | Ok (S754_zero false) => true
  | _ => false
  end.

(** *** [move_files] and the files on disk *)

(** [os.path.join(img_folder, img_file)] with
    [img_folder = os.path.join(self.dataset_path, split, 'images')]: the
    path that [rearrange_dataset] collects for an image. *)
Definition image_file (dataset_path : string) (img : image_path) : string :=
  path_join (path_join dataset_path [img.1; "images"]) [img.2].

(** What [move_files] computes for one file of its list:
    [os.path.join(img_folder, img_filename)], where the image goes; *)
Definition image_dest (dataset_path split file : string) : string :=
  path_join (path_join dataset_path [split; "images"]) [basename file].

(** [lbl_file], where the label is looked for; *)
Definition label_source (file : string) : string :=
  replace (replace (replace file "images" "labels") ".jpg" ".txt") ".png" ".txt".

(** [lbl_filename]; *)
Definition label_name (file : string) : string :=
  (splitext (basename file)).1 +:+ ".txt".

(** [os.path.join(lbl_folder, lbl_filename)], where the label goes. *)
Definition label_dest (dataset_path split file : string) : string :=
  path_join (path_join dataset_path [split; "labels"]) [label_name file].

(** A text that [move_files] handles as meant when it is part of a path:
    it holds none of the texts that are replaced. *)
Definition plain (s : string) : bool :=
  free "images" s && free ".jpg" s && free ".png" s.

(** The dataset folder as the folder dialog gives it: not empty, no slash
    at the end. *)
Definition folder_named (dataset_path : string) : bool :=
  negb (String.eqb dataset_path "") && negb (endswith dataset_path "/").

(** Such a folder with a plain path. *)
Definition folder_ok (dataset_path : string) : bool :=
  folder_named dataset_path && plain dataset_path.

(** The part of an image's name before the extension: no slash, not only
    dots (so not empty). *)
Definition name_ok (stem : string) : bool :=
  string_forall (λ c, negb (Ascii.eqb c "/")) stem
  && negb (string_forall (λ c, Ascii.eqb c ".") stem).

(** Such a stem that is plain. *)
Definition stem_ok (stem : string) : bool := name_ok stem && plain stem.

(** The disk is the map of its regular files, from path to content.
    Folders are not kept: [os.makedirs] has made the folders [move_files]
    moves into, and the paths it tests or moves are taken to be files or
    nothing, never folders.

    [shutil.move(src, dst)] for a regular file [src] and a [dst] that is no
    folder: [os.rename], which replaces [dst].  [None] when [src] does not
    exist, where Python raises FileNotFoundError. *)
Definition move (src dst : string) (fs : gmap string string)
    : option (gmap string string) :=
  match fs !! src with
  | Some content => Some (<[dst := content]> (delete src fs))
  | None => None
  end.

(** [move_files(split, files)]; the progress bar is left out. *)
Fixpoint move_files (dataset_path split : string) (files : list string)
    (fs : gmap string string) : option (gmap string string) :=
  match files with
  | [] => Some fs
  | file :: files' =>
      fs ← move file (image_dest dataset_path split file) fs;
      let lbl_file := label_source file in
      fs ← (if bool_decide (is_Some (fs !! lbl_file))
            then move lbl_file (label_dest dataset_path split file) fs
            else Some fs);
      move_files dataset_path split files' fs
  end.

(** The three calls that end [rearrange_dataset]. *)
Definition move_all (dataset_path : string)
    (test_images train_images valid_images : list string)
    (fs : gmap string string) : option (gmap string string) :=
  fs ← move_files dataset_path "test" test_images fs;
  fs ← move_files dataset_path "train" train_images fs;
  move_files dataset_path "val" valid_images fs.

(** An image of the dataset: the split it is in, its stem and its
    extension (jpg or png). *)
Definition item : Type := string * string * string.

Definition item_ok (it : item) : Prop :=
  it.1.1 ∈ splits ∧ stem_ok it.1.2 = true ∧ it.2 ∈ ["jpg"; "png"].

(** The path [rearrange_dataset] collects for it. *)
Definition item_file (dataset_path : string) (it : item) : string :=
  image_file dataset_path (it.1.1, it.1.2 +:+ "." +:+ it.2).

(** Its image and its label in a split. *)
Definition item_image (dataset_path split : string) (it : item) : string :=
  dataset_path +:+ "/" +:+ split +:+ "/images/" +:+ it.1.2 +:+ "." +:+ it.2.
Definition item_label (dataset_path split : string) (it : item) : string :=
  dataset_path +:+ "/" +:+ split +:+ "/labels/" +:+ it.1.2 +:+ ".txt".

(** The paths [move_files] reads or writes for it. *)
Definition item_paths (dataset_path split : string) (it : item) : list string :=
  [item_image dataset_path it.1.1 it; item_image dataset_path split it;
   item_label dataset_path it.1.1 it; item_label dataset_path split it].

(** An image has gone from the split it was in to [split], and its label
    with it: [fs] is the disk before, [fs'] the disk after. *)
Definition moved (dataset_path split : string) (it : item)
    (fs fs' : gmap string string) : Prop :=
  fs' !! item_image dataset_path split it = fs !! item_image dataset_path it.1.1 it
  ∧ (is_Some (fs !! item_label dataset_path it.1.1 it) →
       fs' !! item_label dataset_path split it
       = fs !! item_label dataset_path it.1.1 it)
  ∧ (fs !! item_label dataset_path it.1.1 it = None →
       fs' !! item_label dataset_path split it
       = fs !! item_label dataset_path split it)
  ∧ (it.1.1 ≠ split →
       fs' !! item_image dataset_path it.1.1 it = None
       ∧ fs' !! item_label dataset_path it.1.1 it = None).

End Rearrange.

(** ** AZ_Yolov8ClassificationFolderSpliter.py *)
Module FolderSplitter.
Import Py.

(** A file below the output folder, [<output>/<split>/<class>/<name>]. *)
Definition out_path : Type := string * string * string.

(** The two folders.  The input folder is a list of class folders with
    their files, as [os.listdir] enumerates them.  Below the output folder
    the model keeps the class directories that exist and, for every file,
    the input file (class, name) it is a copy of.  The output folder is
    taken to lie outside the input folder. *)
Record folders : Type := mk_folders {
  input : list (string * list string);
  out_dirs : gset (string * string);
  out_files : gmap out_path (string * string)
}.

Inductive outcome : Type :=
| ShowError (msg : string)
| ShowInfo (msg : string)
| Uncaught (e : exn).

Definition all_splits : list string := ["train"; "val"; "test"].

(** [float(var.get()) / 100], from what [float(var.get())] gave. *)
Definition percentage (parsed : result float) : result float :=
  x ← parsed; float_div x float_100.

(** [abs(train_pct + val_pct + test_pct - 1.0) > 0.01] *)
Definition sum_check_fails (train_pct val_pct test_pct : float) : bool :=
  float_gt
    (float_abs (float_sub (float_add (float_add train_pct val_pct) test_pct) float_1))
    float_0_01.

(** The [os.makedirs] loop: every split, every class. *)
Definition make_dirs (classes : list string) (dirs : gset (string * string))
    : gset (string * string) :=
  foldl (λ acc split,
           foldl (λ acc' cls, {[ (split, cls) ]} ∪ acc') acc classes)
        dirs all_splits.

(** One of the three copy loops: [shutil.copy] of each file of the class
    into the folder of the split. *)
Definition copy_files (split cls : string) (files : list string)
    (out : gmap out_path (string * string)) : gmap out_path (string * string) :=
  foldl (λ acc f, <[(split, cls, f) := (cls, f)]> acc) out files.

(** [int(n_total * pct)] *)
Definition count_of (n_total : Z) (pct : float) : result Z :=
  x ← int_mul_float n_total pct; int_of_float x.

(** The three slices of the shuffled files of one class. *)
Definition split_files (files : list string) (n_train n_val : Z)
    : list string * list string * list string :=
  (slice files None (Some n_train),
   slice files (Some n_train) (Some (n_train + n_val)),
   slice files (Some (n_train + n_val)) None).

(** The loop over the classes.  [shuffle k] is what [random.shuffle] does
    on its [k]-th call.  The files copied so far stay when a class raises. *)
Fixpoint split_classes (shuffle : nat → list string → list string) (k : nat)
    (train_pct val_pct : float) (classes : list (string * list string))
    (out : gmap out_path (string * string))
    : gmap out_path (string * string) * option exn :=
  match classes with
  | [] => (out, None)
  | (cls, listing) :: classes' =>
      let files := shuffle k listing in
      let n_total := Z.of_nat (length files) in
      match count_of n_total train_pct with
      | Raise e => (out, Some e)
      | Ok n_train =>
          match count_of n_total val_pct with
          | Raise e => (out, Some e)
          | Ok n_val =>
              let '(train_files, val_files, test_files) :=
                split_files files n_train n_val in
              let out := copy_files "train" cls train_files out in
              let out := copy_files "val" cls val_files out in
              let out := copy_files "test" cls test_files out in
              split_classes shuffle (S k) train_pct val_pct classes' out
          end
      end
  end.

(** [split_dataset], from the chosen folders, the outcome of the three
    [float(...)] conversions and the folders on disk. *)
Definition split_dataset (shuffle : nat → list string → list string)
    (input_dir output_dir : string) (train val test : result float)
    (fs : folders) : folders * outcome :=
  if bool_decide (input_dir = "") || bool_decide (output_dir = "") then
    (fs, ShowError "Please select both input and output folders.")
  else
    match (train_pct ← percentage train;
           val_pct ← percentage val;
           test_pct ← percentage test;
           Ok (train_pct, val_pct, test_pct)) with
    | Raise _ => (fs, ShowError "Invalid percentage values.")
    | Ok (train_pct, val_pct, test_pct) =>
        if sum_check_fails train_pct val_pct test_pct then
          (fs, ShowError "Train/Val/Test percentages must sum to 100%.")
        else
          let classes := fst <$> input fs in
          let dirs := make_dirs classes (out_dirs fs) in
          let '(files, e) :=
            split_classes shuffle O train_pct val_pct (input fs) (out_files fs) in
          ({| input := input fs; out_dirs := dirs; out_files := files |},
           match e with
           | Some x => Uncaught x
           | None => ShowInfo "Dataset split completed!"
           end)
    end.

(** *** Vocabulary of the specification *)

(** The entries parse and the fractions sum to 1 within 0.01. *)
Definition percentages_valid (train val test : result float) : Prop :=
  ∃ train_pct val_pct test_pct,
    percentage train = Ok train_pct ∧ percentage val = Ok val_pct
    ∧ percentage test = Ok test_pct
    ∧ sum_check_fails train_pct val_pct test_pct = false.


(** The path [<output>/s/c/f] is one the three copy loops of class [cls]
    write to, when [plan] holds the three slices. *)
Definition in_plan (cls : string) (plan : list string * list string * list string)
    (s c f : string) : Prop :=
  c = cls ∧ (s = "train" ∧ f ∈ plan.1.1 ∨ s = "val" ∧ f ∈ plan.1.2
             ∨ s = "test" ∧ f ∈ plan.2).

(** The counts computed for a class of [n] files are non-negative and
    leave room for each other. *)
Definition counts_fit (n : Z) (train_pct val_pct : float) : Prop :=
  ∃ n_train n_val,
    count_of n train_pct = Ok n_train ∧ count_of n val_pct = Ok n_val
    ∧ 0 ≤ n_train ∧ 0 ≤ n_val ∧ n_train + n_val ≤ n.

(** How many files of a class have their copy in the folder of a split. *)
Definition copied_count (out : gmap out_path (string * string))
    (split cls : string) (listing : list string) : Z :=
  Z.of_nat (length (filter (λ f, out !! (split, cls, f) = Some (cls, f)) listing)).

(** [abs(train_pct + val_pct + test_pct - 1.0) <= 0.01]: the fractions sum
    to 1 within the tolerance. *)
Definition sums_to_one (train_pct val_pct test_pct : float) : bool :=
  SFleb
    (float_abs (float_sub (float_add (float_add train_pct val_pct) test_pct) float_1))
    float_0_01.

(** The sum the check looks at. *)
Definition fraction_sum (train_pct val_pct test_pct : float) : float :=
  float_add (float_add train_pct val_pct) test_pct.

(** The entries parse and the fractions sum to 1 within the tolerance. *)
Definition percentages_sum_to_one (train val test : result float) : Prop :=
  ∃ train_pct val_pct test_pct,
    percentage train = Ok train_pct ∧ percentage val = Ok val_pct
    ∧ percentage test = Ok test_pct
    ∧ sums_to_one train_pct val_pct test_pct = true.

(** The output folder after the run differs from the one before. *)
Definition output_changed (before after : folders) : Prop :=
  out_dirs after ≠ out_dirs before ∨ out_files after ≠ out_files before.


(** The sentence on the validation as the specification has it: the
    output folder changes only if the entries parse and sum to 1 within
    the tolerance. *)
Definition validation_as_stated (shuffle : nat → list string → list string)
    (input_dir output_dir : string) (train val test : result float)
    (fs : folders) : Prop :=
  output_changed fs (split_dataset shuffle input_dir output_dir train val test fs).1
  → percentages_sum_to_one train val test.

(** *** Sample input: one class with ten files, one with four *)
Definition sample_input : folders :=
  {| input := [("cats", (λ i, str_of_int i +:+ ".jpg") <$> range 10)];
     out_dirs := ∅; out_files := ∅ |}.

Definition small_input : folders :=
  {| input := [("cats", ["a.jpg"; "b.jpg"; "c.jpg"; "d.jpg"])];
     out_dirs := ∅; out_files := ∅ |}.

(** What [float] makes of the entries "70", "20", "10", "75", "50", "-25"
    and "nan". *)
Definition entry_70 : result float := Ok (float_of_Z 70).
Definition entry_20 : result float := Ok (float_of_Z 20).
Definition entry_10 : result float := Ok (float_of_Z 10).
Definition entry_75 : result float := Ok (float_of_Z 75).
Definition entry_50 : result float := Ok (float_of_Z 50).
Definition entry_minus_25 : result float := Ok (float_of_Z (-25)).
Definition entry_nan : result float := Ok S754_nan.

Definition no_shuffle : nat → list string → list string := λ _ l, l.

(** What [float] makes of the entries "25.78125" (825 / 32) and "0". *)
Definition entry_25_78125 : result float := Ok (binary_normalize 53 1024 825 (-5) false).
Definition entry_0 : result float := Ok (float_of_Z 0).

(** Two classes, of 128 and of 100 files. *)
Definition mixed_input : folders :=
  {| input := [("a", (λ i, str_of_int i +:+ ".jpg") <$> range 128);
               ("b", (λ i, str_of_int i +:+ ".png") <$> range 100)];
     out_dirs := ∅; out_files := ∅ |}.

(** *** Vocabulary of the further properties *)

(** What [float] makes of a whole-number entry. *)
Definition whole_entry (p : Z) : result float := Ok (float_of_Z p).

(** The fractions of two whole-number entries lie in [0, 1] and their sum
    exceeds 1 by at most 2^-52. *)
Definition fractions_fit (a b : Z) : bool :=
  match percentage (whole_entry a), percentage (whole_entry b) with
  | Ok t, Ok v =>
      unit_float t && unit_float v
      && Qle_bool (F2Q t + F2Q v) (1 + pow2 (-52))
  | _, _ => false
  end.

(** The check lets three whole-number entries through. *)
Definition whole_entries_pass (a b c : Z) : bool :=
  match percentage (whole_entry a), percentage (whole_entry b),
        percentage (whole_entry c) with
  | Ok t, Ok v, Ok s => negb (sum_check_fails t v s)
  | _, _, _ => false
  end.

End FolderSplitter.

(* ===================================================================== *)
(** * Part II: properties                                                 *)
(* ===================================================================== *)

Module PyFacts.
Import Py.

Example split_example :
  split ("  3 0.5	0.25 " +:+ String newline "") = ["3"; "0.5"; "0.25"].
Proof. reflexivity. Qed.

Example int_of_str_examples :
  int_of_str "12" = Ok 12 ∧ int_of_str "-0" = Ok 0 ∧ int_of_str "+7" = Ok 7
  ∧ int_of_str "1_0" = Ok 10 ∧ int_of_str "1__0" = Raise ValueError
  ∧ int_of_str "_1" = Raise ValueError ∧ int_of_str "0.5" = Raise ValueError
  ∧ int_of_str "" = Raise ValueError ∧ int_of_str "007" = Ok 7.
Proof. repeat split; reflexivity. Qed.

(** [int] skips blanks and tabs around the digits, and the no-break
    space; it does not skip the separators FS..US, which [split] takes for
    whitespace. *)
Example int_of_str_whitespace :
  int_of_str (" " +:+ String "009" "7 ") = Ok 7
  ∧ int_of_str (String "160" "7") = Ok 7
  ∧ int_of_str (String "028" "7") = Raise ValueError
  ∧ split (String "028" "7") = ["7"].
Proof. repeat split; reflexivity. Qed.

Example str_of_int_examples :
  str_of_int 0 = "0" ∧ str_of_int 10 = "10" ∧ str_of_int (-1) = "-1"
  ∧ str_of_int 1234567890 = "1234567890" ∧ str_of_int 99 = "99".
Proof. repeat split; reflexivity. Qed.

(** The float constants of the model are the doubles Python uses. *)
Example float_constants :
  float_of_Z 1 = float_1 ∧ float_of_Z 100 = float_100
  ∧ int_truediv 1 100 = Ok float_0_01.
Proof. vm_compute. done. Qed.

(** [29 / 100 * 100] is [28.999999999999996] and [11 * (30 / 22)] is
    [14.999999999999998]: the truncations are 28 and 14. *)
Example float_examples :
  (q ← int_truediv 29 100; x ← float_mul_int q 100; int_of_float x) = Ok 28
  ∧ (q ← int_truediv 30 22; x ← int_mul_float 11 q; int_of_float x) = Ok 14
  ∧ int_truediv 1 0 = Raise ZeroDivisionError
  ∧ int_of_float S754_nan = Raise ValueError
  ∧ int_of_float (S754_finite true 3 (-1)) = Ok (-1)
  ∧ float_of_int (2 ^ 1024) = Raise OverflowError.
Proof. vm_compute. done. Qed.

Example slice_examples :
  slice [1; 2; 3; 4] None (Some 3) = [1; 2; 3]
  ∧ slice [1; 2; 3; 4] (Some 3) (Some 5) = [4]
  ∧ slice [1; 2; 3; 4] (Some 5) None = []
  ∧ slice [1; 2; 3; 4] None (Some (-1)) = [1; 2; 3]
  ∧ slice [1; 2; 3; 4] (Some (-1)) (Some 2) = [].
Proof. vm_compute. done. Qed.

End PyFacts.

(** ** Facts about the runtime model *)
Module PyLemmas.
Import Py.

Lemma append_cons (x : ascii) (a b : string) : String x a +:+ b = String x (a +:+ b).
Proof. reflexivity. Qed.

Lemma append_nil_l (a : string) : "" +:+ a = a.
Proof. reflexivity. Qed.

Ltac sapp := rewrite ?append_cons, ?append_nil_l.

Lemma append_assoc (a b c : string) : (a +:+ b) +:+ c = a +:+ (b +:+ c).
Proof. induction a as [|x a IH]; sapp; [done | by rewrite IH]. Qed.

Lemma append_nil_r (a : string) : a +:+ "" = a.
Proof. induction a as [|x a IH]; sapp; [done | by rewrite IH]. Qed.

Lemma append_snoc_cons (a : string) (x : ascii) (b : string) :
  (a +:+ String x "") +:+ b = a +:+ String x b.
Proof. by rewrite append_assoc. Qed.

Lemma string_forall_app p a b :
  string_forall p (a +:+ b) = string_forall p a && string_forall p b.
Proof.
  induction a as [|x a IH]; sapp; simpl; [done|].
  by rewrite IH, andb_assoc.
Qed.

Lemma flush_nonempty cur : cur ≠ "" → flush cur = [cur].
Proof. by destruct cur. Qed.

(** [split] walks through a whitespace-free stretch, extending the pending token. *)
Lemma split_go_stretch t cur rest :
  string_forall (λ c, negb (is_space c)) t = true →
  split_go cur (t +:+ rest) = split_go (cur +:+ t) rest.
Proof.
  revert cur. induction t as [|x t IH]; intros cur H; sapp; simpl in *.
  - by rewrite append_nil_r.
  - apply andb_prop in H as [Hx Ht]. apply negb_true_iff in Hx. rewrite Hx.
    rewrite IH by done. by rewrite append_snoc_cons.
Qed.

Lemma split_go_tokens cur s :
  string_forall (λ c, negb (is_space c)) cur = true →
  Forall token (split_go cur s).
Proof.
  revert cur. induction s as [|x s IH]; intros cur H; simpl.
  - destruct cur; simpl; [constructor|]. repeat constructor; done.
  - destruct (is_space x) eqn:Hx.
    + apply Forall_app. split; [|by apply IH].
      destruct cur; simpl; [constructor|]. repeat constructor; done.
    + apply IH. rewrite string_forall_app, H. simpl. by rewrite Hx.
Qed.

Lemma split_tokens s : Forall token (split s).
Proof. by apply split_go_tokens. Qed.

(** Splitting what [join] and the terminator assembled gives the tokens back. *)
Lemma split_join_line toks :
  Forall token toks →
  split (join " " toks +:+ String newline "") = toks.
Proof.
  unfold split, join. induction 1 as [|t toks [Hne Ht] Hts IH]; [done|].
  destruct toks as [|t' toks].
  - simpl String.concat. rewrite split_go_stretch by done. sapp. simpl.
    by rewrite flush_nonempty.
  - change (String.concat " " (t :: t' :: toks))
      with (t +:+ String " " (String.concat " " (t' :: toks))).
    rewrite append_assoc. rewrite split_go_stretch by done. sapp. simpl.
    rewrite flush_nonempty by done. simpl. f_equal. exact IH.
Qed.

(** Reading back what [writelines] wrote. *)
Lemma readlines_go_line body cur rest :
  string_forall (λ c, negb (Ascii.eqb c newline)) body = true →
  readlines_go cur ((body +:+ String newline "") +:+ rest)
  = (cur +:+ body +:+ String newline "") :: readlines_go "" rest.
Proof.
  revert cur. induction body as [|x body IH]; intros cur H; sapp; simpl in *.
  - done.
  - apply andb_prop in H as [Hx Hb]. apply negb_true_iff in Hx. rewrite Hx.
    rewrite IH by done. by rewrite append_snoc_cons.
Qed.

Lemma readlines_writelines ls :
  Forall terminated_line ls → readlines (writelines ls) = ls.
Proof.
  unfold readlines, writelines.
  induction 1 as [|l ls (body & -> & Hb) Hls IH]; [done|].
  assert (String.concat "" ((body +:+ String newline "") :: ls)
          = (body +:+ String newline "") +:+ String.concat "" ls) as ->.
  { destruct ls; simpl; [by rewrite append_nil_r | done]. }
  rewrite readlines_go_line by done. sapp. by rewrite IH.
Qed.

(** Decimal digits. *)
Lemma digit_char_facts d :
  0 ≤ d < 10 →
  digit_val (digit_char d) = Some d ∧ is_space (digit_char d) = false
  ∧ Ascii.eqb (digit_char d) "-" = false ∧ Ascii.eqb (digit_char d) "+" = false.
Proof.
  intros H. replace d with (Z.of_nat (Z.to_nat d)) by lia.
  assert (Z.to_nat d < 10)%nat as Hn by lia. revert Hn.
  generalize (Z.to_nat d). intros n Hn.
  do 10 (destruct n as [|n]; [by vm_compute|]). lia.
Qed.

Lemma str_digits_parse (f : nat) : ∀ n,
  0 ≤ n < 2 ^ (Z.of_nat f + 1) →
  ∃ k, 0 ≤ k ∧ ∀ rest a prev,
    int_digits a prev (str_digits f n rest) = int_digits (a * 10 ^ k + n) true rest.
Proof.
  assert (Hone : ∀ n, 0 ≤ n < 10 → ∀ rest a prev,
    int_digits a prev (String (digit_char (n mod 10)) rest)
    = int_digits (a * 10 ^ 1 + n) true rest).
  { intros n Hn rest a prev. rewrite Z.mod_small by lia. simpl int_digits.
    destruct (digit_char_facts n Hn) as (-> & _). f_equal. lia. }
  induction f as [|f IH]; intros n Hn.
  - exists 1. split; [lia|]. intros. simpl str_digits. apply Hone.
    change (2 ^ (Z.of_nat 0 + 1)) with 2 in Hn. lia.
  - simpl str_digits. destruct (n <? 10) eqn:Hlt.
    + exists 1. split; [lia|]. intros. apply Hone. lia.
    + apply Z.ltb_ge in Hlt.
      destruct (IH (n / 10)) as (k & Hk0 & Hk).
      { split; [apply Z.div_pos; lia|].
        apply Z.div_lt_upper_bound; [lia|].
        replace (Z.of_nat (S f) + 1) with (Z.succ (Z.of_nat f + 1)) in Hn by lia.
        rewrite Z.pow_succ_r in Hn by lia. lia. }
      exists (k + 1). split; [lia|]. intros rest a prev. rewrite Hk.
      simpl int_digits.
      destruct (digit_char_facts (n mod 10)) as (-> & _).
      { apply Z.mod_pos_bound. lia. }
      f_equal. rewrite Z.pow_add_r by lia. pose proof (Z.div_mod n 10). lia.
Qed.

Lemma str_digits_chars (p : ascii → bool) (f : nat) : ∀ n acc,
  (∀ d, 0 ≤ d < 10 → p (digit_char d) = true) →
  string_forall p acc = true →
  string_forall p (str_digits f n acc) = true.
Proof.
  induction f as [|f IH]; intros n acc Hp Hacc; simpl str_digits.
  - simpl. rewrite Hp, Hacc; [done | by apply Z.mod_pos_bound].
  - assert (string_forall p (String (digit_char (n mod 10)) acc) = true) as H.
    { simpl. rewrite Hp, Hacc; [done | by apply Z.mod_pos_bound]. }
    destruct (n <? 10); [done | by apply IH].
Qed.

(** The first character of a printed number is a digit. *)
Lemma str_digits_head (f : nat) : ∀ n acc,
  ∃ d s, 0 ≤ d < 10 ∧ str_digits f n acc = String (digit_char d) s.
Proof.
  induction f as [|f IH]; intros n acc; simpl str_digits.
  - eexists _, _. split; [|done]. by apply Z.mod_pos_bound.
  - destruct (n <? 10).
    + eexists _, _. split; [|done]. by apply Z.mod_pos_bound.
    + apply IH.
Qed.

Lemma log2_fuel n : 0 ≤ n → 0 ≤ n < 2 ^ (Z.of_nat (Z.to_nat (Z.log2 n)) + 1).
Proof.
  intros Hn. split; [done|]. rewrite Z2Nat.id by apply Z.log2_nonneg.
  destruct (decide (n = 0)) as [->|]; [done|].
  replace (Z.log2 n + 1) with (Z.succ (Z.log2 n)) by lia.
  apply Z.log2_spec. lia.
Qed.

Lemma string_forall_rev_app p s t :
  string_forall p (String.rev_app s t) = string_forall p s && string_forall p t.
Proof.
  revert t. induction s as [|x s IH]; intros t; simpl; [done|].
  rewrite IH. simpl. destruct (p x), (string_forall p s); done.
Qed.

Lemma rev_app_rev_app s t u :
  String.rev_app (String.rev_app s t) u = String.rev_app t (s +:+ u).
Proof.
  revert t u. induction s as [|x s IH]; intros t u; simpl; [done|].
  by rewrite IH.
Qed.

Lemma rev_involutive s : String.rev (String.rev s) = s.
Proof. unfold String.rev. rewrite rev_app_rev_app. simpl. apply append_nil_r. Qed.

Lemma is_int_space_is_space c : is_space c = false → is_int_space c = false.
Proof. destruct c as [[] [] [] [] [] [] [] []]; vm_compute; done. Qed.

Lemma lstrip_id s :
  string_forall (λ c, negb (is_space c)) s = true → int_lstrip s = s.
Proof.
  destruct s as [|x s]; simpl; [done|]. intros [Hx _]%andb_prop.
  apply negb_true_iff, is_int_space_is_space in Hx. by rewrite Hx.
Qed.

Lemma strip_id s :
  string_forall (λ c, negb (is_space c)) s = true → int_strip s = s.
Proof.
  intros H. unfold int_strip, int_rstrip. rewrite (lstrip_id s) by done.
  rewrite lstrip_id; [apply rev_involutive|].
  unfold String.rev. rewrite string_forall_rev_app, H. done.
Qed.

Lemma str_of_int_token z : token (str_of_int z).
Proof.
  assert (∀ d, 0 ≤ d < 10 → negb (is_space (digit_char d)) = true) as Hd.
  { intros d Hd. by destruct (digit_char_facts d Hd) as (_ & -> & _). }
  unfold str_of_int. destruct (z <? 0); split; try done.
  - simpl. by apply str_digits_chars.
  - by destruct (str_digits_head (Z.to_nat (Z.log2 z)) z "") as (d & s & _ & ->).
  - by apply str_digits_chars.
Qed.

(** Slices with bounds inside the list. *)
Lemma slice_prefix {A} (l : list A) (c : Z) :
  0 ≤ c ≤ Z.of_nat (length l) → slice l None (Some c) = take (Z.to_nat c) l.
Proof.
  intros Hc. unfold slice, slice_bound. rewrite (proj2 (Z.ltb_ge _ _)) by lia.
  rewrite Nat.sub_0_r, drop_0. f_equal. lia.
Qed.

Lemma slice_suffix {A} (l : list A) (c : Z) :
  0 ≤ c ≤ Z.of_nat (length l) → slice l (Some c) None = drop (Z.to_nat c) l.
Proof.
  intros Hc. unfold slice, slice_bound. rewrite (proj2 (Z.ltb_ge _ _)) by lia.
  replace (Z.to_nat (Z.max 0 (Z.min (Z.of_nat (length l)) c))) with (Z.to_nat c)
    by lia.
  apply take_ge. rewrite length_drop. lia.
Qed.


(** Printing an integer and parsing it back. *)
Lemma int_of_str_of_int z : int_of_str (str_of_int z) = Ok z.
Proof.
  unfold int_of_str. rewrite strip_id by apply str_of_int_token.
  unfold str_of_int. destruct (z <? 0) eqn:Hz.
  - apply Z.ltb_lt in Hz. rewrite Ascii.eqb_refl.
    destruct (str_digits_parse (Z.to_nat (Z.log2 (- z))) (- z)) as (k & _ & ->).
    { apply log2_fuel. lia. }
    simpl. f_equal. lia.
  - apply Z.ltb_ge in Hz.
    pose proof (str_digits_parse (Z.to_nat (Z.log2 z)) z (log2_fuel z Hz))
      as (k & _ & Hk).
    specialize (Hk "" 0 false).
    destruct (str_digits_head (Z.to_nat (Z.log2 z)) z "") as (d & s & Hd & Hs).
    rewrite Hs in *.
    destruct (digit_char_facts d Hd) as (_ & _ & -> & ->).
    rewrite Hk. simpl. f_equal.
Qed.

End PyLemmas.

(** ** AZYoloClassRemover2.py: label rewrite and data.yaml update *)
Module ClassRemoverSpec.
Import Py PyLemmas ClassRemover.

Lemma list_to_map_graph (f : Z → Z) (l : list Z) (i : Z) :
  (list_to_map ((λ i, (i, f i)) <$> l) : gmap Z Z) !! i
  = if bool_decide (i ∈ l) then Some (f i) else None.
Proof.
  induction l as [|x l IH].
  - rewrite fmap_nil, list_to_map_nil, lookup_empty.
    by rewrite bool_decide_eq_false_2 by set_solver.
  - rewrite fmap_cons, list_to_map_cons. destruct (decide (x = i)) as [->|Hne].
    + rewrite lookup_insert_eq. by rewrite bool_decide_eq_true_2 by set_solver.
    + rewrite lookup_insert_ne by done. rewrite IH.
      apply (f_equal (λ b : bool, if b then Some (f i) else None)).
      apply bool_decide_ext. rewrite elem_of_cons.
      split; [auto | intros [?|?]; [congruence | done]].
Qed.

(** The dictionary has exactly the old indices as keys. *)
Lemma class_map_lookup r classes i :
  make_class_map r classes !! i
  = if bool_decide (0 ≤ i ≤ Z.of_nat (length classes)) then Some (remap r i)
    else None.
Proof.
  unfold make_class_map, range. rewrite (list_to_map_graph (remap r)).
  apply (f_equal (λ b : bool, if b then Some (remap r i) else None)).
  apply bool_decide_ext. rewrite elem_of_seqZ. lia.
Qed.

Lemma remap_lt r i : i < r → remap r i = i.
Proof. unfold remap. intros. by rewrite (proj2 (Z.ltb_lt _ _)). Qed.

Lemma remap_gt r i : i > r → remap r i = i - 1.
Proof. unfold remap. intros. by rewrite (proj2 (Z.ltb_ge _ _)) by lia. Qed.

Lemma rewritten_line_terminated toks :
  Forall token toks → terminated_line (join " " toks +:+ String newline "").
Proof.
  intros H. eexists. split; [done|]. unfold join.
  induction H as [|t toks [_ Ht] Hts IH]; [done|].
  assert (string_forall (λ c, negb (Ascii.eqb c newline)) t = true) as Ht'.
  { clear -Ht. induction t as [|x t IH]; [done|]. simpl in *.
    apply andb_prop in Ht as [Hx Ht]. rewrite IH by done.
    destruct (Ascii.eqb_spec x newline) as [->|]; done. }
  destruct toks as [|t' toks]; [done|].
  change (String.concat " " (t :: t' :: toks))
    with (t +:+ String " " (String.concat " " (t' :: toks))).
  rewrite string_forall_app, Ht'. simpl. exact IH.
Qed.

(** One line: what comes out when the line is kept, and when it is dropped. *)
Lemma rewrite_line_kept r classes line new :
  rewrite_line r (make_class_map r classes) line = Ok (Some new) →
  line_rewritten r line new ∧ leading_index line ≠ Some r ∧ terminated_line new.
Proof.
  unfold rewrite_line, leading_index.
  pose proof (split_tokens line) as Htok.
  destruct (split line) as [|t rest] eqn:Hsplit; [done|].
  destruct (int_of_str t) as [i|] eqn:Hi; simpl; [|done].
  case_bool_decide as Hne; [|done].
  rewrite class_map_lookup. case_bool_decide; [|done].
  intros [= <-].
  assert (Forall token (str_of_int (remap r i) :: rest)) as Htoks.
  { inversion Htok; subst. constructor; [apply str_of_int_token | done]. }
  split; [|split].
  - exists t, rest, i. split; [done|]. split; [done|]. split; [done|].
    split; [exact (split_join_line _ Htoks)|]. split; [apply int_of_str_of_int|].
    split; [apply remap_lt | apply remap_gt].
  - congruence.
  - exact (rewritten_line_terminated _ Htoks).
Qed.

Lemma rewrite_line_dropped r cm line :
  rewrite_line r cm line = Ok None → leading_index line = Some r.
Proof.
  unfold rewrite_line, leading_index.
  destruct (split line) as [|t rest]; [done|].
  destruct (int_of_str t) as [i|]; simpl; [|done].
  case_bool_decide as Hne.
  - by destruct (cm !! i).
  - intros _. f_equal. by destruct (decide (i = r)).
Qed.

Lemma rewrite_lines_spec r classes lines new_lines :
  rewrite_lines r (make_class_map r classes) lines = Ok new_lines →
  Forall2 (line_rewritten r)
    (filter (λ l, leading_index l ≠ Some r) lines) new_lines
  ∧ Forall terminated_line new_lines.
Proof.
  revert new_lines. induction lines as [|line lines IH]; intros new_lines; simpl.
  - intros [= <-]. by split.
  - destruct (rewrite_line r _ line) as [o|] eqn:Hline; simpl; [|done].
    destruct (rewrite_lines r _ lines) as [nl|]; simpl; [|done].
    intros [= <-]. destruct (IH nl eq_refl) as [IH1 IH2].
    destruct o as [new|].
    + apply rewrite_line_kept in Hline as (H1 & H2 & H3).
      rewrite filter_cons_True by done. split; by constructor.
    + apply rewrite_line_dropped in Hline.
      rewrite filter_cons_False by (intros ?; done). by split.
Qed.

Lemma rewrite_file_spec r classes text text' :
  rewrite_file r (make_class_map r classes) text = Ok text' →
  text_rewritten r text text'.
Proof.
  unfold rewrite_file, text_rewritten.
  destruct (rewrite_lines r _ (readlines text)) as [nl|] eqn:H; simpl; [|done].
  intros [= <-]. apply rewrite_lines_spec in H as [H1 H2].
  by rewrite readlines_writelines.
Qed.

Lemma update_labels_spec r classes dir dir' :
  update_labels dir r (make_class_map r classes) = (dir', None) →
  dir_rewritten r dir dir'.
Proof.
  revert dir'. induction dir as [|[name text] dir IH]; intros dir'; simpl.
  - intros [= <-]. constructor.
  - destruct (endswith name ".txt") eqn:Hext.
    + destruct (rewrite_file r _ text) as [text'|] eqn:Hf; [|done].
      destruct (update_labels dir r _) as [done e]. intros [= <- ->].
      constructor; [|by apply IH]. simpl. rewrite Hext.
      split; [done|]. by eapply rewrite_file_spec.
    + destruct (update_labels dir r _) as [done e]. intros [= <- ->].
      constructor; [|by apply IH]. simpl. by rewrite Hext.
Qed.

Lemma update_splits_spec r classes splits : ∀ dirs dirs',
  NoDup splits →
  update_splits splits r (make_class_map r classes) dirs = (dirs', None) →
  ∀ sp,
    (sp ∉ splits → dirs' !! sp = dirs !! sp)
    ∧ (sp ∈ splits → ∀ d, dirs !! sp = Some d →
         ∃ d', dirs' !! sp = Some d' ∧ dir_rewritten r d d').
Proof.
  induction splits as [|s splits IH]; intros dirs dirs' Hnd; simpl.
  - intros [= <-] sp. split; [done|]. intros Hin. by apply elem_of_nil in Hin.
  - apply NoDup_cons in Hnd as [Hs Hnd].
    destruct (dirs !! s) as [dir|] eqn:Hdir.
    + destruct (update_labels dir r _) as [dir1 e] eqn:Hupd.
      destruct e as [x|]; [done|]. intros Hrest sp.
      destruct (IH _ _ Hnd Hrest sp) as [IHout IHin].
      destruct (IH _ _ Hnd Hrest s) as [IHs _].
      apply update_labels_spec in Hupd.
      split.
      * intros [Hne Hsp]%not_elem_of_cons. rewrite IHout by done.
        by apply lookup_insert_ne.
      * intros Hsp d Hd. destruct (decide (sp = s)) as [->|Hne].
        -- rewrite IHs by done. rewrite lookup_insert_eq.
           exists dir1. split; [done|]. congruence.
        -- apply elem_of_cons in Hsp as [?|Hsp]; [done|].
           apply IHin; [done|]. by rewrite lookup_insert_ne.
    + intros Hrest sp. destruct (IH _ _ Hnd Hrest sp) as [IHout IHin].
      split.
      * intros [Hne Hsp]%not_elem_of_cons. by apply IHout.
      * intros Hsp d Hd. apply IHin; [|done].
        apply elem_of_cons in Hsp as [->|]; [congruence | done].
Qed.

(** Well-formed input goes through. *)
Lemma rewrite_line_total r classes line :
  wf_line (Z.of_nat (length classes) + 1) line →
  ∃ o, rewrite_line r (make_class_map r classes) line = Ok o.
Proof.
  intros (i & Hi & Hrange). unfold leading_index in Hi. unfold rewrite_line.
  destruct (split line) as [|t rest]; [done|].
  destruct (int_of_str t) as [i'|]; [|done]. injection Hi as ->. simpl.
  case_bool_decide; [|by eexists].
  rewrite class_map_lookup. rewrite bool_decide_eq_true_2 by lia. by eexists.
Qed.

Lemma rewrite_lines_total r classes lines :
  Forall (wf_line (Z.of_nat (length classes) + 1)) lines →
  ∃ new_lines, rewrite_lines r (make_class_map r classes) lines = Ok new_lines.
Proof.
  induction 1 as [|line lines Hl _ [nl' IH]]; simpl; [by eexists|].
  destruct (rewrite_line_total r classes line Hl) as [o ->]. simpl.
  rewrite IH. simpl. by eexists.
Qed.

Lemma update_labels_total r classes dir :
  wf_dir (Z.of_nat (length classes) + 1) dir →
  (update_labels dir r (make_class_map r classes)).2 = None.
Proof.
  induction 1 as [|[name text] dir Hf _ IH]; simpl; [done|].
  destruct (endswith name ".txt") eqn:Hext.
  - simpl in Hf. unfold rewrite_file.
    destruct (rewrite_lines_total r classes _ (Hf Hext)) as [nl' ->]. simpl.
    by destruct (update_labels dir r _).
  - by destruct (update_labels dir r _).
Qed.

Lemma update_splits_total r classes splits : ∀ dirs,
  NoDup splits →
  (∀ sp d, sp ∈ splits → dirs !! sp = Some d →
           wf_dir (Z.of_nat (length classes) + 1) d) →
  (update_splits splits r (make_class_map r classes) dirs).2 = None.
Proof.
  induction splits as [|s splits IH]; intros dirs Hnd Hwf; simpl; [done|].
  apply NoDup_cons in Hnd as [Hs Hnd].
  destruct (dirs !! s) as [dir|] eqn:Hdir.
  - pose proof (update_labels_total r classes dir) as Htot.
    destruct (update_labels dir r _) as [dir1 e]. simpl in Htot.
    rewrite Htot by (eapply Hwf; [left | done]).
    apply IH; [done|]. intros sp d Hsp Hd.
    rewrite lookup_insert_ne in Hd by (intros ->; done).
    eapply Hwf; [by right | done].
  - apply IH; [done|]. intros sp d Hsp Hd. eapply Hwf; [by right | done].
Qed.

(** [list.index] and [list.pop]. *)
Lemma index_Some x l i :
  index x l = Some i →
  l = (take i l ++ x :: drop (S i) l)%list ∧ (x ∉ take i l) ∧ (i < length l)%nat.
Proof.
  revert i. induction l as [|y l IH]; intros i; simpl; [done|].
  destruct (String.eqb_spec y x) as [->|Hne].
  - intros [= <-]. simpl. rewrite drop_0. split; [done|].
    split; [apply not_elem_of_nil | lia].
  - destruct (index x l) as [k|]; simpl; [|done]. intros [= <-].
    destruct (IH k eq_refl) as (H1 & H2 & H3). simpl.
    split; [by f_equal|]. split; [|lia].
    apply not_elem_of_cons. split; [congruence | done].
Qed.

Lemma index_None x l : index x l = None → x ∉ l.
Proof.
  induction l as [|y l IH]; simpl; [intros; apply not_elem_of_nil|].
  destruct (String.eqb_spec y x) as [->|Hne]; [done|].
  destruct (index x l); simpl; [done|]. intros _.
  apply not_elem_of_cons. split; [congruence | by apply IH].
Qed.

Local Arguments update_splits : simpl never.

Ltac destruct_update_splits dirs e :=
  match goal with
  | |- context [update_splits ?a ?b ?c ?d] =>
      destruct (update_splits a b c d) as [dirs e]
  end.

Lemma all_splits_NoDup : NoDup all_splits.
Proof. apply (bool_decide_unpack _). by vm_compute. Qed.

(** The run on the sample dataset, removing "dog" (index 1): the line of
    class 1 goes away, class 2 becomes class 1, the unterminated last line
    gets its newline, the entry that is not a .txt file and the missing val
    directory are left alone. *)
Example process_sample :
  process_dataset "data.yaml" "dog" sample_dataset
  = ({| yaml := {| names := Some ["cat"; "bird"]; nc := Some 2;
                   other_keys := {[ "train" := "train/images" ]} |};
        labels :=
          {[ "train" := [("a.txt", "0 0.5 0.5 0.2 0.2" +:+ nl
                                   +:+ "1 0.7 0.7 0.1 0.1" +:+ nl);
                         ("classes.names", "cat" +:+ nl)];
             "test" := [("b.txt", "1 0.6 0.6 0.1 0.1" +:+ nl)] ]} |},
     ShowInfo "Class 'dog' removed successfully from the dataset.").
Proof. by vm_compute. Qed.

(** C1. Class removal label rewrite: when a run of [process_dataset]
    removes the class at index [r] and ends with the success box, then in
    every existing labels directory among train, val and test each .txt
    file is rewritten to exactly the original lines whose leading token,
    parsed as an integer, differs from [r], in their order; a kept line
    keeps its tokens after the first, and its leading index [i] is printed
    as [i] when [i < r] and as [i - 1] when [i > r]. *)
Theorem label_rewrite (yaml_path selected_class : string) (ds : dataset)
    (msg : string) :
  (process_dataset yaml_path selected_class ds).2 = ShowInfo msg →
  let r := get_class_index (default [] (names (yaml ds))) selected_class in
  0 ≤ r ∧
  ∀ split dir, split ∈ all_splits → labels ds !! split = Some dir →
    ∃ dir',
      labels (process_dataset yaml_path selected_class ds).1 !! split = Some dir'
      ∧ dir_rewritten r dir dir'.
Proof.
  unfold process_dataset.
  case_bool_decide; [done|]. case_bool_decide; [done|].
  case_bool_decide as Hidx; [done|].
  destruct (update_splits all_splits _ _ (labels ds)) as [dirs e] eqn:Hupd.
  destruct e as [x|]; [done|]. simpl. intros _. split.
  - unfold get_class_index in *. destruct (index _ _); lia.
  - intros split dir Hin Hdir.
    by destruct (update_splits_spec _ _ _ _ _ all_splits_NoDup Hupd split)
      as [_ Hspec]; apply Hspec.
Qed.

Lemma label_rewrite_witness :
  ∃ dir',
    labels (process_dataset "data.yaml" "dog" sample_dataset).1 !! "train"
    = Some dir'
    ∧ dir_rewritten 1
        [("a.txt", "0 0.5 0.5 0.2 0.2" +:+ nl +:+ "1 0.1 0.1 0.3 0.3" +:+ nl
                   +:+ "2   0.7 0.7 0.1 0.1" +:+ nl);
         ("classes.names", "cat" +:+ nl)] dir'.
Proof.
  apply (label_rewrite "data.yaml" "dog" sample_dataset
           "Class 'dog' removed successfully from the dataset.").
  - vm_compute. reflexivity.
  - apply (bool_decide_unpack _). vm_compute. reflexivity.
  - vm_compute. reflexivity.
Defined.

(** C2. Name-preserving remap: the renumbering commutes with removing the
    name; for an old index [i] other than the removed [r], the name at
    position [class_map[i]] of the new list is the name at position [i] of
    the old list. *)
Theorem remap_preserves_names (classes : list string) (r i : Z) :
  0 ≤ r < Z.of_nat (length classes) →
  0 ≤ i < Z.of_nat (length classes) →
  i ≠ r →
  ∃ j, make_class_map r (delete (Z.to_nat r) classes) !! i = Some j
       ∧ delete (Z.to_nat r) classes !! Z.to_nat j = classes !! Z.to_nat i.
Proof.
  intros Hr Hi Hne. exists (remap r i). split.
  - rewrite class_map_lookup. rewrite length_delete.
    + rewrite bool_decide_eq_true_2; [done | lia].
    + apply lookup_lt_is_Some. lia.
  - destruct (decide (i < r)) as [Hlt|Hge].
    + rewrite remap_lt by done. apply list_lookup_delete_lt. lia.
    + rewrite remap_gt by lia. rewrite list_lookup_delete_ge by lia.
      f_equal. lia.
Qed.

Lemma remap_preserves_names_witness :
  ∃ j, make_class_map 1 (delete (Z.to_nat 1) ["cat"; "dog"; "bird"]) !! 2 = Some j
       ∧ delete (Z.to_nat 1) ["cat"; "dog"; "bird"] !! Z.to_nat j
         = ["cat"; "dog"; "bird"] !! Z.to_nat 2.
Proof.
  apply (remap_preserves_names ["cat"; "dog"; "bird"] 1 2); simpl; lia.
Defined.

(** C3. data.yaml after the removal of a selected name that is in the
    list: 'names' is the old list without the first occurrence of the
    name, 'nc' is the length of the new list, one less than the old
    length; the other keys are as they were.  The document is saved before
    the label files are touched, so this holds for every run that found
    the name. *)
Theorem yaml_update (yaml_path selected_class : string) (ds : dataset)
    (old_names : list string) :
  yaml_path ≠ "" →
  selected_class ≠ "" →
  names (yaml ds) = Some old_names →
  selected_class ∈ old_names →
  ∃ before after,
    old_names = (before ++ selected_class :: after)%list
    ∧ (selected_class ∉ before)
    ∧ let data' := yaml (process_dataset yaml_path selected_class ds).1 in
      names data' = Some (before ++ after)%list
      ∧ nc data' = Some (Z.of_nat (length (before ++ after)%list))
      ∧ Z.of_nat (length (before ++ after)%list) = Z.of_nat (length old_names) - 1
      ∧ other_keys data' = other_keys (yaml ds).
Proof.
  intros Hpath Hsel Hnames Hin. unfold process_dataset.
  rewrite !bool_decide_eq_false_2 by done. rewrite Hnames. simpl.
  unfold get_class_index.
  destruct (index selected_class old_names) as [k|] eqn:Hk.
  - rewrite bool_decide_eq_false_2 by lia. rewrite Nat2Z.id.
    destruct_update_splits dirs e. simpl.
    destruct (index_Some _ _ _ Hk) as (Hsplit & Hnot & Hlt).
    exists (take k old_names), (drop (S k) old_names).
    rewrite <- delete_take_drop. split; [done|]. split; [done|].
    split; [done|]. split; [done|]. split; [|done].
    rewrite length_delete by (by apply lookup_lt_is_Some). lia.
  - by apply index_None in Hk.
Qed.

Lemma yaml_update_witness :
  ∃ before after,
    ["cat"; "dog"; "bird"; "dog"] = (before ++ "dog" :: after)%list
    ∧ ("dog" ∉ before)
    ∧ let data' :=
        yaml (process_dataset "data.yaml" "dog"
                {| yaml := {| names := Some ["cat"; "dog"; "bird"; "dog"];
                              nc := Some 4; other_keys := ∅ |};
                   labels := ∅ |}).1 in
      names data' = Some (before ++ after)%list
      ∧ nc data' = Some (Z.of_nat (length (before ++ after)%list))
      ∧ Z.of_nat (length (before ++ after)%list)
        = Z.of_nat (length ["cat"; "dog"; "bird"; "dog"]) - 1
      ∧ other_keys data' = ∅.
Proof.
  apply (yaml_update "data.yaml" "dog"
           {| yaml := {| names := Some ["cat"; "dog"; "bird"; "dog"];
                         nc := Some 4; other_keys := ∅ |};
              labels := ∅ |} ["cat"; "dog"; "bird"; "dog"]).
  - discriminate.
  - discriminate.
  - reflexivity.
  - apply (bool_decide_unpack _). vm_compute. reflexivity.
Defined.

(** C7. Totality of the label rewrite: when every line of every .txt file
    has a leading token that parses as an integer in [0, old class count - 1],
    [update_labels] raises on no file, and a run of [process_dataset] over
    such directories ends with the success box.  Outside the precondition
    it can raise: a file with an empty line makes [parts[0]] raise
    IndexError, a leading index equal to the old class count makes the
    [class_map] lookup raise KeyError. *)
Theorem update_labels_total_on_wf :
  (∀ dir r classes,
     wf_dir (Z.of_nat (length classes) + 1) dir →
     ∃ dir', update_labels dir r (make_class_map r classes) = (dir', None))
  ∧ (∀ yaml_path selected_class ds old_names,
       yaml_path ≠ "" → selected_class ≠ "" →
       names (yaml ds) = Some old_names → selected_class ∈ old_names →
       (∀ split dir, split ∈ all_splits → labels ds !! split = Some dir →
                     wf_dir (Z.of_nat (length old_names)) dir) →
       ∃ msg, (process_dataset yaml_path selected_class ds).2 = ShowInfo msg)
  ∧ update_labels blank_line_dir 1 (make_class_map 1 ["cat"; "bird"])
    = (blank_line_dir, Some IndexError)
  ∧ update_labels out_of_range_dir 1 (make_class_map 1 ["cat"; "bird"])
    = (out_of_range_dir, Some KeyError).
Proof.
  split; [|split; [|split]].
  - intros dir r classes Hwf.
    pose proof (update_labels_total r classes dir Hwf) as H.
    destruct (update_labels dir r _) as [dir' e]. simpl in H. subst e.
    by exists dir'.
  - intros yaml_path sel ds old_names Hpath Hsel Hnames Hin Hwf.
    unfold process_dataset.
    rewrite !bool_decide_eq_false_2 by done. rewrite Hnames. simpl.
    unfold get_class_index.
    destruct (index sel old_names) as [k|] eqn:Hk;
      [|by apply index_None in Hk].
    rewrite bool_decide_eq_false_2 by lia. rewrite Nat2Z.id.
    destruct (index_Some _ _ _ Hk) as (_ & _ & Hlt).
    pose proof (update_splits_total (Z.of_nat k) (delete k old_names)
                  all_splits (labels ds) all_splits_NoDup) as Htot.
    destruct_update_splits dirs e. simpl in *.
    rewrite Htot; [by eexists|].
    intros sp d Hsp Hd.
    rewrite length_delete by (by apply lookup_lt_is_Some).
    replace (Z.of_nat (length old_names - 1) + 1) with (Z.of_nat (length old_names))
      by lia.
    by eapply Hwf.
  - by vm_compute.
  - by vm_compute.
Qed.

Lemma update_labels_total_on_wf_witness :
  ∃ dir',
    update_labels [("a.txt", "0 0.5 0.5 0.2 0.2" +:+ nl +:+ "2 0.1 0.1 0.3 0.3" +:+ nl)]
      1 (make_class_map 1 ["cat"; "bird"]) = (dir', None).
Proof.
  apply (proj1 update_labels_total_on_wf
           [("a.txt", "0 0.5 0.5 0.2 0.2" +:+ nl +:+ "2 0.1 0.1 0.3 0.3" +:+ nl)]
           1 ["cat"; "bird"]).
  constructor; [|constructor]. intros _.
  assert (readlines ("0 0.5 0.5 0.2 0.2" +:+ nl +:+ "2 0.1 0.1 0.3 0.3" +:+ nl)
          = ["0 0.5 0.5 0.2 0.2" +:+ nl; "2 0.1 0.1 0.3 0.3" +:+ nl]) as Hlines
    by (vm_compute; reflexivity).
  simpl. rewrite Hlines. constructor; [|constructor; [|constructor]].
  - exists 0. split; [vm_compute; reflexivity | lia].
  - exists 2. split; [vm_compute; reflexivity | lia].
Defined.

End ClassRemoverSpec.

(** ** Facts about binary64 arithmetic *)
Module FloatLemmas.
Import Py.

(** *** The number of binary digits *)
Lemma digits2_pos_bounds (p : positive) :
  2 ^ (Zpos (digits2_pos p) - 1) <= Zpos p < 2 ^ Zpos (digits2_pos p).
Proof.
  induction p as [p IH|p IH|]; simpl digits2_pos.
  - rewrite Pos2Z.inj_succ. replace (Z.succ (Zpos (digits2_pos p)) - 1)
      with (Z.succ (Zpos (digits2_pos p) - 1)) by lia.
    rewrite !Z.pow_succ_r by lia. lia.
  - rewrite Pos2Z.inj_succ. replace (Z.succ (Zpos (digits2_pos p)) - 1)
      with (Z.succ (Zpos (digits2_pos p) - 1)) by lia.
    rewrite !Z.pow_succ_r by lia. lia.
  - simpl. lia.
Qed.

Lemma Zdigits2_bounds m : 0 < m -> 2 ^ (Zdigits2 m - 1) <= m < 2 ^ Zdigits2 m.
Proof. destruct m; try lia. intros _. apply digits2_pos_bounds. Qed.

Lemma Zdigits2_unique m k : 0 < m -> 2 ^ (k - 1) <= m < 2 ^ k -> Zdigits2 m = k.
Proof.
  intros Hm [Hlo Hhi]. pose proof (Zdigits2_bounds m Hm) as [Dlo Dhi].
  assert (0 < Zdigits2 m) by (destruct m; simpl; lia).
  assert (0 < k).
  { destruct (Z_lt_le_dec 0 k); [done|].
    destruct (Z.eq_dec k 0) as [->|]; [simpl in *; lia|].
    rewrite Z.pow_neg_r in Hhi by lia. lia. }
  destruct (Z_lt_le_dec (Zdigits2 m) k) as [Hlt|Hge].
  - assert (2 ^ Zdigits2 m <= 2 ^ (k - 1)) by (apply Z.pow_le_mono_r; lia). lia.
  - destruct (Z_lt_le_dec k (Zdigits2 m)) as [Hlt|Hge']; [|lia].
    assert (2 ^ k <= 2 ^ (Zdigits2 m - 1)) by (apply Z.pow_le_mono_r; lia). lia.
Qed.

(** Shifting right by [p] bits divides the mantissa by [2 ^ p]. *)
Lemma shr_1_m mrs : 0 <= shr_m mrs -> shr_m (shr_1 mrs) = shr_m mrs / 2.
Proof.
  destruct mrs as [m r s]. intros Hm. cbn [shr_m] in Hm.
  destruct m as [|[q|q|]|]; cbn [shr_1 shr_m]; try lia.
  - reflexivity.
  - rewrite Pos2Z.inj_xI. apply Z.div_unique with 1; lia.
  - rewrite Pos2Z.inj_xO. apply Z.div_unique with 0; lia.
  - reflexivity.
Qed.

Lemma iter_shr_m p : forall mrs, 0 <= shr_m mrs ->
  shr_m (SpecFloat.iter_pos shr_1 p mrs) = shr_m mrs / 2 ^ Zpos p.
Proof.
  pose proof shr_1_m as H1.
  induction p as [p IH|p IH|]; intros mrs Hm; simpl SpecFloat.iter_pos.
  - assert (0 <= shr_m (shr_1 mrs)) by (rewrite H1 by done; apply Z.div_pos; lia).
    assert (0 <= shr_m (SpecFloat.iter_pos shr_1 p (shr_1 mrs))).
    { rewrite IH by done. apply Z.div_pos; lia. }
    rewrite IH, IH, H1 by done. rewrite !Z.div_div by lia.
    f_equal. rewrite Pos2Z.inj_xI. rewrite <- Z.pow_add_r by lia.
    replace (2 * 2 ^ (Zpos p + Zpos p)) with (2 ^ Z.succ (Zpos p + Zpos p)) by (rewrite Z.pow_succ_r; lia).
    f_equal. lia.
  - assert (0 <= shr_m (SpecFloat.iter_pos shr_1 p mrs)).
    { rewrite IH by done. apply Z.div_pos; lia. }
    rewrite IH, IH by done. rewrite !Z.div_div by lia.
    f_equal. rewrite Pos2Z.inj_xO. rewrite <- Z.pow_add_r by lia. f_equal. lia.
  - rewrite H1 by done. reflexivity.
Qed.

Lemma shr_1_exact mrs :
  0 <= shr_m mrs -> shr_r mrs = false -> shr_s mrs = false ->
  shr_m mrs mod 2 = 0 ->
  shr_r (shr_1 mrs) = false /\ shr_s (shr_1 mrs) = false.
Proof.
  destruct mrs as [m r s]. cbn [shr_m shr_r shr_s]. intros Hm -> -> Hmod.
  destruct m as [|[q|q|]|]; cbn; try done.
  - rewrite Pos2Z.inj_xI in Hmod. 
    rewrite Z.add_comm, Z.mul_comm, Z.mod_add in Hmod by lia. done.
Qed.

Lemma iter_shr_exact p : forall mrs,
  0 <= shr_m mrs -> shr_r mrs = false -> shr_s mrs = false ->
  shr_m mrs mod 2 ^ Zpos p = 0 ->
  shr_r (SpecFloat.iter_pos shr_1 p mrs) = false
  /\ shr_s (SpecFloat.iter_pos shr_1 p mrs) = false.
Proof.
  assert (Hdiv : forall a k j, 0 <= k -> 0 <= j -> a mod 2 ^ (k + j) = 0 ->
            a mod 2 ^ k = 0 /\ (a / 2 ^ k) mod 2 ^ j = 0).
  { intros a k j Hk Hj Ha. apply Z.mod_divide in Ha; [|lia].
    destruct Ha as [c ->]. rewrite Z.pow_add_r by lia.
    replace (c * (2 ^ k * 2 ^ j)) with ((c * 2 ^ j) * 2 ^ k) by lia.
    rewrite Z.mod_mul by lia. rewrite Z.div_mul by lia.
    rewrite Z.mod_mul by lia. done. }
  induction p as [p IH|p IH|]; intros mrs Hm Hr Hs Hmod; simpl SpecFloat.iter_pos.
  - replace (Zpos p~1) with (1 + (Zpos p + Zpos p)) in Hmod by lia.
    apply Hdiv in Hmod as [H1 H2]; [|lia..].
    apply Hdiv in H2 as [H2 H3]; [|lia..].
    change (2 ^ 1) with 2 in *.
    destruct (shr_1_exact mrs Hm Hr Hs H1) as [Hr1 Hs1].
    pose proof (shr_1_m mrs Hm) as E1.
    assert (0 <= shr_m (shr_1 mrs)) by (rewrite E1; apply Z.div_pos; lia).
    destruct (IH (shr_1 mrs)) as [Hr2 Hs2]; [done..|by rewrite E1|].
    apply IH; [|done..|].
    + rewrite iter_shr_m by done. apply Z.div_pos; lia.
    + rewrite iter_shr_m by done. by rewrite E1.
  - replace (Zpos p~0) with (Zpos p + Zpos p) in Hmod by lia.
    apply Hdiv in Hmod as [H1 H2]; [|lia..].
    destruct (IH mrs) as [Hr2 Hs2]; [done..|].
    apply IH; [|done..|].
    + rewrite iter_shr_m by done. apply Z.div_pos; lia.
    + rewrite iter_shr_m by done. done.
  - by apply shr_1_exact.
Qed.

Lemma round_nearest_even_bounds m l :
  m <= round_nearest_even m l <= m + 1.
Proof. destruct l as [|[]]; simpl; try lia. destruct (Z.even m); lia. Qed.

Lemma bra_normal (mx ex : Z) (l : location) :
  let n := Zdigits2 mx - 53 in
  0 < mx -> 0 <= n -> -1074 <= ex + n -> ex + n + 1 <= 971 ->
  exists m3 e3 m2,
    binary_round_aux 53 1024 false mx ex l = S754_finite false m3 e3
    /\ 2 ^ 52 <= Zpos m3 < 2 ^ 53
    /\ ex + n <= e3 <= ex + n + 1
    /\ Zpos m3 * 2 ^ (e3 - (ex + n)) = m2
    /\ mx / 2 ^ n <= m2 <= mx / 2 ^ n + 1
    /\ (l = loc_Exact -> mx mod 2 ^ n = 0 -> m2 = mx / 2 ^ n).
Proof.
  intros n Hmx Hn Hlo Hhi.
  pose proof (Zdigits2_bounds mx Hmx) as [Dlo Dhi].
  replace (Zdigits2 mx) with (n + 53) in Dlo, Dhi by (unfold n; lia).
  replace (n + 53 - 1) with (n + 52) in Dlo by lia.
  rewrite Z.pow_add_r in Dlo, Dhi by lia.
  assert (Hm1 : 2 ^ 52 <= mx / 2 ^ n < 2 ^ 53).
  { split.
    - apply Z.div_le_lower_bound; lia.
    - apply Z.div_lt_upper_bound; lia. }
  unfold binary_round_aux.
  (* first shift *)
  assert (exists mrs',
    shr_fexp 53 1024 mx ex l = (mrs', ex + n)
    /\ shr_m mrs' = mx / 2 ^ n
    /\ (l = loc_Exact -> mx mod 2 ^ n = 0 -> loc_of_shr_record mrs' = loc_Exact))
    as (mrs' & -> & Hm' & Hex).
  { unfold shr_fexp, fexp, emin.
    replace (Z.max (Zdigits2 mx + ex - 53) (3 - 1024 - 53) - ex) with n
      by (unfold n; lia).
    assert (0 <= shr_m (shr_record_of_loc mx l)) by (destruct l as [|[]]; simpl; lia).
    assert (shr_m (shr_record_of_loc mx l) = mx) as Em by (destruct l as [|[]]; done).
    destruct n as [|p|p] eqn:En; [| |lia].
    - exists (shr_record_of_loc mx l). cbn [shr]. rewrite Z.add_0_r.
      split; [done|]. split; [by rewrite Em, Z.div_1_r|].
      intros -> _. done.
    - eexists. cbn [shr]. split; [done|].
      split; [rewrite iter_shr_m by done; by rewrite Em|].
      intros -> Hmod.
      destruct (iter_shr_exact p (shr_record_of_loc mx loc_Exact)) as [Hr Hs];
        [done..|].
      destruct (SpecFloat.iter_pos _ _ _) as [m' r' s']. cbn in Hr, Hs.
      by subst. }
  set (m2 := round_nearest_even (shr_m mrs') (loc_of_shr_record mrs')).
  pose proof (round_nearest_even_bounds (shr_m mrs') (loc_of_shr_record mrs')) as Hm2.
  fold m2 in Hm2. rewrite Hm' in Hm2.
  assert (Hexact : l = loc_Exact -> mx mod 2 ^ n = 0 -> m2 = mx / 2 ^ n).
  { intros Hl Hmod. unfold m2. rewrite (Hex Hl Hmod). simpl. done. }
  destruct (Z_lt_le_dec m2 (2 ^ 53)) as [Hlt|Hge].
  - assert (Zdigits2 m2 = 53) as Hd by (apply Zdigits2_unique; lia).
    unfold shr_fexp, fexp, emin. rewrite Hd.
    replace (Z.max (53 + (ex + n) - 53) (3 - 1024 - 53) - (ex + n)) with 0 by lia.
    cbn [shr shr_record_of_loc shr_m].
    destruct m2 as [|m3|] eqn:E3; [lia| |lia].
    rewrite (proj2 (Z.leb_le _ _)) by lia.
    exists m3, (ex + n), (Zpos m3). 
    replace (ex + n - (ex + n)) with 0 by lia. rewrite Z.mul_1_r.
    repeat split; try lia. done.
  - assert (m2 = 2 ^ 53) as E2 by lia.
    rewrite E2. unfold shr_fexp, fexp, emin.
    change (Zdigits2 (2 ^ 53)) with 54.
    replace (Z.max (54 + (ex + n) - 53) (3 - 1024 - 53) - (ex + n)) with 1 by lia.
    cbn. rewrite (proj2 (Z.leb_le _ _)) by lia.
    exists (4503599627370496)%positive, (ex + n + 1), (2 ^ 53).
    replace (ex + n + 1 - (ex + n)) with 1 by lia.
    repeat split; try lia; try done.
    intros Hl Hmod. rewrite <- E2. by apply Hexact.
Qed.

Lemma pos_iter_xO (m k : positive) :
  Zpos (Pos.iter xO m k) = Zpos m * 2 ^ Zpos k.
Proof.
  induction k as [|k IH] using Pos.peano_ind.
  - simpl. lia.
  - rewrite Pos.iter_succ, Pos2Z.inj_xO, IH, Pos2Z.inj_succ, Z.pow_succ_r by lia. lia.
Qed.

Lemma float_of_Z_small (z : Z) :
  0 < z < 2 ^ 53 ->
  exists m, float_of_Z z = S754_finite false m (Zdigits2 z - 53)
            /\ Zpos m = z * 2 ^ (53 - Zdigits2 z)
            /\ 2 ^ 52 <= Zpos m < 2 ^ 53.
Proof.
  intros [Hz Hhi]. pose proof (Zdigits2_bounds z Hz) as [Dlo Dhi].
  assert (0 < Zdigits2 z <= 53) as Hd.
  { split; [destruct z; simpl; lia|].
    destruct (Z_lt_le_dec 53 (Zdigits2 z)); [|lia].
    assert (2 ^ 53 <= 2 ^ (Zdigits2 z - 1)) by (apply Z.pow_le_mono_r; lia). lia. }
  destruct z as [|p|p]; try lia.
  unfold float_of_Z, binary_normalize, binary_round.
  set (d := Zdigits2 (Zpos p)) in *.
  assert (exists mz, shl_align p 0 (fexp 53 1024 (Zpos (digits2_pos p) + 0)) = (mz, d - 53)
                     /\ Zpos mz = Zpos p * 2 ^ (53 - d)) as (mz & -> & Hmz).
  { unfold shl_align, fexp, emin. change (Zpos (digits2_pos p)) with d.
    replace (Z.max (d + 0 - 53) (3 - 1024 - 53) - 0) with (d - 53) by lia.
    replace (Z.max (d + 0 - 53) (3 - 1024 - 53)) with (d - 53) by lia.
    destruct (d - 53) as [|q|q] eqn:E; [|lia|].
    - exists p. replace d with 53 by lia. split; [done|]. simpl. lia.
    - exists (Pos.iter xO p q). split; [done|]. rewrite pos_iter_xO.
      f_equal. f_equal. lia. }
  assert (2 ^ 52 <= Zpos mz < 2 ^ 53) as Hrange.
  { rewrite Hmz.
    assert (2 ^ 52 = 2 ^ (d - 1) * 2 ^ (53 - d)) as ->
      by (rewrite <- Z.pow_add_r by lia; f_equal; lia).
    assert (2 ^ 53 = 2 ^ d * 2 ^ (53 - d)) as ->
      by (rewrite <- Z.pow_add_r by lia; f_equal; lia).
    assert (0 < 2 ^ (53 - d)) by (apply Z.pow_pos_nonneg; lia).
    split; [apply Z.mul_le_mono_nonneg_r | apply Z.mul_lt_mono_pos_r]; lia. }
  assert (Zdigits2 (Zpos mz) = 53) as Hdz by (apply Zdigits2_unique; lia).
  destruct (bra_normal (Zpos mz) (d - 53) loc_Exact) as
    (m3 & e3 & m2 & -> & Hm3 & He3 & Hval & Hm2 & Hexact); rewrite ?Hdz; try lia.
  rewrite Hdz in *. change (2 ^ (53 - 53)) with 1 in *.
  rewrite Z.div_1_r in *. rewrite Hexact in Hval by (done || apply Z.mod_1_r).
  assert (e3 = d - 53) as ->.
  { destruct (Z.eq_dec e3 (d - 53)); [done|].
    replace (e3 - (d - 53 + (53 - 53))) with 1 in Hval by lia. 
    change (2 ^ 1) with 2 in Hval. lia. }
  replace (d - 53 - (d - 53 + (53 - 53))) with 0 in Hval by lia.
  rewrite Z.mul_1_r in Hval. exists m3. rewrite Hval. done.
Qed.

Lemma pow2_pos e : (0 < pow2 e)%Q.
Proof. apply Qpower_0_lt. reflexivity. Qed.

Lemma pow2_add a b : (pow2 (a + b) == pow2 a * pow2 b)%Q.
Proof. apply Qpower_plus. discriminate. Qed.

Lemma pow2_Z k : 0 <= k -> (inject_Z (2 ^ k) == pow2 k)%Q.
Proof. intros. unfold pow2. by rewrite Zpower_Qpower. Qed.

Lemma bra_upper (mx ex : Z) (l : location) :
  let n := Zdigits2 mx - 53 in
  0 < mx -> 0 <= n -> -1074 <= ex + n -> ex + n + 1 <= 971 ->
  exists m e,
    binary_round_aux 53 1024 false mx ex l = S754_finite false m e
    /\ 2 ^ 52 <= Zpos m < 2 ^ 53
    /\ ex + n <= e <= ex + n + 1
    /\ (inject_Z (Zpos m) * pow2 e * (1 - pow2 (-52)) <= inject_Z mx * pow2 ex)%Q.
Proof.
  intros n Hmx Hn Hlo Hhi.
  destruct (bra_normal mx ex l Hmx Hn Hlo Hhi)
    as (m3 & e3 & m2 & -> & Hm3 & He3 & Hval & Hm2 & _).
  fold n in He3, Hval, Hm2.
  exists m3, e3. split; [done|]. split; [done|]. split; [done|].
  pose proof (Zdigits2_bounds mx Hmx) as [Dlo _].
  replace (Zdigits2 mx - 1) with (n + 52) in Dlo by (unfold n; lia).
  rewrite Z.pow_add_r in Dlo by lia.
  assert (0 < 2 ^ n) as Hpn by (apply Z.pow_pos_nonneg; lia).
  assert (2 ^ 52 <= mx / 2 ^ n) as Hm1 by (apply Z.div_le_lower_bound; lia).
  assert ((m2 - 1) * 2 ^ n <= mx) as Hz.
  { pose proof (Z.mul_div_le mx (2 ^ n) Hpn). nia. }
  (* to Q *)
  assert (inject_Z (Zpos m3) * pow2 e3 == inject_Z m2 * pow2 (ex + n))%Q as ->.
  { rewrite <- Hval. rewrite inject_Z_mult, pow2_Z by lia.
    replace e3 with ((e3 - (ex + n)) + (ex + n)) at 1 by lia.
    rewrite pow2_add. ring. }
  rewrite Zle_Qle in Hz. rewrite inject_Z_mult, pow2_Z in Hz by lia.
  assert (inject_Z (m2 - 1) == inject_Z m2 - 1)%Q as Hsub
    by (unfold Z.sub; rewrite inject_Z_plus; reflexivity).
  rewrite Hsub in Hz. clear Hsub.
  assert (inject_Z (2 ^ 52) <= inject_Z m2)%Q as Hm2q by (rewrite <- Zle_Qle; lia).
  rewrite pow2_Z in Hm2q by lia.
  rewrite (Z.add_comm ex n), pow2_add.
  assert (pow2 52 * pow2 (-52) == 1)%Q as Hinv by (rewrite <- pow2_add; reflexivity).
  pose proof (pow2_pos ex). pose proof (pow2_pos n). pose proof (pow2_pos (-52)).
  set (a := inject_Z m2) in *. set (b := inject_Z mx) in *.
  set (pn := pow2 n) in *. set (pe := pow2 ex) in *.
  set (u := pow2 (-52)) in *. set (v := pow2 52) in *.
  assert (1 <= a * u)%Q. { rewrite <- Hinv. nra. }
  assert ((a - 1) * pn * pe <= b * pe)%Q by nra.
  assert (0 <= (a * u - 1) * (pn * pe))%Q.
  { apply Qmult_le_0_compat; [lra|]. apply Qlt_le_weak. 
    rewrite <- (Qmult_0_l pe). apply Qmult_lt_compat_r; lra. }
  lra.
Qed.

Lemma pow2_opp e : (pow2 e * pow2 (- e) == 1)%Q.
Proof. rewrite <- pow2_add. by replace (e + - e) with 0 by lia. Qed.

Lemma int_of_float_pos m e :
  exists k, int_of_float (S754_finite false m e) = Ok k /\ 0 <= k
            /\ (inject_Z k <= F2Q (S754_finite false m e))%Q.
Proof.
  eexists. split; [reflexivity|]. cbn [cond_Zopp F2Q].
  destruct (Z_lt_le_dec e 0) as [Hneg|Hpos].
  - rewrite Z.shiftl_div_pow2 by lia.
    assert (0 < 2 ^ (- e)) as Hp by (apply Z.pow_pos_nonneg; lia).
    split; [apply Z.div_pos; lia|].
    pose proof (Z.mul_div_le (Zpos m) (2 ^ (- e)) Hp) as Hle.
    rewrite Zle_Qle, inject_Z_mult, pow2_Z in Hle by lia.
    pose proof (pow2_opp e) as Hinv. pose proof (pow2_pos e).
    pose proof (pow2_pos (- e)).
    set (k := inject_Z (Zpos m / 2 ^ (- e))) in *.
    set (a := inject_Z (Zpos m)) in *.
    assert (k * (pow2 e * pow2 (- e)) <= a * pow2 e)%Q.
    { assert (k * (pow2 e * pow2 (- e)) == (pow2 (- e) * k) * pow2 e)%Q as ->
        by ring.
      apply Qmult_le_compat_r; lra. }
    rewrite Hinv in *. lra.
  - rewrite Z.shiftl_mul_pow2 by lia.
    split; [apply Z.mul_nonneg_nonneg; [lia | apply Z.pow_nonneg; lia]|].
    rewrite inject_Z_mult, pow2_Z by lia. apply Qle_refl.
Qed.

Lemma SFmul_upper x y lo hi lo' hi' :
  normal_pos x lo hi -> normal_pos y lo' hi' ->
  -1126 <= lo + lo' -> hi + hi' <= 917 ->
  exists m e, float_mul x y = S754_finite false m e
    /\ 2 ^ 52 <= Zpos m < 2 ^ 53
    /\ lo + lo' + 52 <= e <= hi + hi' + 54
    /\ (F2Q (float_mul x y) * (1 - pow2 (-52)) <= F2Q x * F2Q y)%Q.
Proof.
  intros (mx & ex & -> & Hmx & Hex) (my & ey & -> & Hmy & Hey) Hlo Hhi.
  unfold float_mul. cbn [SFmul xorb].
  assert (2 ^ 104 <= Zpos (mx * my) < 2 ^ 106) as HP.
  { rewrite Pos2Z.inj_mul. change (2 ^ 104) with (2 ^ 52 * 2 ^ 52).
    change (2 ^ 106) with (2 ^ 53 * 2 ^ 53). nia. }
  assert (Zdigits2 (Zpos (mx * my)) = 105 \/ Zdigits2 (Zpos (mx * my)) = 106) as Hd.
  { destruct (Z_lt_le_dec (Zpos (mx * my)) (2 ^ 105)).
    - left. apply Zdigits2_unique; [lia|]. change (105 - 1) with 104. lia.
    - right. apply Zdigits2_unique; [lia|]. change (106 - 1) with 105. lia. }
  destruct (bra_upper (Zpos (mx * my)) (ex + ey) loc_Exact)
    as (m & e & Heq & Hm & He & Hq); try lia.
  exists m, e. split; [done|]. split; [done|]. split; [lia|].
  rewrite Heq. cbn [F2Q cond_Zopp].
  rewrite Pos2Z.inj_mul, inject_Z_mult, pow2_add in Hq.
  lra.
Qed.

Lemma int_truediv_upper a b :
  0 < a < 2 ^ 53 -> 0 < b < 2 ^ 53 ->
  exists q, int_truediv a b = Ok q /\ normal_pos q (-105) 1
    /\ (F2Q q * (1 - pow2 (-52)) * inject_Z b <= inject_Z a)%Q.
Proof.
  intros Ha Hb.
  pose proof (Zdigits2_bounds a (proj1 Ha)) as [Alo Ahi].
  pose proof (Zdigits2_bounds b (proj1 Hb)) as [Blo Bhi].
  set (da := Zdigits2 a) in *. set (db := Zdigits2 b) in *.
  assert (0 < da <= 53) as Hda.
  { split; [unfold da; destruct a; simpl; lia|].
    destruct (Z_lt_le_dec 53 da); [|lia].
    assert (2 ^ 53 <= 2 ^ (da - 1)) by (apply Z.pow_le_mono_r; lia). lia. }
  assert (0 < db <= 53) as Hdb.
  { split; [unfold db; destruct b; simpl; lia|].
    destruct (Z_lt_le_dec 53 db); [|lia].
    assert (2 ^ 53 <= 2 ^ (db - 1)) by (apply Z.pow_le_mono_r; lia). lia. }
  set (s := 53 + db - da).
  set (qq := (a * 2 ^ s) / b).
  assert (SFdiv_core_binary 53 1024 (Z.abs a) 0 (Z.abs b) 0
          = (qq, - s, new_location b ((a * 2 ^ s) mod b))) as Hcore.
  { unfold SFdiv_core_binary, fexp, emin. rewrite !Z.abs_eq by lia.
    fold da db.
    replace (Z.min (Z.max (da + 0 - (db + 0) - 53) (3 - 1024 - 53)) (0 - 0))
      with (- s) by (unfold s; lia).
    replace (0 - 0 - - s) with s by lia.
    assert (match s with Z.pos _ => Z.shiftl a s | 0 => a | Z.neg _ => 0 end
            = a * 2 ^ s) as ->.
    { destruct s eqn:E; try lia. rewrite Z.shiftl_mul_pow2 by lia. done. }
    unfold qq. unfold Z.div, Z.modulo.
    by destruct (Z.div_eucl (a * 2 ^ s) b). }
  destruct a as [|pa|pa]; try lia. destruct b as [|pb|pb]; try lia.
  unfold int_truediv. rewrite Hcore. cbn [Z.ltb Z.compare xorb].
  assert (0 < 2 ^ s) as Hps by (apply Z.pow_pos_nonneg; unfold s; lia).
  assert (2 ^ 52 <= qq < 2 ^ 54) as Hqq.
  { unfold qq. split.
    - apply Z.div_le_lower_bound; [lia|].
      assert (2 ^ 52 * 2 ^ db = 2 ^ (da - 1) * 2 ^ s) as E.
      { rewrite <- !Z.pow_add_r by (unfold s; lia). f_equal. unfold s. lia. }
      nia.
    - apply Z.div_lt_upper_bound; [lia|].
      assert (2 ^ 54 * 2 ^ (db - 1) = 2 ^ da * 2 ^ s) as E.
      { rewrite <- !Z.pow_add_r by (unfold s; lia). f_equal. unfold s. lia. }
      nia. }
  assert (Zdigits2 qq = 53 \/ Zdigits2 qq = 54) as Hd.
  { destruct (Z_lt_le_dec qq (2 ^ 53)).
    - left. apply Zdigits2_unique; [lia|]. change (53 - 1) with 52. lia.
    - right. apply Zdigits2_unique; [lia|]. change (54 - 1) with 53. lia. }
  destruct (bra_upper qq (- s) (new_location (Zpos pb) ((Zpos pa * 2 ^ s) mod Zpos pb)))
    as (m & e & Heq & Hm & He & Hq); try (unfold s; lia).
  rewrite Heq. eexists. split; [done|]. split.
  { exists m, e. split; [done|]. split; [done|]. unfold s in He. lia. }
  cbn [F2Q cond_Zopp].
  assert (qq * Zpos pb <= Zpos pa * 2 ^ s) as Hz.
  { unfold qq. pose proof (Z.mul_div_le (Zpos pa * 2 ^ s) (Zpos pb)). lia. }
  rewrite Zle_Qle, !inject_Z_mult, pow2_Z in Hz by (unfold s; lia).
  pose proof (pow2_opp s) as Hinv. pose proof (pow2_pos (- s)).
  pose proof (pow2_pos s).
  set (A := inject_Z (Zpos pa)) in *. set (B := inject_Z (Zpos pb)) in *.
  set (X := (inject_Z (Zpos m) * pow2 e)%Q) in *.
  set (QQ := inject_Z qq) in *.
  assert (0 < B)%Q by (unfold B; rewrite <- (Zlt_Qlt 0); lia).
  assert (X * (1 - pow2 (-52)) * B <= QQ * pow2 (- s) * B)%Q as Hstep1.
  { apply Qmult_le_compat_r; lra. }
  assert (QQ * B * pow2 (- s) <= A * pow2 s * pow2 (- s))%Q as Hstep2.
  { apply Qmult_le_compat_r; lra. }
  assert (A * pow2 s * pow2 (- s) == A * (pow2 s * pow2 (- s)))%Q as E by ring.
  rewrite E, Hinv in Hstep2. lra.
Qed.

Lemma float_of_int_small z :
  0 < z < 2 ^ 53 ->
  exists f, float_of_int z = Ok f /\ normal_pos f (-52) 0
            /\ (F2Q f == inject_Z z)%Q.
Proof.
  intros Hz. destruct (float_of_Z_small z Hz) as (m & Heq & Hm & Hrange).
  pose proof (Zdigits2_bounds z (proj1 Hz)) as [Dlo Dhi].
  assert (0 < Zdigits2 z <= 53) as Hd.
  { split; [destruct z; simpl; lia|].
    destruct (Z_lt_le_dec 53 (Zdigits2 z)); [|lia].
    assert (2 ^ 53 <= 2 ^ (Zdigits2 z - 1)) by (apply Z.pow_le_mono_r; lia). lia. }
  unfold float_of_int. rewrite Heq. eexists. split; [done|]. split.
  - exists m, (Zdigits2 z - 53). split; [done|]. split; [done | lia].
  - cbn [F2Q cond_Zopp]. rewrite Hm, inject_Z_mult, pow2_Z by lia.
    pose proof (pow2_opp (53 - Zdigits2 z)) as Hinv.
    replace (- (53 - Zdigits2 z)) with (Zdigits2 z - 53) in Hinv by lia.
    rewrite <- Qmult_assoc, Hinv. ring.
Qed.

Lemma u52 : pow2 (-52) = (1 # 4503599627370496)%Q.
Proof. reflexivity. Qed.

(** [int(i * interval)] stays below the length of the list. *)
Lemma scaled_index_bound (p q i M L : Q) :
  (p * (1 - pow2 (-52)) <= i * q)%Q ->
  (q * (1 - pow2 (-52)) * M <= L)%Q ->
  (0 <= i)%Q -> (i <= M - 1)%Q -> (M <= inject_Z (2 ^ 50))%Q ->
  (0 < L)%Q -> (0 <= q)%Q ->
  (p < L)%Q.
Proof.
  rewrite u52. change (inject_Z (2 ^ 50)) with (1125899906842624 # 1)%Q.
  intros Hp Hq Hi0 HiM HM HL Hq0.
  set (w := (1 - (1 # 4503599627370496))%Q) in *.
  assert (0 < w)%Q as Hw by (unfold w; lra).
  destruct (Qlt_le_dec p L) as [|Hge]; [done|]. exfalso.
  assert (0 <= M)%Q as HM0 by lra.
  assert (p * w * (w * M) <= i * q * (w * M))%Q as S1.
  { apply Qmult_le_compat_r; [done|]. apply Qmult_le_0_compat; lra. }
  assert (i * (q * w * M) <= i * L)%Q as S2.
  { rewrite !(Qmult_comm i). apply Qmult_le_compat_r; done. }
  assert (i * L <= (M - 1) * L)%Q as S3.
  { apply Qmult_le_compat_r; lra. }
  assert (L * (w * w * M) <= p * (w * w * M))%Q as S4.
  { apply Qmult_le_compat_r; [done|].
    apply Qmult_le_0_compat; [|done]. apply Qmult_le_0_compat; lra. }
  assert (L * (w * w * M) <= L * (M - 1))%Q as S5.
  { assert (p * w * (w * M) == p * (w * w * M))%Q as E1 by ring.
    assert (i * q * (w * M) == i * (q * w * M))%Q as E2 by ring.
    rewrite E1, E2 in S1. lra. }
  assert (w * w * M <= M - 1)%Q as S6.
  { apply Qmult_lt_0_le_reg_r with L; [done|].
    rewrite !(Qmult_comm _ L). done. }
  unfold w in S6. lra.
Qed.

Lemma int_of_float_mul_zero_l y m e :
  y = S754_finite false m e ->
  int_of_float (float_mul (S754_zero false) y) = Ok 0.
Proof. intros ->. reflexivity. Qed.

Lemma pow2_le_1 k : k <= 0 -> (pow2 k <= 1)%Q.
Proof.
  intros Hk. pose proof (pow2_opp k) as Hinv. pose proof (pow2_pos k).
  assert (inject_Z 1 <= inject_Z (2 ^ (- k)))%Q as Hge.
  { rewrite <- Zle_Qle. assert (0 < 2 ^ (- k)) by (apply Z.pow_pos_nonneg; lia). lia. }
  rewrite pow2_Z in Hge by lia. change (inject_Z 1) with 1%Q in Hge.
  assert (pow2 k * 1 <= pow2 k * pow2 (- k))%Q as Hmul.
  { rewrite !(Qmult_comm (pow2 k)). apply Qmult_le_compat_r; lra. }
  lra.
Qed.

Lemma unit_float_spec c :
  unit_float c = true ->
  c = S754_zero false \/ (normal_pos c (-1074) (-52) /\ (F2Q c <= 1)%Q).
Proof.
  destruct c as [[]|[]| |[] m e]; try done; [by left|]. intros H. right.
  unfold unit_float in H.
  apply andb_prop in H as [H Hval]. apply andb_prop in H as [H He].
  apply andb_prop in H as [Hlo Hhi].
  apply Z.leb_le in Hlo, He. apply Z.ltb_lt in Hhi.
  apply orb_prop in Hval as [Hs|Hone].
  - apply Z.leb_le in Hs. split.
    + exists m, e. split; [done|]. split; [done | lia].
    + cbn [F2Q cond_Zopp].
      assert (inject_Z (Zpos m) <= inject_Z (2 ^ 53))%Q as Hm
        by (rewrite <- Zle_Qle; lia).
      rewrite pow2_Z in Hm by lia.
      pose proof (pow2_le_1 (53 + e) ltac:(lia)) as Hp.
      rewrite pow2_add in Hp. pose proof (pow2_pos e).
      assert (inject_Z (Zpos m) * pow2 e <= pow2 53 * pow2 e)%Q
        by (apply Qmult_le_compat_r; lra).
      lra.
  - apply andb_prop in Hone as [He2 Hm2].
    apply Z.eqb_eq in He2, Hm2. subst e. split.
    + exists m, (-52). split; [done|]. split; [done | lia].
    + cbn [F2Q cond_Zopp]. rewrite Hm2. apply Qle_lteq. right. reflexivity.
Qed.

(** [int(c * n)] for a float [c] in [0, 1] and a count [n]. *)
Lemma mul_unit_int c n :
  unit_float c = true -> 0 <= n <= 2 ^ 50 ->
  exists k, (x ← float_mul_int c n; int_of_float x) = Ok k /\ 0 <= k <= n.
Proof.
  intros Hc Hn. unfold float_mul_int.
  destruct (Z.eq_dec n 0) as [->|Hn0].
  { exists 0. split; [|lia].
    destruct c as [[]|[]| |[] m e]; done. }
  destruct (float_of_int_small n) as (fn & -> & Hfn & Hvn); [lia|].
  cbn [mbind result_bind].
  destruct (unit_float_spec c Hc) as [->|[Hnorm Hle]].
  { exists 0. split; [|lia]. by destruct Hfn as (m & e & -> & _). }
  destruct (SFmul_upper c fn _ _ _ _ Hnorm Hfn) as (m & e & Heq & _ & _ & Hq);
    [lia..|].
  rewrite Heq in *.
  destruct (int_of_float_pos m e) as (k & -> & Hk0 & Hk).
  exists k. split; [done|]. split; [done|].
  assert (inject_Z n <= inject_Z (2 ^ 50))%Q as HnQ by (rewrite <- Zle_Qle; lia).
  change (inject_Z (2 ^ 50)) with (1125899906842624 # 1)%Q in HnQ.
  assert (0 <= inject_Z n)%Q as Hn0Q by (rewrite <- (Zle_Qle 0); lia).
  rewrite Hvn in Hq. rewrite u52 in Hq.
  assert (F2Q c * inject_Z n <= 1 * inject_Z n)%Q
    by (apply Qmult_le_compat_r; done).
  assert (inject_Z k < inject_Z (n + 1))%Q as Hlt.
  { rewrite inject_Z_plus. change (inject_Z 1) with 1%Q. lra. }
  rewrite <- Zlt_Qlt in Hlt. lia.
Qed.

(** [int(i * interval)] with [interval = L / M] is an index of a list of
    length [L] for every [i] in [range(M)]. *)
Lemma scaled_index_in_bounds L M i :
  1 <= M -> M < L -> L <= 2 ^ 50 -> 0 <= i < M ->
  exists interval idx,
    int_truediv L M = Ok interval
    /\ (x ← int_mul_float i interval; int_of_float x) = Ok idx
    /\ 0 <= idx < L.
Proof.
  intros HM HML HL Hi.
  assert (2 ^ 50 < 2 ^ 53) as Hpow by done.
  destruct (int_truediv_upper L M) as (q & Hdiv & Hq & Hqb); [lia..|].
  exists q. unfold int_mul_float.
  destruct (Z.eq_dec i 0) as [->|Hi0].
  { exists 0. split; [done|]. split; [|lia].
    by destruct Hq as (m & e & -> & _). }
  destruct (float_of_int_small i) as (fi & -> & Hfi & Hvi); [lia|].
  cbn [mbind result_bind].
  destruct (SFmul_upper fi q _ _ _ _ Hfi Hq) as (m & e & Heq & _ & _ & Hp);
    [lia..|].
  rewrite Heq in *.
  destruct (int_of_float_pos m e) as (k & -> & Hk0 & Hk).
  exists k. split; [done|]. split; [done|]. split; [done|].
  rewrite Hvi in Hp.
  assert (F2Q (S754_finite false m e) < inject_Z L)%Q as Hlt.
  { apply (scaled_index_bound _ (F2Q q) (inject_Z i) (inject_Z M)); try done.
    - rewrite <- (Zle_Qle 0). lia.
    - assert (inject_Z M - 1 == inject_Z (M - 1))%Q as ->
        by (unfold Z.sub; rewrite inject_Z_plus; reflexivity).
      rewrite <- Zle_Qle. lia.
    - rewrite <- Zle_Qle. lia.
    - rewrite <- (Zlt_Qlt 0). lia.
    - destruct Hq as (mq & eq & -> & _). cbn [F2Q cond_Zopp].
      apply Qmult_le_0_compat; [|apply Qlt_le_weak, pow2_pos].
      rewrite <- (Zle_Qle 0). lia. }
  assert (inject_Z k < inject_Z L)%Q as Hlt' by lra.
  rewrite <- Zlt_Qlt in Hlt'. done.
Qed.

End FloatLemmas.

(** ** AZ_ClassExport2.py: episodes *)
Module ClassExportSpec.
Import Py PyLemmas ClassExport.

Section Episodes.
Context {Frame : Type}.
Implicit Types (r cur : list (Z * Frame)) (runs closed : list (list (Z * Frame))).
Implicit Types (st : scan_state Frame) (frame : Frame) (v : video Frame).
Implicit Types (detect : detector Frame).

Lemma chain_snoc {A} (R : A → A → Prop) (l : list A) (x : A) :
  chain R (l ++ [x])
  ↔ chain R l ∧ match last l with Some a => R a x | None => True end.
Proof.
  induction l as [|a l IH]; [simpl; tauto|].
  destruct l as [|b l]; [simpl; tauto|].
  change (chain R ((a :: b :: l) ++ [x])) with (R a b ∧ chain R ((b :: l) ++ [x])).
  change (chain R (a :: b :: l)) with (R a b ∧ chain R (b :: l)).
  change (last (a :: b :: l)) with (last (b :: l)).
  rewrite IH. tauto.
Qed.

Lemma episodes_of_app runs1 runs2 :
  episodes_of (runs1 ++ runs2) = episodes_of runs1 ++ episodes_of runs2.
Proof. unfold episodes_of. by rewrite filter_app, omap_app. Qed.

Lemma episodes_of_pending cur : episodes_of (pending cur) = close_episode cur.
Proof.
  unfold episodes_of, close_episode, endpoints.
  destruct cur as [|a cur]; [done|]. unfold pending.
  destruct (decide (2 ≤ length (a :: cur))%nat) as [Hlen|Hlen].
  - rewrite filter_cons_True by done. rewrite filter_nil.
    rewrite (proj2 (Nat.leb_le _ _)) by done. simpl.
    repeat case_match; congruence.
  - rewrite filter_cons_False by done. rewrite filter_nil.
    by rewrite (proj2 (Nat.leb_gt _ _)) by lia.
Qed.

Lemma last_pending closed cur :
  cur ≠ [] → last (closed ++ pending cur) = Some cur.
Proof. destruct cur; [done|]. intros _. simpl. by rewrite last_snoc. Qed.

Lemma scan_inv_initial resume : scan_inv (initial_scan (Frame:=Frame) resume).
Proof. exists []. repeat split; done. Qed.

(** The step: a detected frame either opens the first episode, extends the
    pending one, or closes it and opens the next. *)
Lemma scan_inv_record st frame :
  scan_inv st → scan_inv (record_detection st frame).
Proof.
  intros (closed & (Hcat & Hruns & Hapart) & Heps & Hempty).
  unfold record_detection. set (x := (frame_index st, frame)).
  destruct (last (current_episode st)) as [prev|] eqn:Hlast.
  - assert (current_episode st ≠ []) as Hne by (intros E; by rewrite E in Hlast).
    assert (pending (current_episode st) = [current_episode st]) as Hpend
      by (by destruct (current_episode st)).
    rewrite Hpend in *.
    apply Forall_app in Hruns as [Hclosed Hcur].
    apply Forall_inv in Hcur. pose proof (proj2 Hcur) as Hchain.
    apply chain_snoc in Hapart as [Hapart Hlastclosed].
    destruct (frame_index st - prev.1 <=? 60) eqn:Hgap.
    + (* the pending episode grows *)
      apply Z.leb_le in Hgap.
      exists closed. cbn [detected_frame_indices class_episodes current_episode].
      assert (pending (current_episode st ++ [x]) = [current_episode st ++ [x]])
        as -> by (by destruct (current_episode st)).
      split; [|split; [done|]].
      * split; [|split].
        -- rewrite concat_app in *. simpl in *. rewrite !app_nil_r in *.
           by rewrite <- Hcat, <- app_assoc.
        -- apply Forall_app. split; [done|]. apply Forall_singleton. split.
           ++ by destruct (current_episode st).
           ++ apply chain_snoc. rewrite Hlast. done.
        -- apply chain_snoc. split; [done|].
           destruct (last closed) as [r|]; [|done].
           destruct Hlastclosed as (a & b & Ha & Hb & Hab).
           exists a, b. split; [done|]. split; [|done].
           by destruct (current_episode st).
      * intros E. by destruct (current_episode st).
    + (* the pending episode is closed, the frame opens the next one *)
      apply Z.leb_gt in Hgap.
      exists (closed ++ [current_episode st]).
      cbn [detected_frame_indices class_episodes current_episode pending].
      split; [|split; [|done]].
      * split; [|split].
        -- rewrite concat_app. simpl. by rewrite Hcat.
        -- apply Forall_app. split; [|by apply Forall_singleton].
           apply Forall_app. split; [done | by apply Forall_singleton].
        -- apply chain_snoc. split; [by apply chain_snoc|].
           rewrite last_snoc. exists prev, x. split; [done|]. split; [done|].
           simpl. lia.
      * rewrite episodes_of_app, Heps. f_equal.
        rewrite <- Hpend. symmetry. apply episodes_of_pending.
  - (* the first detected frame *)
    assert (current_episode st = []) as Hcur.
    { destruct (current_episode st) as [|a l] using rev_ind; [done|].
      by rewrite last_snoc in Hlast. }
    rewrite Hcur in *. specialize (Hempty eq_refl). subst closed.
    simpl in Hcat. exists [].
    cbn [detected_frame_indices class_episodes current_episode pending].
    split; [|done]. rewrite <- Hcat. split; [done|]. split; [|done].
    apply Forall_singleton. by split.
Qed.

Lemma scan_inv_visit class_name detect step st frame :
  scan_inv st → scan_inv (visit class_name detect step st frame).
Proof.
  intros Hinv. unfold visit.
  assert (∀ st1 : scan_state Frame, scan_inv st1 →
            scan_inv {| frame_index := frame_index st + step;
                        detected_frame_indices := detected_frame_indices st1;
                        class_episodes := class_episodes st1;
                        current_episode := current_episode st1 |}) as Hframe
    by (intros st1 H; exact H).
  apply Hframe. destruct (detect frame) as [cls|]; [|done].
  case_bool_decide; [by apply scan_inv_record | done].
Qed.

Lemma scan_inv_loop fuel v class_name detect step stopped : ∀ k st st',
  scan_loop fuel v class_name detect step stopped k st = Some st' →
  scan_inv st → scan_inv st'.
Proof.
  induction fuel as [|fuel IH]; intros k st st'; simpl.
  - destruct (_ && _); [done|]. by intros [= <-].
  - destruct (_ && _); [|by intros [= <-]].
    destruct (read v (frame_index st)) as [frame|]; [|by intros [= <-]].
    intros Hloop Hinv. eapply IH; [done|]. by apply scan_inv_visit.
Qed.

(** The end: closing the pending episode gives the episodes of all runs. *)
Lemma scan_inv_final st :
  scan_inv st →
  ∃ runs, maximal_runs (detected_frame_indices st) runs
          ∧ final_episodes st = episodes_of runs.
Proof.
  intros (closed & Hmax & Heps & _).
  exists (closed ++ pending (current_episode st)). split; [done|].
  unfold final_episodes. by rewrite episodes_of_app, episodes_of_pending, Heps.
Qed.

(** With a positive step the loop ends. *)
Lemma scan_loop_terminates v class_name detect step stopped :
  1 ≤ step → ∀ fuel k st,
  total_frames v - frame_index st < Z.of_nat fuel →
  ∃ st', scan_loop fuel v class_name detect step stopped k st = Some st'.
Proof.
  intros Hstep. induction fuel as [|fuel IH]; intros k st Hfuel; simpl.
  - rewrite (proj2 (Z.ltb_ge _ _)) by lia. by eexists.
  - destruct (_ && _); [|by eexists].
    destruct (read v (frame_index st)) as [frame|]; [|by eexists].
    apply IH. unfold visit. simpl. lia.
Qed.

Lemma detected_loop fuel v class_name detect step stopped : ∀ k st st',
  scan_loop fuel v class_name detect step stopped k st = Some st' →
  Forall (detected_in v class_name detect) (detected_frame_indices st) →
  Forall (detected_in v class_name detect) (detected_frame_indices st').
Proof.
  induction fuel as [|fuel IH]; intros k st st'; simpl.
  - destruct (_ && _); [done|]. by intros [= <-].
  - destruct (_ && _); [|by intros [= <-]].
    destruct (read v (frame_index st)) as [frame|] eqn:Hread; [|by intros [= <-]].
    intros Hloop Hdet. eapply IH; [done|]. unfold visit.
    destruct (detect frame) as [cls|] eqn:Hcls; [|done].
    case_bool_decide as Hin; [|done].
    assert (Forall (detected_in v class_name detect)
              (detected_frame_indices st ++ [(frame_index st, frame)])) as Hnew.
    { apply Forall_app. split; [done|]. apply Forall_singleton.
      split; [done|]. by exists cls. }
    unfold record_detection. cbn [detected_frame_indices].
    destruct (last (current_episode st)) as [prev|]; [|done].
    by destruct (frame_index st - prev.1 <=? 60).
Qed.

(** Stopping at the [k]-th test is scanning a video cut after [k] visits. *)
Lemma scan_loop_stop v v' class_name detect step stopped :
  1 ≤ step → read v' = read v →
  ∀ fuel k j j' st,
    (∀ i, (j ≤ i < j + k)%nat → stopped i = false) →
    stopped (j + k)%nat = true →
    total_frames v' = Z.min (total_frames v) (frame_index st + Z.of_nat k * step) →
    scan_loop fuel v class_name detect step stopped j st
    = scan_loop fuel v' class_name detect step never j' st.
Proof.
  intros Hstep Hread. induction fuel as [|fuel IH]; intros k j j' st Hrun Hstop Htot.
  - simpl. destruct k as [|k].
    + rewrite Nat.add_0_r in Hstop. rewrite Hstop, andb_false_r.
      by rewrite (proj2 (Z.ltb_ge _ _)) by lia.
    + rewrite Hrun by lia. unfold never. simpl negb. rewrite !andb_true_r.
      destruct (frame_index st <? total_frames v) eqn:E.
      * apply Z.ltb_lt in E. by rewrite (proj2 (Z.ltb_lt _ _)) by lia.
      * apply Z.ltb_ge in E. by rewrite (proj2 (Z.ltb_ge _ _)) by lia.
  - simpl. destruct k as [|k].
    + rewrite Nat.add_0_r in Hstop. rewrite Hstop, andb_false_r.
      by rewrite (proj2 (Z.ltb_ge _ _)) by lia.
    + rewrite Hrun by lia. unfold never at 1. simpl negb. rewrite !andb_true_r.
      destruct (frame_index st <? total_frames v) eqn:E.
      * apply Z.ltb_lt in E. rewrite (proj2 (Z.ltb_lt _ _)) by lia.
        rewrite Hread. destruct (read v (frame_index st)) as [frame|]; [|done].
        apply (IH k).
        -- intros i Hi. apply Hrun. lia.
        -- by replace (S j + k)%nat with (j + S k)%nat by lia.
        -- rewrite Htot. unfold visit. cbn [frame_index]. lia.
      * apply Z.ltb_ge in E. by rewrite (proj2 (Z.ltb_ge _ _)) by lia.
Qed.

Lemma scan_loop_never v class_name detect step stopped :
  (∀ i, stopped i = false) →
  ∀ fuel j j' st,
    scan_loop fuel v class_name detect step stopped j st
    = scan_loop fuel v class_name detect step never j' st.
Proof.
  intros Hnever. induction fuel as [|fuel IH]; intros j j' st; simpl.
  - by rewrite Hnever.
  - rewrite Hnever. unfold never at 1.
    destruct (_ && _); [|done].
    destruct (read v (frame_index st)); [apply IH | done].
Qed.

(** *** The detected frames are those of the passes made *)

Lemma visited_S v from step n :
  visited v from step (S n)
  = match read v from with Some frame => [(from, frame)] | None => [] end
    ++ visited v (from + step) step n.
Proof.
  unfold visited. cbn [seq omap list_omap]. rewrite Z.mul_0_l, Z.add_0_r.
  assert (omap (λ j : nat, pair (from + Z.of_nat j * step)
                             <$> read v (from + Z.of_nat j * step)) (seq 1 n)
          = omap (λ j : nat, pair (from + step + Z.of_nat j * step)
                               <$> read v (from + step + Z.of_nat j * step)) (seq 0 n))
    as ->.
  { rewrite <- fmap_S_seq. generalize (seq 0 n). intros l.
    induction l as [|j l IH]; [done|]. rewrite fmap_cons. cbn [omap list_omap].
    replace (from + Z.of_nat (S j) * step) with (from + step + Z.of_nat j * step) by lia.
    by rewrite IH. }
  by destruct (read v from).
Qed.

(** One pass adds the visited frame to the detected frames when the class
    shows in it. *)
Lemma visit_detections class_name detect step st frame :
  frame_index (visit class_name detect step st frame) = frame_index st + step
  ∧ detected_frame_indices (visit class_name detect step st frame)
    = detected_frame_indices st
      ++ filter (λ t, shows class_name detect t.2 = true) [(frame_index st, frame)].
Proof.
  split; [done|]. unfold visit, shows. cbn [detected_frame_indices].
  rewrite filter_cons, filter_nil. cbn [snd].
  destruct (detect frame) as [cls|].
  - case_bool_decide as Hin.
    + rewrite decide_True by done. unfold record_detection.
      destruct (last (current_episode st)) as [prev|]; [|done].
      by destruct (frame_index st - prev.1 <=? 60).
    + rewrite decide_False by done. by rewrite app_nil_r.
  - rewrite decide_False by done. by rewrite app_nil_r.
Qed.

Lemma detections_0 v class_name detect from step :
  detections v class_name detect from step O = [].
Proof. done. Qed.

Ltac left_at_once :=
  intros [= <-]; exists O; rewrite detections_0, app_nil_r, Z.mul_0_l, Z.add_0_r;
  (split; [|done]); (split; [intros j Hj; lia|]);
  rewrite Z.mul_0_l, Z.add_0_r, Nat.add_0_r;
  first [ by right; left | by right; right
        | left; match goal with H : (_ <? _) = false |- _ => apply Z.ltb_ge in H end;
          done ].

(** The loop, when it is left: the passes it made and the detected frames
    it added. *)
Lemma scan_loop_passes fuel v class_name detect step stopped : ∀ k st st',
  scan_loop fuel v class_name detect step stopped k st = Some st' →
  ∃ n, passes v step (λ j, stopped (k + j)%nat) (frame_index st) n
       ∧ frame_index st' = frame_index st + Z.of_nat n * step
       ∧ detected_frame_indices st'
         = detected_frame_indices st
           ++ detections v class_name detect (frame_index st) step n.
Proof.
  induction fuel as [|fuel IH]; intros k st st'; simpl.
  - destruct (frame_index st <? total_frames v) eqn:Hlt;
      destruct (stopped k) eqn:Hstop; cbn [andb negb]; try done; left_at_once.
  - destruct (frame_index st <? total_frames v) eqn:Hlt;
      destruct (stopped k) eqn:Hstop; cbn [andb negb]; [left_at_once| |left_at_once..].
    apply Z.ltb_lt in Hlt.
    destruct (read v (frame_index st)) as [frame|] eqn:Hread; [|left_at_once].
    intros Hloop. destruct (IH _ _ _ Hloop) as (n & [Hpass Hexit] & Hidx & Hdet).
    destruct (visit_detections class_name detect step st frame) as [Hi Hd].
    rewrite Hi in *. rewrite Hd in Hdet. exists (S n). split; [split|split].
    + intros [|j] Hj.
      * rewrite Z.mul_0_l, Z.add_0_r, Nat.add_0_r, Hread. eauto.
      * destruct (Hpass j ltac:(lia)) as (H1 & H2 & H3).
        replace (frame_index st + Z.of_nat (S j) * step)
          with (frame_index st + step + Z.of_nat j * step) by lia.
        replace (k + S j)%nat with (S k + j)%nat by lia. done.
    + replace (frame_index st + Z.of_nat (S n) * step)
        with (frame_index st + step + Z.of_nat n * step) by lia.
      replace (k + S n)%nat with (S k + n)%nat by lia. done.
    + rewrite Hidx. lia.
    + rewrite Hdet. unfold detections. rewrite visited_S, Hread, filter_app.
      by rewrite app_assoc.
Qed.

End Episodes.

(** C8. Episode invariant: whenever the scan loop is left (the video is
    over, a read fails, or the stop flag is seen, at any iteration), the
    detected frames are exactly the frames of the passes made in which the
    class was detected, in the order of the passes, and the episodes
    recorded once the pending one is closed are the (first, last) pairs of
    the maximal runs of these detected frames whose neighbours are at most
    60 apart, for the runs with at least two frames; a run of a single
    frame gives no episode.  With a step of at least 1 the loop is always
    left. *)
Theorem episodes_are_maximal_runs {Frame : Type} :
  (∀ fuel (v : video Frame) class_name detect step stopped resume st,
     scan_loop fuel v class_name detect step stopped O (initial_scan resume)
     = Some st →
     (∃ n, passes v step stopped resume n
           ∧ detected_frame_indices st = detections v class_name detect resume step n)
     ∧ Forall (detected_in v class_name detect) (detected_frame_indices st)
     ∧ ∃ runs, maximal_runs (detected_frame_indices st) runs
               ∧ final_episodes st = episodes_of runs)
  ∧ (∀ (v : video Frame) class_name detect step stopped resume,
       1 ≤ step →
       ∃ fuel st,
         scan_loop fuel v class_name detect step stopped O (initial_scan resume)
         = Some st).
Proof.
  split.
  - intros fuel v class_name detect step stopped resume st Hloop. split; [|split].
    + destruct (scan_loop_passes _ _ _ _ _ _ _ _ _ Hloop) as (n & Hpass & _ & Hdet).
      exists n. split; [exact Hpass | exact Hdet].
    + eapply detected_loop; [done|]. constructor.
    + apply scan_inv_final. eapply scan_inv_loop; [done|].
      apply scan_inv_initial.
  - intros v class_name detect step stopped resume Hstep.
    exists (Z.to_nat (total_frames v - resume + 1)).
    apply scan_loop_terminates; [done|]. simpl. lia.
Qed.

Lemma episodes_are_maximal_runs_witness :
  let st := default (initial_scan 0)
              (scan_loop 200 sample_video "dog" sample_detector 10 never O
                 (initial_scan 0)) in
  (∃ n, passes sample_video 10 never 0 n
        ∧ detected_frame_indices st = detections sample_video "dog" sample_detector 0 10 n)
  ∧ Forall (detected_in sample_video "dog" sample_detector) (detected_frame_indices st)
  ∧ ∃ runs, maximal_runs (detected_frame_indices st) runs
            ∧ final_episodes st = episodes_of runs.
Proof.
  apply (proj1 (@episodes_are_maximal_runs Z) 200%nat sample_video "dog"
           sample_detector 10 never 0).
  vm_compute. reflexivity.
Defined.

(** The scan of the sample video: fifteen episodes, thirty endpoints. *)
Example sample_scan :
  (λ st, (length (detected_frame_indices st), length (final_episodes st),
          final_episodes st !! 1%nat, frame_index st))
    <$> scan_loop 200 sample_video "dog" sample_detector 10 never O (initial_scan 0)
  = Some (30%nat, 15%nat, Some ((100, 100), (110, 110)), 1500).
Proof. vm_compute. reflexivity. Qed.

(** A single detected frame between two long gaps leaves no episode. *)
Example lone_frame_discarded :
  final_episodes
    <$> scan_loop 100 {| total_frames := 300; read := λ i, Some i |} "dog"
          (λ f, if (f =? 0) || (f =? 10) || (f =? 150) then Some ["dog"] else Some [])
          10 never O (initial_scan 0)
  = Some [((0, 0), (10, 10))].
Proof. vm_compute. reflexivity. Qed.

(** C10, as stated, fails: the outcome of a run is not a function of the
    video, the model and the settings; the same run with the Stop button
    pressed while the worker thread scans exports other frames. *)
Lemma stop_flag_changes_export :
  process_video 200 (Some sample_video) (Some sample_detector) "dog" 10 500 0 never
  ≠ process_video 200 (Some sample_video) (Some sample_detector) "dog" 10 500 0
      (stop_at 75).
Proof. vm_compute. discriminate. Qed.

(** With the model not rebound the loop is [scan_loop]. *)
Lemma scan_loop_live_bound {Frame} (v : video Frame) class_name
    (model : nat → detector Frame) detect step stopped :
  (∀ k, model k = detect) →
  ∀ fuel k st,
    scan_loop_live fuel v class_name model step stopped k st
    = scan_loop fuel v class_name detect step stopped k st.
Proof.
  intros Hbound. induction fuel as [|fuel IH]; intros k st; simpl; [done|].
  destruct (_ && _); [|done].
  destruct (read v (frame_index st)) as [frame|]; [|done].
  by rewrite Hbound, IH.
Qed.

Lemma process_video_live_bound {Frame} fuel (v : video Frame)
    (model : nat → detector Frame) detect class_name step max_to_save resume stopped :
  (∀ k, model k = detect) →
  process_video_live fuel (Some v) (Some detect) model class_name step max_to_save
    resume stopped
  = process_video fuel (Some v) (Some detect) class_name step max_to_save resume
      stopped.
Proof.
  intros Hbound. unfold process_video_live, process_video.
  case_bool_decide; [done|]. by rewrite (scan_loop_live_bound _ _ _ detect).
Qed.

(** The model matters too: the same run, never stopped, with the model
    rebound while the worker thread scans exports other frames. *)
Example model_rebinding_changes_export :
  process_video_live 200 (Some sample_video) (Some sample_detector)
    (λ _, sample_detector) "dog" 10 500 0 never
  ≠ process_video_live 200 (Some sample_video) (Some sample_detector)
      (rebound_at 75) "dog" 10 500 0 never.
Proof. vm_compute. discriminate. Qed.

(** Up to the pass at which the flag is seen, only the models of the passes
    made matter. *)
Lemma scan_loop_live_stop {Frame} (v : video Frame) class_name
    (model : nat → detector Frame) detect step stopped :
  ∀ fuel k j st,
    (∀ i, (j ≤ i < j + k)%nat → stopped i = false ∧ model i = detect) →
    stopped (j + k)%nat = true →
    scan_loop_live fuel v class_name model step stopped j st
    = scan_loop fuel v class_name detect step stopped j st.
Proof.
  induction fuel as [|fuel IH]; intros k j st Hrun Hstop; simpl; [done|].
  destruct (_ && _) eqn:Hcond; [|done].
  destruct (read v (frame_index st)) as [frame|]; [|done].
  destruct k as [|k].
  { rewrite Nat.add_0_r in Hstop. by rewrite Hstop, andb_false_r in Hcond. }
  destruct (Hrun j ltac:(lia)) as [_ ->]. apply (IH k).
  - intros i Hi. apply Hrun. lia.
  - by replace (S j + k)%nat with (j + S k)%nat by lia.
Qed.

(** C10, amended.  The scan runs on the thread made by
    [start_processing_thread], and handlers of the Tk thread reach it
    through two attributes it reads in every pass: the flag, tested before
    every visit, and the model, called on every visited frame.  A run that
    never sees the flag set, with the model not rebound, is the sequential
    computation; a run that sees the flag at its [k]-th test, with the
    model not rebound before, is the sequential computation on the video
    cut after [k] visits. *)
Theorem worker_run_sequential {Frame : Type} (fuel : nat)
    (v : video Frame) (detect : detector Frame) (model : nat → detector Frame)
    (class_name : string) (step max_to_save resume : Z) (stopped : nat → bool) :
  1 ≤ step →
  ((∀ i, stopped i = false) → (∀ i, model i = detect) →
     process_video_live fuel (Some v) (Some detect) model class_name step max_to_save
       resume stopped
     = process_video fuel (Some v) (Some detect) class_name step max_to_save
         resume never)
  ∧ (∀ k, (∀ i, (i < k)%nat → stopped i = false ∧ model i = detect) →
       stopped k = true →
       process_video_live fuel (Some v) (Some detect) model class_name step
         max_to_save resume stopped
       = process_video fuel (Some (truncated v resume step k)) (Some detect)
           class_name step max_to_save resume never).
Proof.
  intros Hstep. split.
  - intros Hnever Hbound. rewrite (process_video_live_bound _ _ _ detect) by done.
    unfold process_video. case_bool_decide; [done|].
    by rewrite (scan_loop_never v class_name detect step stopped Hnever fuel O O).
  - intros k Hrun Hstop. unfold process_video_live, process_video.
    case_bool_decide; [done|].
    rewrite (scan_loop_live_stop v class_name model detect step stopped fuel k O);
      [|intros i Hi; apply Hrun; lia | done].
    rewrite (scan_loop_stop v (truncated v resume step k) class_name detect step
               stopped Hstep eq_refl fuel k O O); try done.
    intros i Hi. apply Hrun. lia.
Qed.

Lemma worker_run_sequential_witness :
  process_video_live 200 (Some sample_video) (Some sample_detector)
    (rebound_at 80) "dog" 10 500 0 (stop_at 75)
  = process_video 200 (Some (truncated sample_video 0 10 75)) (Some sample_detector)
      "dog" 10 500 0 never.
Proof.
  apply (proj2 (worker_run_sequential 200 sample_video sample_detector
                  (rebound_at 80) "dog" 10 500 0 (stop_at 75) ltac:(lia)) 75%nat).
  - intros i Hi. unfold stop_at, rebound_at. split.
    + apply Nat.leb_gt. lia.
    + by rewrite (proj2 (Nat.leb_gt 80 i)) by lia.
  - reflexivity.
Defined.

(** ** AZ_ClassExport2.py: the selection of the frames to write *)

Lemma mapM_result {A B} (f : A → result B) (l : list A) :
  (∀ x, x ∈ l → ∃ y, f x = Ok y) →
  ∃ l', mapM f l = Ok l' ∧ Forall2 (λ x y, f x = Ok y) l l'.
Proof.
  induction l as [|x l IH]; intros Hall.
  - exists []. split; [done | constructor].
  - destruct (Hall x) as [y Hy]; [left|].
    destruct IH as (l' & Hl' & Hf2); [intros z Hz; apply Hall; by right|].
    exists (y :: l'). split; [|by constructor].
    simpl. rewrite Hy. simpl. rewrite Hl'. done.
Qed.

Lemma getitem_in_bounds {A} (l : list A) (i : Z) :
  0 ≤ i < Z.of_nat (length l) →
  ∃ x, getitem l i = Ok x ∧ l !! Z.to_nat i = Some x.
Proof.
  intros Hi. unfold getitem. rewrite (proj2 (Z.ltb_ge _ _)) by lia.
  rewrite (proj2 (Z.leb_le _ _)), (proj2 (Z.ltb_lt _ _)) by lia. simpl.
  destruct (lookup_lt_is_Some_2 l (Z.to_nat i)) as [x Hx]; [lia|].
  rewrite Hx. by exists x.
Qed.

(** The run on the thirty endpoints of the sample video with room for 22
    frames: position 11 holds endpoint 14, where exact spacing takes
    [floor(11 * 30 / 22) = 15]. *)
Example sample_selection :
  (λ sel, (length sel, sel !! 11%nat)) <$> select_frames sample_endpoints 22
  = Ok (22%nat, sample_endpoints !! 14%nat)
  ∧ evenly_spaced sample_endpoints 22 !! 11%nat = sample_endpoints !! 15%nat
  ∧ sample_endpoints !! 14%nat = Some (1400, 1400)
  ∧ sample_endpoints !! 15%nat = Some (10, 10).
Proof. vm_compute. done. Qed.

(** C4, as stated, fails: the selected frames are not always the ones at
    the positions [floor(i * L / M)]. *)
Lemma selection_not_evenly_spaced :
  Z.of_nat (length sample_endpoints) = 30
  ∧ select_frames sample_endpoints 22 ≠ Ok (evenly_spaced sample_endpoints 22).
Proof. vm_compute. split; [done | discriminate]. Qed.

(** C4, amended.  Frame selection cap: with a maximum [M >= 1] and [L]
    collected endpoint frames (at most 2^50 of them), [min(L, M)] frames
    are selected; when [L <= M] they are all the frames; when [L > M] the
    frame at position [i], [i = 0 .. M - 1], is the one at index
    [int(i * interval)] with [interval = L / M], quotient and product
    rounded to binary64, and every such index is within the list. *)
Theorem frame_selection {A : Type} (all_detected : list A) (max_to_save : Z) :
  1 ≤ max_to_save →
  Z.of_nat (length all_detected) ≤ 2 ^ 50 →
  ∃ selected_frames,
    select_frames all_detected max_to_save = Ok selected_frames
    ∧ Z.of_nat (length selected_frames)
      = Z.min (Z.of_nat (length all_detected)) max_to_save
    ∧ (Z.of_nat (length all_detected) ≤ max_to_save →
         selected_frames = all_detected)
    ∧ (Z.of_nat (length all_detected) > max_to_save →
         ∃ interval,
           int_truediv (Z.of_nat (length all_detected)) max_to_save = Ok interval
           ∧ ∀ i, 0 ≤ i < max_to_save →
               ∃ idx, scaled_index interval i = Ok idx
                      ∧ 0 ≤ idx < Z.of_nat (length all_detected)
                      ∧ selected_frames !! Z.to_nat i
                        = all_detected !! Z.to_nat idx).
Proof.
  intros HM HL. unfold select_frames.
  set (n := Z.of_nat (length all_detected)) in *.
  destruct (n >? max_to_save) eqn:Hcmp.
  - apply Z.gtb_lt in Hcmp.
    destruct (FloatLemmas.scaled_index_in_bounds n max_to_save 0)
      as (interval & _ & Hdiv & _); [lia..|].
    rewrite Hdiv. cbn [mbind result_bind].
    assert (∀ i, 0 ≤ i < max_to_save →
              ∃ idx, scaled_index interval i = Ok idx ∧ 0 ≤ idx < n) as Hidx.
    { intros i Hi.
      destruct (FloatLemmas.scaled_index_in_bounds n max_to_save i)
        as (interval' & idx & Hdiv' & Hidx & Hb); [lia..|].
      rewrite Hdiv in Hdiv'. injection Hdiv' as <-. by exists idx. }
    destruct (mapM_result (scaled_index interval) (range max_to_save))
      as (indices & -> & Hind).
    { intros i Hi. apply elem_of_seqZ in Hi.
      destruct (Hidx i) as (idx & ? & _); [lia|]. by exists idx. }
    cbn [mbind result_bind].
    assert (Forall (λ idx, 0 ≤ idx < n) indices) as Hbounds.
    { apply Forall_forall. intros idx Hin.
      apply list_elem_of_lookup in Hin as [j Hj].
      destruct (Forall2_lookup_r _ _ _ _ _ Hind Hj) as (i & Hi & Hsi).
      apply lookup_seqZ in Hi as [-> Hlt].
      destruct (Hidx (0 + Z.of_nat j)) as (idx' & Hidx' & Hb); [lia|].
      rewrite Hsi in Hidx'. by injection Hidx' as <-. }
    destruct (mapM_result (getitem all_detected) indices) as (sel & -> & Hsel).
    { intros idx Hin. rewrite Forall_forall in Hbounds.
      destruct (getitem_in_bounds all_detected idx) as (x & ? & _);
        [by apply Hbounds|]. by exists x. }
    exists sel. split; [done|].
    pose proof (Forall2_length _ _ _ Hind) as Hlen1.
    pose proof (Forall2_length _ _ _ Hsel) as Hlen2.
    unfold range in Hlen1. rewrite length_seqZ in Hlen1.
    split; [lia|]. split; [lia|]. intros _.
    exists interval. split; [done|]. intros i Hi.
    destruct (lookup_lt_is_Some_2 indices (Z.to_nat i)) as [idx Hidx_i]; [lia|].
    destruct (Forall2_lookup_r _ _ _ _ _ Hind Hidx_i) as (i' & Hi' & Hsi).
    apply lookup_seqZ in Hi' as [-> _].
    replace (0 + Z.of_nat (Z.to_nat i)) with i in Hsi by lia.
    exists idx. split; [done|].
    rewrite Forall_forall in Hbounds.
    assert (0 ≤ idx < n) as Hb by (apply Hbounds; by eapply list_elem_of_lookup_2).
    split; [done|].
    destruct (Forall2_lookup_l _ _ _ _ _ Hsel Hidx_i) as (x & Hx & Hgx).
    destruct (getitem_in_bounds all_detected idx Hb) as (x' & Hx' & Hlx).
    rewrite Hgx in Hx'. injection Hx' as <-. by rewrite Hx, Hlx.
  - rewrite Z.gtb_ltb in Hcmp. apply Z.ltb_ge in Hcmp.
    exists all_detected. split; [done|]. fold n.
    split; [lia|]. split; [done | lia].
Qed.

Lemma frame_selection_witness :
  ∃ selected_frames,
    select_frames sample_endpoints 22 = Ok selected_frames
    ∧ Z.of_nat (length selected_frames)
      = Z.min (Z.of_nat (length sample_endpoints)) 22
    ∧ (Z.of_nat (length sample_endpoints) ≤ 22 → selected_frames = sample_endpoints)
    ∧ (Z.of_nat (length sample_endpoints) > 22 →
         ∃ interval,
           int_truediv (Z.of_nat (length sample_endpoints)) 22 = Ok interval
           ∧ ∀ i, 0 ≤ i < 22 →
               ∃ idx, scaled_index interval i = Ok idx
                      ∧ 0 ≤ idx < Z.of_nat (length sample_endpoints)
                      ∧ selected_frames !! Z.to_nat i
                        = sample_endpoints !! Z.to_nat idx).
Proof.
  apply (frame_selection sample_endpoints 22).
  - lia.
  - vm_compute. discriminate.
Defined.

End ClassExportSpec.

(** ** AZYoloDatasetRearrange.py: the sizes of the three sets *)
Module RearrangeSpec.
Import Py PyLemmas Rearrange.

(** Every whole percentage gives a fraction in [0, 1]. *)
Lemma unit_quotients : Forall (λ p, unit_quotient p = true) (seqZ 0 101).
Proof. apply (bool_decide_unpack _). vm_compute. reflexivity. Qed.

Lemma unit_train_fractions :
  Forall (λ s, Forall (λ r, unit_train_fraction s r = true) (seqZ 0 101))
    (seqZ 0 101).
Proof. apply (bool_decide_unpack _). vm_compute. reflexivity. Qed.

Lemma test_count_in_range p n :
  0 ≤ p ≤ 100 → 0 ≤ n ≤ 2 ^ 50 →
  ∃ k, test_count_of p n = Ok k ∧ 0 ≤ k ≤ n.
Proof.
  intros Hp Hn. pose proof unit_quotients as Hall.
  rewrite Forall_forall in Hall. specialize (Hall p).
  unfold unit_quotient in Hall. unfold test_count_of.
  destruct (int_truediv p 100) as [q|]; [|by (discriminate Hall; apply elem_of_seqZ; lia)].
  cbn [mbind result_bind]. apply FloatLemmas.mul_unit_int; [|done].
  apply Hall. apply elem_of_seqZ. lia.
Qed.

Lemma train_count_in_range s r n :
  0 ≤ s ≤ 100 → 0 ≤ r ≤ 100 → 0 ≤ n ≤ 2 ^ 50 →
  ∃ tp k, train_percent_of s r = Ok tp ∧ train_count_of tp n = Ok k ∧ 0 ≤ k ≤ n.
Proof.
  intros Hs Hr Hn. pose proof unit_train_fractions as Hall.
  rewrite Forall_forall in Hall. specialize (Hall s ltac:(apply elem_of_seqZ; lia)).
  rewrite Forall_forall in Hall. specialize (Hall r ltac:(apply elem_of_seqZ; lia)).
  unfold unit_train_fraction in Hall. unfold train_count_of.
  destruct (train_percent_of s r) as [tp|]; [|done]. cbn [mbind result_bind] in Hall.
  exists tp. destruct (float_div tp float_100) as [q|]; [|done].
  cbn [mbind result_bind].
  destruct (FloatLemmas.mul_unit_int q n Hall Hn) as (k & Hk & Hrange).
  by exists k.
Qed.

Lemma collect_NoDup image_folders split :
  (∀ sp listing, image_folders !! sp = Some listing → NoDup listing) →
  NoDup (collect image_folders split).
Proof.
  intros Hnd. unfold collect.
  destruct (image_folders !! split) as [listing|] eqn:E; [|constructor].
  apply NoDup_fmap_2; [by intros x y [= ->]|].
  apply NoDup_filter. by eapply Hnd.
Qed.

Lemma collect_split image_folders split p :
  p ∈ collect image_folders split → p.1 = split.
Proof.
  unfold collect. destruct (image_folders !! split) as [listing|].
  - intros (f & -> & _)%list_elem_of_fmap. done.
  - by intros ?%elem_of_nil.
Qed.

Lemma all_images_NoDup image_folders :
  (∀ sp listing, image_folders !! sp = Some listing → NoDup listing) →
  NoDup (collect image_folders "train" ++ collect image_folders "val"
         ++ collect image_folders "test").
Proof.
  intros Hnd. apply NoDup_app. split; [by apply collect_NoDup|]. split.
  - intros p Htrain [Hval|Htest]%elem_of_app.
    + apply collect_split in Htrain, Hval. congruence.
    + apply collect_split in Htrain, Htest. congruence.
  - apply NoDup_app. split; [by apply collect_NoDup|].
    split; [|by apply collect_NoDup].
    intros p Hval Htest. apply collect_split in Hval, Htest. congruence.
Qed.

(** The run of the sample dataset with 29 percent for the test set: 28 of
    the 100 images go to test, where [floor(29 / 100 * 100)] is 29. *)
Example sample_rearrange :
  match rearrange_dataset (λ l, l) "dataset" "29" 70 sample_folders with
  | Rearranged test_images train_images valid_images =>
      (length test_images, length train_images, length valid_images)
      = (28%nat, 35%nat, 37%nat)
  | _ => False
  end.
Proof. vm_compute. reflexivity. Qed.

(** C5, as stated, fails: the test set does not always receive
    [floor(p_test / 100 * N)] images. *)
Lemma test_count_not_exact :
  ∃ test_images train_images valid_images,
    rearrange_dataset (λ l, l) "dataset" "29" 70 sample_folders
    = Rearranged test_images train_images valid_images
    ∧ Z.of_nat (length test_images) ≠ exact_percent 29 100.
Proof. vm_compute. eexists _, _, _. split; [reflexivity | discriminate]. Qed.

(** C5, amended.  Dataset rearrange split sizes: for the [N] images
    collected from the existing train, val and test image folders (at most
    2^50), a test percentage in [0, 100], a slider position in [0, 100]
    and whatever the shuffle does, the test set receives
    [int(p_test / 100 * N)] images and the train set
    [int(p_train / 100 * (N - |test|))] of the remaining ones, with
    [p_train = (slider / 100) * (100 - p_test)] and every quotient and
    product rounded to binary64 before the truncation; the val set
    receives the rest; the three sets are pairwise disjoint and together
    are the [N] collected images. *)
Theorem rearrange_split_sizes (shuffle : list image_path → list image_path)
    (dataset_path test_percent_entry : string) (scale test_percent : Z)
    (image_folders : gmap string (list string)) :
  (∀ l, shuffle l ≡ₚ l) →
  dataset_path ≠ "" →
  int_of_str test_percent_entry = Ok test_percent →
  0 ≤ test_percent ≤ 100 →
  0 ≤ scale ≤ 100 →
  (∀ sp listing, image_folders !! sp = Some listing → NoDup listing) →
  let all_images := collect image_folders "train" ++ collect image_folders "val"
                    ++ collect image_folders "test" in
  let n := Z.of_nat (length all_images) in
  n ≤ 2 ^ 50 →
  ∃ test_images train_images valid_images test_count train_percent train_count,
    rearrange_dataset shuffle dataset_path test_percent_entry scale image_folders
    = Rearranged test_images train_images valid_images
    ∧ test_count_of test_percent n = Ok test_count
    ∧ train_percent_of scale (100 - test_percent) = Ok train_percent
    ∧ train_count_of train_percent (n - test_count) = Ok train_count
    ∧ Z.of_nat (length test_images) = test_count
    ∧ Z.of_nat (length train_images) = train_count
    ∧ Z.of_nat (length valid_images) = n - test_count - train_count
    ∧ test_images ++ train_images ++ valid_images ≡ₚ all_images
    ∧ NoDup (test_images ++ train_images ++ valid_images).
Proof.
  intros Hperm Hpath Hentry Hp Hs Hnd all_images n Hn.
  unfold rearrange_dataset. rewrite bool_decide_eq_false_2 by done.
  rewrite Hentry.
  rewrite (proj2 (Z.leb_le 0 test_percent)), (proj2 (Z.leb_le test_percent 100))
    by lia.
  cbn [andb negb]. fold all_images.
  set (shuffled := shuffle all_images).
  assert (Z.of_nat (length shuffled) = n) as Hlen.
  { unfold n, shuffled. by rewrite (Permutation_length (Hperm all_images)). }
  destruct (test_count_in_range test_percent n) as (tc & Htc & Htc_range);
    [lia | lia |].
  destruct (train_count_in_range scale (100 - test_percent) (n - tc))
    as (tp & trc & Htp & Htrc & Htrc_range); [lia..|].
  rewrite Htp. cbn [mbind result_bind]. rewrite Hlen, Htc.
  cbn [mbind result_bind].
  rewrite slice_prefix, slice_suffix by lia.
  assert (Z.of_nat (length (drop (Z.to_nat tc) shuffled)) = n - tc) as Hrem
    by (rewrite length_drop; lia).
  rewrite Hrem, Htrc. cbn [mbind result_bind].
  rewrite slice_prefix, slice_suffix by lia.
  eexists _, _, _, tc, tp, trc. split; [reflexivity|].
  split; [done|]. split; [done|]. split; [done|].
  split; [rewrite length_take; lia|].
  split; [rewrite length_take; lia|].
  split; [rewrite !length_drop; lia|].
  rewrite !take_drop. unfold shuffled. split; [apply Hperm|].
  rewrite (Hperm all_images). by apply all_images_NoDup.
Qed.

Lemma rearrange_split_sizes_witness :
  let all_images := collect sample_folders "train" ++ collect sample_folders "val"
                    ++ collect sample_folders "test" in
  let n := Z.of_nat (length all_images) in
  ∃ test_images train_images valid_images test_count train_percent train_count,
    rearrange_dataset (λ l, l) "dataset" "29" 70 sample_folders
    = Rearranged test_images train_images valid_images
    ∧ test_count_of 29 n = Ok test_count
    ∧ train_percent_of 70 (100 - 29) = Ok train_percent
    ∧ train_count_of train_percent (n - test_count) = Ok train_count
    ∧ Z.of_nat (length test_images) = test_count
    ∧ Z.of_nat (length train_images) = train_count
    ∧ Z.of_nat (length valid_images) = n - test_count - train_count
    ∧ test_images ++ train_images ++ valid_images ≡ₚ all_images
    ∧ NoDup (test_images ++ train_images ++ valid_images).
Proof.
  assert (Z.of_nat (length (collect sample_folders "train" ++ collect sample_folders "val"
                            ++ collect sample_folders "test")) = 100) as Hn
    by (vm_compute; reflexivity).
  apply (rearrange_split_sizes (λ l, l) "dataset" "29" 70 29 sample_folders).
  - intros l. reflexivity.
  - discriminate.
  - vm_compute. reflexivity.
  - lia.
  - lia.
  - intros sp listing Hlook. unfold sample_folders in Hlook.
    apply lookup_singleton_Some in Hlook as [_ <-].
    apply (bool_decide_unpack _). vm_compute. reflexivity.
  - rewrite Hn. lia.
Defined.

End RearrangeSpec.

(** ** AZ_Yolov8ClassificationFolderSpliter.py: sizes and validation *)
Module FolderSplitterSpec.
Import Py PyLemmas FolderSplitter.

(** Where the copies of one loop land. *)
Lemma copy_files_lookup split cls files : ∀ out s c f,
  copy_files split cls files out !! (s, c, f)
  = if bool_decide (s = split ∧ c = cls ∧ f ∈ files) then Some (cls, f)
    else out !! (s, c, f).
Proof.
  unfold copy_files. induction files as [|x files IH] using rev_ind; intros out s c f.
  - simpl. rewrite bool_decide_eq_false_2; [done|].
    intros (_ & _ & H). by apply elem_of_nil in H.
  - rewrite foldl_snoc. destruct (decide ((split, cls, x) = (s, c, f))) as [[= <- <- <-]|Hne].
    + rewrite lookup_insert_eq. rewrite bool_decide_eq_true_2; [done|].
      repeat split; try done. apply elem_of_app. right. by left.
    + rewrite lookup_insert_ne by done. rewrite IH.
      apply (f_equal (λ b : bool, if b then Some (cls, f) else out !! (s, c, f))).
      apply bool_decide_ext. rewrite elem_of_app, list_elem_of_singleton.
      split; [tauto|]. intros (-> & -> & [?| ->]); [done|]. by destruct Hne.
Qed.

Lemma class_copies cls plan out s c f :
  copy_files "test" cls plan.2
    (copy_files "val" cls plan.1.2 (copy_files "train" cls plan.1.1 out))
    !! (s, c, f)
  = if bool_decide (in_plan cls plan s c f) then Some (cls, f) else out !! (s, c, f).
Proof.
  rewrite !copy_files_lookup. unfold in_plan.
  repeat case_bool_decide; try done; exfalso; intuition congruence.
Qed.





Lemma make_dirs_elem classes dirs split cls :
  split ∈ all_splits → cls ∈ classes → (split, cls) ∈ make_dirs classes dirs.
Proof.
  intros Hs Hc. unfold make_dirs.
  assert (Hinner : ∀ (sp : string) (acc : gset (string * string)),
            (∀ c, c ∈ classes →
               (sp, c) ∈ foldl (λ acc' c', {[ (sp, c') ]} ∪ acc') acc classes)
            ∧ acc ⊆ foldl (λ acc' c', {[ (sp, c') ]} ∪ acc') acc classes).
  { intros sp. clear Hc. induction classes as [|c0 classes IH] using rev_ind; intros acc.
    - split; [intros c H; by apply elem_of_nil in H | done].
    - rewrite foldl_snoc. destruct (IH acc) as [IH1 IH2]. split.
      + intros c [Hin| ->%list_elem_of_singleton]%elem_of_app.
        * apply elem_of_union_r. by apply IH1.
        * apply elem_of_union_l. by apply elem_of_singleton.
      + etrans; [exact IH2|]. apply union_subseteq_r. }
  unfold all_splits in *. cbn [foldl].
  repeat match goal with
         | H : _ ∈ _ :: _ |- _ => apply elem_of_cons in H as [->|H]
         | H : _ ∈ [] |- _ => by apply elem_of_nil in H
         end.
  - apply (proj2 (Hinner "test" _)), (proj2 (Hinner "val" _)).
    by apply (proj1 (Hinner "train" _)).
  - apply (proj2 (Hinner "test" _)). by apply (proj1 (Hinner "val" _)).
  - by apply (proj1 (Hinner "test" _)).
Qed.

(** The check [abs(x) > 0.01] against [abs(x) <= 0.01]. *)
Lemma within_tolerance_not_gt x :
  SFleb (float_abs x) float_0_01 = true → float_gt (float_abs x) float_0_01 = false.
Proof.
  destruct x as [s|s| |s m e];
    cbv beta iota delta [float_gt SFleb SFltb float_0_01 float_abs SFabs SFcompare];
    try done.
  rewrite (Z.compare_antisym e (-59)).
  destruct (e ?= -59); cbv beta iota delta [CompOpp]; try done.
  pose proof (Pos.compare_cont_antisym m 5764607523034235 Eq) as Hanti.
  change (CompOpp Eq) with Eq in Hanti. rewrite <- Hanti.
  destruct (Pos.compare_cont Eq m 5764607523034235);
    cbv beta iota delta [CompOpp]; done.
Qed.

Lemma not_gt_within_tolerance x :
  x ≠ S754_nan →
  float_gt (float_abs x) float_0_01 = false → SFleb (float_abs x) float_0_01 = true.
Proof.
  destruct x as [s|s| |s m e];
    cbv beta iota delta [float_gt SFleb SFltb float_0_01 float_abs SFabs SFcompare];
    try done.
  intros _. rewrite (Z.compare_antisym e (-59)).
  destruct (e ?= -59); cbv beta iota delta [CompOpp]; try done.
  pose proof (Pos.compare_cont_antisym m 5764607523034235 Eq) as Hanti.
  change (CompOpp Eq) with Eq in Hanti. rewrite <- Hanti.
  destruct (Pos.compare_cont Eq m 5764607523034235);
    cbv beta iota delta [CompOpp]; done.
Qed.

Ltac destruct_split_classes final e :=
  match goal with
  | |- context [split_classes ?a ?b ?c ?d ?x ?y] =>
      destruct (split_classes a b c d x y) as [final e]
  end.

(** A run with the entries 75, 50 and -25 on a class of four files: the
    check passes (the fractions sum to 1), three files go to train, one to
    val where [int(4 * 0.5)] is 2, none to test. *)
Example overlapping_counts :
  let r := split_dataset no_shuffle "in" "out" entry_75 entry_50 entry_minus_25
             small_input in
  r.2 = ShowInfo "Dataset split completed!"
  ∧ (pct ← percentage entry_50; count_of 4 pct) = Ok 2
  ∧ copied_count (out_files r.1) "train" "cats" ["a.jpg"; "b.jpg"; "c.jpg"; "d.jpg"] = 3
  ∧ copied_count (out_files r.1) "val" "cats" ["a.jpg"; "b.jpg"; "c.jpg"; "d.jpg"] = 1
  ∧ copied_count (out_files r.1) "test" "cats" ["a.jpg"; "b.jpg"; "c.jpg"; "d.jpg"] = 0.
Proof. vm_compute. done. Qed.


(** The run with the entries 75, 25.78125 and 0 on classes of 128 and of
    100 files: it ends with the success box although the counts of the
    first class, 96 and 33, do not fit. *)
Example mixed_run :
  let r := split_dataset no_shuffle "in" "out" entry_75 entry_25_78125 entry_0
             mixed_input in
  r.2 = ShowInfo "Dataset split completed!"
  ∧ (pct ← percentage entry_75; count_of 128 pct) = Ok 96
  ∧ (pct ← percentage entry_25_78125; count_of 128 pct) = Ok 33.
Proof. vm_compute. done. Qed.



(** What a failed validation leaves behind. *)
Lemma invalid_unchanged shuffle input_dir output_dir train val test fs :
  ¬ percentages_valid train val test →
  let r := split_dataset shuffle input_dir output_dir train val test fs in
  r.1 = fs ∧ ∃ msg, r.2 = ShowError msg.
Proof.
  intros Hinvalid. unfold split_dataset.
  destruct (_ || _); [by eauto|].
  destruct (percentage train) as [t|] eqn:Ht; cbn [mbind result_bind]; [|by eauto].
  destruct (percentage val) as [v|] eqn:Hv; cbn [mbind result_bind]; [|by eauto].
  destruct (percentage test) as [s|] eqn:Hs; cbn [mbind result_bind]; [|by eauto].
  destruct (sum_check_fails t v s) eqn:Hsum; [by eauto|].
  destruct Hinvalid. by exists t, v, s.
Qed.

(** The run with "nan" for the train percentage: the check lets the NaN
    sum through, the class directories are made, and the first count
    conversion raises before any file is copied. *)
Example nan_entry_run :
  let r := split_dataset no_shuffle "in" "out" entry_nan entry_20 entry_10
             small_input in
  r.2 = Uncaught ValueError
  ∧ elements (out_dirs r.1) = [("val", "cats"); ("test", "cats"); ("train", "cats")]
  ∧ out_files r.1 = ∅.
Proof. vm_compute. done. Qed.

(** C9. The check misses the entry nan: [abs(nan + 0.2 + 0.1 - 1.0) > 0.01]
    is false, so the run goes on although the fractions do not sum to 1
    within 0.01.  No error box is shown, the directories of the class are
    made in the output folder, and [int(4 * nan)] raises ValueError before
    any file is copied.  The check and its message, "Train/Val/Test
    percentages must sum to 100%", say what was meant. *)
Theorem nan_passes_validation :
  let r := split_dataset no_shuffle "in" "out" entry_nan entry_20 entry_10
             small_input in
  ¬ percentages_sum_to_one entry_nan entry_20 entry_10
  ∧ r.2 = Uncaught ValueError
  ∧ output_changed small_input r.1
  ∧ elements (out_dirs r.1) = [("val", "cats"); ("test", "cats"); ("train", "cats")]
  ∧ out_files r.1 = ∅.
Proof.
  split; [|split; [|split]].
  - intros (t & v & s & Ht & Hv & Hs & Hsum).
    vm_compute in Ht, Hv, Hs. injection Ht as <-. injection Hv as <-.
    injection Hs as <-. vm_compute in Hsum. discriminate.
  - vm_compute. reflexivity.
  - left. intros Heq.
    assert (("train", "cats") ∈ out_dirs
              (split_dataset no_shuffle "in" "out" entry_nan entry_20 entry_10
                 small_input).1) as Hin.
    { apply elem_of_elements. vm_compute. right. right. by left. }
    rewrite Heq in Hin. by apply not_elem_of_empty in Hin.
  - vm_compute. done.
Qed.

(** With that entry the output folder changes although the fractions do
    not sum to 1 within the tolerance. *)
Lemma validation_not_as_stated :
  ¬ validation_as_stated no_shuffle "in" "out" entry_nan entry_20 entry_10 small_input.
Proof.
  intros H. destruct H as (t & v & s & Ht & Hv & Hs & Hsum).
  - left. intros Heq.
    assert (("train", "cats") ∈ out_dirs
              (split_dataset no_shuffle "in" "out" entry_nan entry_20 entry_10
                 small_input).1) as Hin.
    { apply elem_of_elements. vm_compute. right. right. by left. }
    rewrite Heq in Hin. by apply not_elem_of_empty in Hin.
  - vm_compute in Ht, Hv, Hs. injection Ht as <-. injection Hv as <-.
    injection Hs as <-. vm_compute in Hsum. discriminate.
Qed.

(** What the validation does.  When an entry does not parse or the check
    [abs(train + val + test - 1) > 0.01] holds, an error is reported and
    the folders are left as they were, so the output folder changes only
    after a passed check; after a passed check (and with both folders
    chosen) no error is reported and the directory of every split and class
    exists.  The check passes when the fractions sum to 1 within 0.01, and
    otherwise only when the sum is not a number. *)
Theorem validation_atomic (shuffle : nat → list string → list string)
    (input_dir output_dir : string) (train val test : result float)
    (fs : folders) :
  let r := split_dataset shuffle input_dir output_dir train val test fs in
  (¬ percentages_valid train val test → r.1 = fs ∧ ∃ msg, r.2 = ShowError msg)
  ∧ (output_changed fs r.1 → percentages_valid train val test)
  ∧ (percentages_valid train val test → input_dir ≠ "" → output_dir ≠ "" →
       (∀ msg, r.2 ≠ ShowError msg)
       ∧ input r.1 = input fs
       ∧ ∀ split cls, split ∈ all_splits → cls ∈ fst <$> input fs →
                      (split, cls) ∈ out_dirs r.1)
  ∧ (percentages_sum_to_one train val test → percentages_valid train val test)
  ∧ (percentages_valid train val test →
       percentages_sum_to_one train val test
       ∨ ∃ train_pct val_pct test_pct,
           percentage train = Ok train_pct ∧ percentage val = Ok val_pct
           ∧ percentage test = Ok test_pct
           ∧ float_sub (fraction_sum train_pct val_pct test_pct) float_1 = S754_nan).
Proof.
  intros r. split; [|split; [|split; [|split]]].
  - apply invalid_unchanged.
  - intros Hchanged. unfold r, split_dataset in Hchanged.
    destruct (_ || _); [by destruct Hchanged|].
    destruct (percentage train) as [t|] eqn:Ht; cbn [mbind result_bind] in Hchanged;
      [|by destruct Hchanged].
    destruct (percentage val) as [v|] eqn:Hv; cbn [mbind result_bind] in Hchanged;
      [|by destruct Hchanged].
    destruct (percentage test) as [s|] eqn:Hs; cbn [mbind result_bind] in Hchanged;
      [|by destruct Hchanged].
    destruct (sum_check_fails t v s) eqn:Hsum; [by destruct Hchanged|].
    by exists t, v, s.
  - intros (t & v & s & Ht & Hv & Hs & Hsum) Hin Hout.
    unfold r, split_dataset. rewrite !bool_decide_eq_false_2 by done. cbn [orb].
    rewrite Ht, Hv, Hs. cbn [mbind result_bind]. rewrite Hsum.
    destruct_split_classes final e. cbn [fst snd input out_dirs].
    split; [by destruct e|]. split; [done|].
    intros split cls. apply make_dirs_elem.
  - intros (t & v & s & Ht & Hv & Hs & Hsum). exists t, v, s.
    do 3 (split; [done|]). by apply within_tolerance_not_gt.
  - intros (t & v & s & Ht & Hv & Hs & Hsum).
    assert (float_sub (fraction_sum t v s) float_1 = S754_nan
            ∨ float_sub (fraction_sum t v s) float_1 ≠ S754_nan) as [Hnan|Hnum]
      by (destruct (float_sub _ _); [right|right|left|right]; done).
    + right. by exists t, v, s.
    + left. exists t, v, s. do 3 (split; [done|]).
      by apply not_gt_within_tolerance.
Qed.

Lemma validation_atomic_witness :
  let r := split_dataset no_shuffle "in" "out" entry_70 entry_20 (Raise ValueError)
             sample_input in
  r.1 = sample_input ∧ ∃ msg, r.2 = ShowError msg.
Proof.
  apply (proj1 (validation_atomic no_shuffle "in" "out" entry_70 entry_20
                  (Raise ValueError) sample_input)).
  intros (t & v & s & _ & _ & Hs & _). vm_compute in Hs. discriminate.
Defined.

End FolderSplitterSpec.

(** ** Further facts about the runtime model: slices and exact products *)
Module RuntimeFacts.
Import Py FloatLemmas.

(** A slice takes its elements from the list. *)
Lemma slice_subseteq {A} (l : list A) (lo hi : option Z) : slice l lo hi ⊆ l.
Proof. unfold slice. etrans; [apply subseteq_take | apply subseteq_drop]. Qed.

(** Multiplying by 1.0 changes nothing. *)
Lemma float_mul_1_l (m : positive) (e : Z) :
  2 ^ 52 ≤ Zpos m < 2 ^ 53 → -1074 ≤ e ≤ 970 →
  float_mul float_1 (S754_finite false m e) = S754_finite false m e.
Proof.
  intros Hm He. unfold float_mul, float_1. cbn [SFmul xorb].
  assert (Zpos (4503599627370496 * m) = 2 ^ 52 * Zpos m) as Hprod
    by (rewrite Pos2Z.inj_mul; done).
  assert (Zdigits2 (Zpos (4503599627370496 * m)) = 105) as Hd.
  { apply Zdigits2_unique; [lia|]. rewrite Hprod.
    change (2 ^ (105 - 1)) with (2 ^ 52 * 2 ^ 52).
    change (2 ^ 105) with (2 ^ 52 * 2 ^ 53). nia. }
  destruct (bra_normal (Zpos (4503599627370496 * m)) (-52 + e) loc_Exact)
    as (m3 & e3 & m2 & -> & Hm3 & He3 & Hval & _ & Hexact); rewrite ?Hd; try lia.
  rewrite Hd in *. change (105 - 53) with 52 in *.
  assert (Zpos (4503599627370496 * m) / 2 ^ 52 = Zpos m) as Hdiv
    by (rewrite Hprod, Z.mul_comm; apply Z.div_mul; lia).
  rewrite Hexact in Hval;
    [|done | rewrite Hprod, Z.mul_comm; apply Z.mod_mul; lia].
  rewrite Hdiv in Hval.
  assert (e3 = e) as ->.
  { destruct (Z.eq_dec e3 e); [done|].
    replace (e3 - (-52 + e + 52)) with 1 in Hval by lia.
    change (2 ^ 1) with 2 in Hval. lia. }
  replace (e - (-52 + e + 52)) with 0 in Hval by lia.
  rewrite Z.mul_1_r in Hval. by injection Hval as ->.
Qed.

(** A count below 2^53 survives the conversion to float and back. *)
Lemma int_of_float_of_Z (n : Z) :
  0 ≤ n < 2 ^ 53 → int_of_float (float_of_Z n) = Ok n.
Proof.
  intros Hn. destruct (Z.eq_dec n 0) as [->|Hn0]; [done|].
  destruct (float_of_Z_small n) as (m & -> & Hm & Hrange); [lia|].
  pose proof (Zdigits2_bounds n ltac:(lia)) as [Dlo Dhi].
  assert (0 < Zdigits2 n <= 53) as Hd.
  { split; [destruct n; simpl; lia|].
    destruct (Z_lt_le_dec 53 (Zdigits2 n)); [|lia].
    assert (2 ^ 53 <= 2 ^ (Zdigits2 n - 1)) by (apply Z.pow_le_mono_r; lia). lia. }
  cbn [int_of_float cond_Zopp]. f_equal.
  rewrite Z.shiftl_div_pow2 by lia. rewrite Hm.
  replace (- (Zdigits2 n - 53)) with (53 - Zdigits2 n) by lia.
  apply Z.div_mul. apply Z.pow_nonzero; lia.
Qed.

(** [int(1.0 * n)] and [int(0.0 * n)]. *)
Lemma mul_one_int (n : Z) :
  0 ≤ n < 2 ^ 53 → (x ← float_mul_int float_1 n; int_of_float x) = Ok n.
Proof.
  intros Hn. unfold float_mul_int.
  destruct (Z.eq_dec n 0) as [->|Hn0]; [done|].
  pose proof (int_of_float_of_Z n Hn) as Hback.
  destruct (float_of_int_small n) as (f & Hf & (m & e & -> & Hm & He) & _); [lia|].
  rewrite Hf. cbn [mbind result_bind]. rewrite float_mul_1_l by lia.
  unfold float_of_int in Hf.
  destruct (float_of_Z n) eqn:E; try done. congruence.
Qed.

Lemma mul_zero_int (n : Z) :
  0 ≤ n < 2 ^ 53 → (x ← float_mul_int (S754_zero false) n; int_of_float x) = Ok 0.
Proof.
  intros Hn. unfold float_mul_int.
  destruct (Z.eq_dec n 0) as [->|Hn0]; [done|].
  destruct (float_of_int_small n) as (f & -> & (m & e & -> & _) & _); [lia|].
  done.
Qed.

End RuntimeFacts.

(** ** AZYoloClassRemover2.py: further properties *)
Module ClassRemoverProps.
Import Py PyLemmas ClassRemover ClassRemoverSpec.

Lemma index_elem x l : x ∈ l → ∃ i, index x l = Some i.
Proof.
  intros Hin. destruct (index x l) as [i|] eqn:Hi; [by exists i|].
  by apply index_None in Hi.
Qed.

Lemma index_lookup x l i :
  index x l = Some i → l !! i = Some x ∧ ∀ j, (j < i)%nat → l !! j ≠ Some x.
Proof.
  intros Hi. destruct (index_Some _ _ _ Hi) as (Hl & Hnot & Hlt). split.
  - rewrite Hl. rewrite lookup_app_r by (rewrite length_take; lia).
    rewrite length_take. replace (i - i `min` length l)%nat with O by lia. done.
  - intros j Hj Hx. apply Hnot. apply list_elem_of_lookup. exists j.
    by rewrite lookup_take_lt.
Qed.

(** X1. [get_class_index] returns -1 exactly when the name is not in the
    list; otherwise it returns the position of the first occurrence: a
    valid index that holds the name, with no earlier position holding it. *)
Theorem get_class_index_first (classes : list string) (class_name : string) :
  (get_class_index classes class_name = -1 ↔ class_name ∉ classes)
  ∧ (class_name ∈ classes →
       let i := get_class_index classes class_name in
       0 ≤ i < Z.of_nat (length classes)
       ∧ classes !! Z.to_nat i = Some class_name
       ∧ ∀ j, (j < Z.to_nat i)%nat → classes !! j ≠ Some class_name).
Proof.
  unfold get_class_index. split.
  - destruct (index class_name classes) as [i|] eqn:Hi.
    + split; [lia|]. intros Hnot. destruct Hnot.
      destruct (index_lookup _ _ _ Hi) as [Hl _]. by eapply list_elem_of_lookup_2.
    + split; [|done]. intros _. by apply index_None.
  - intros Hin. destruct (index_elem _ _ Hin) as [i Hi]. rewrite Hi. simpl.
    destruct (index_Some _ _ _ Hi) as (_ & _ & Hlt).
    destruct (index_lookup _ _ _ Hi) as [Hl Hfirst].
    rewrite Nat2Z.id. split; [lia|]. done.
Qed.

Lemma get_class_index_first_witness :
  let i := get_class_index ["cat"; "dog"; "bird"; "dog"] "dog" in
  0 ≤ i < Z.of_nat (length ["cat"; "dog"; "bird"; "dog"])
  ∧ ["cat"; "dog"; "bird"; "dog"] !! Z.to_nat i = Some "dog"
  ∧ ∀ j, (j < Z.to_nat i)%nat → ["cat"; "dog"; "bird"; "dog"] !! j ≠ Some "dog".
Proof.
  apply (proj2 (get_class_index_first ["cat"; "dog"; "bird"; "dog"] "dog")).
  apply (bool_decide_unpack _). vm_compute. reflexivity.
Defined.

(** X2. [process_dataset] ends with an error box exactly when no yaml
    path is given, no class is selected, or the selected name is not among
    the names of data.yaml; in each of these cases nothing is written:
    data.yaml and every label file are as they were. *)
Theorem process_dataset_refusals (yaml_path selected_class : string) (ds : dataset) :
  let r := process_dataset yaml_path selected_class ds in
  ((∃ msg, r.2 = ShowError msg)
   ↔ yaml_path = "" ∨ selected_class = ""
     ∨ selected_class ∉ default [] (names (yaml ds)))
  ∧ ((∃ msg, r.2 = ShowError msg) → r.1 = ds).
Proof.
  unfold process_dataset.
  case_bool_decide as Hp; [simpl; split; [split; [auto | by eexists] | done]|].
  case_bool_decide as Hs; [simpl; split; [split; [auto | by eexists] | done]|].
  unfold get_class_index.
  destruct (index selected_class (default [] (names (yaml ds)))) as [i|] eqn:Hi.
  - rewrite bool_decide_eq_false_2 by lia.
    destruct_update_splits dirs e. simpl.
    assert (¬ ∃ msg, match e with Some x => Uncaught x
                     | None => ShowInfo ("Class '" +:+ selected_class
                          +:+ "' removed successfully from the dataset.") end
                     = ShowError msg) as Hno
      by (intros [msg Hm]; by destruct e).
    split; [|by intros H; destruct (Hno H)].
    split; [by intros H; destruct (Hno H)|].
    intros [?|[?|Hnot]]; [done..|]. destruct Hnot.
    destruct (index_lookup _ _ _ Hi) as [Hl _]. by eapply list_elem_of_lookup_2.
  - rewrite bool_decide_eq_true_2 by done. simpl.
    split; [|done]. split; [|by eexists].
    intros _. right. right. by apply index_None.
Qed.

(** X3. The table built after the pop is defined exactly on the old
    indices [0 .. old count - 1]; away from the removed index it is a
    bijection onto the new indices [0 .. new count - 1]: every kept index
    gets a valid new index, two kept indices never get the same one, and
    every new index is reached. *)
Theorem class_map_bijection (r : Z) (classes : list string) :
  0 ≤ r ≤ Z.of_nat (length classes) →
  let class_map := make_class_map r classes in
  (∀ i, is_Some (class_map !! i) ↔ 0 ≤ i ≤ Z.of_nat (length classes))
  ∧ (∀ i j, i ≠ r → class_map !! i = Some j → 0 ≤ j < Z.of_nat (length classes))
  ∧ (∀ i i' j, i ≠ r → i' ≠ r →
       class_map !! i = Some j → class_map !! i' = Some j → i = i')
  ∧ (∀ j, 0 ≤ j < Z.of_nat (length classes) →
       ∃ i, i ≠ r ∧ class_map !! i = Some j).
Proof.
  intros Hr class_map. unfold class_map. split; [|split; [|split]].
  - intros i. rewrite class_map_lookup. case_bool_decide as Hd.
    + split; [done | by eexists].
    + split; [by intros [? ?] | done].
  - intros i j Hi. rewrite class_map_lookup. case_bool_decide; [|done].
    intros [= <-]. unfold remap. destruct (Z.ltb_spec i r); lia.
  - intros i i' j Hi Hi'. rewrite !class_map_lookup.
    repeat case_bool_decide; try done. intros [= <-] [= Heq].
    unfold remap in Heq. destruct (Z.ltb_spec i r), (Z.ltb_spec i' r); lia.
  - intros j Hj. exists (if j <? r then j else j + 1).
    rewrite class_map_lookup. unfold remap.
    destruct (Z.ltb_spec j r).
    + split; [lia|]. rewrite bool_decide_eq_true_2 by lia.
      destruct (Z.ltb_spec j r); [done | lia].
    + split; [lia|]. rewrite bool_decide_eq_true_2 by lia.
      destruct (Z.ltb_spec (j + 1) r); [lia|]. f_equal. lia.
Qed.

Lemma class_map_bijection_witness :
  let class_map := make_class_map 1 ["cat"; "bird"] in
  (∀ i, is_Some (class_map !! i) ↔ 0 ≤ i ≤ Z.of_nat (length ["cat"; "bird"]))
  ∧ (∀ i j, i ≠ 1 → class_map !! i = Some j
            → 0 ≤ j < Z.of_nat (length ["cat"; "bird"]))
  ∧ (∀ i i' j, i ≠ 1 → i' ≠ 1 →
       class_map !! i = Some j → class_map !! i' = Some j → i = i')
  ∧ (∀ j, 0 ≤ j < Z.of_nat (length ["cat"; "bird"]) →
       ∃ i, i ≠ 1 ∧ class_map !! i = Some j).
Proof. apply (class_map_bijection 1 ["cat"; "bird"]). simpl. lia. Defined.

(** ** The rewrite as a function, on lines the loop can process *)

Lemma wf_line_parts count line :
  wf_line count line →
  ∃ t rest i, split line = t :: rest ∧ int_of_str t = Ok i ∧ 0 ≤ i < count
              ∧ Forall token rest.
Proof.
  intros (i & Hlead & Hi). unfold leading_index in Hlead.
  pose proof (split_tokens line) as Htok.
  destruct (split line) as [|t rest]; [done|].
  destruct (int_of_str t) as [i'|] eqn:Hint; [|done].
  injection Hlead as ->. exists t, rest, i. repeat split; try done; try lia.
  by apply Forall_inv_tail in Htok.
Qed.

Lemma rewrite_line_eval r classes line :
  wf_line (Z.of_nat (length classes) + 1) line →
  rewrite_line r (make_class_map r classes) line = Ok (rewritten_line r line).
Proof.
  intros Hwf. destruct (wf_line_parts _ _ Hwf) as (t & rest & i & Hs & Hi & Hb & _).
  unfold rewrite_line, rewritten_line. rewrite Hs, Hi. cbn [mbind result_bind].
  case_bool_decide; [|done].
  rewrite class_map_lookup. by rewrite bool_decide_eq_true_2 by lia.
Qed.

Lemma rewrite_lines_eval r classes lines :
  Forall (wf_line (Z.of_nat (length classes) + 1)) lines →
  rewrite_lines r (make_class_map r classes) lines
  = Ok (omap (rewritten_line r) lines).
Proof.
  induction 1 as [|line lines Hline _ IH]; [done|].
  cbn [rewrite_lines omap list_omap]. rewrite rewrite_line_eval by done.
  cbn [mbind result_bind]. rewrite IH. cbn [mbind result_bind].
  by destruct (rewritten_line r line).
Qed.

Lemma split_render_line j rest :
  Forall token rest → split (render_line j rest) = str_of_int j :: rest.
Proof.
  intros Hrest. unfold render_line. apply split_join_line.
  constructor; [apply str_of_int_token | done].
Qed.

Lemma rewritten_line_render r j rest :
  Forall token rest →
  rewritten_line r (render_line j rest)
  = if bool_decide (j ≠ r) then Some (render_line (remap r j) rest) else None.
Proof.
  intros Hrest. unfold rewritten_line.
  by rewrite split_render_line, int_of_str_of_int by done.
Qed.

Lemma rewritten_line_terminates r line new :
  rewritten_line r line = Some new → terminated_line new.
Proof.
  unfold rewritten_line. pose proof (split_tokens line) as Htok.
  destruct (split line) as [|t rest]; [done|].
  destruct (int_of_str t) as [i|]; [|done]. case_bool_decide; [|done].
  intros [= <-]. apply rewritten_line_terminated.
  constructor; [apply str_of_int_token | by apply Forall_inv_tail in Htok].
Qed.

Lemma rewritten_lines_terminated r lines :
  Forall terminated_line (omap (rewritten_line r) lines).
Proof.
  induction lines as [|line lines IH]; [constructor|].
  cbn [omap list_omap]. destruct (rewritten_line r line) eqn:Hl; [|done].
  constructor; [by eapply rewritten_line_terminates | done].
Qed.

Lemma readlines_rewritten_text r text :
  readlines (rewritten_text r text) = omap (rewritten_line r) (readlines text).
Proof. apply readlines_writelines, rewritten_lines_terminated. Qed.

Lemma rewritten_line_wf count r line new :
  0 ≤ r < count → wf_line count line →
  rewritten_line r line = Some new → wf_line (count - 1) new.
Proof.
  intros Hr Hwf. destruct (wf_line_parts _ _ Hwf) as (t & rest & i & Hs & Hi & Hb & Hrest).
  unfold rewritten_line. rewrite Hs, Hi. case_bool_decide; [|done].
  intros [= <-]. exists (remap r i). split.
  - unfold leading_index. by rewrite split_render_line, int_of_str_of_int.
  - unfold remap. destruct (Z.ltb_spec i r); lia.
Qed.

Lemma rewritten_lines_wf count r lines :
  0 ≤ r < count → Forall (wf_line count) lines →
  Forall (wf_line (count - 1)) (omap (rewritten_line r) lines).
Proof.
  intros Hr. induction 1 as [|line lines Hline _ IH]; [constructor|].
  cbn [omap list_omap]. destruct (rewritten_line r line) eqn:Hl; [|done].
  constructor; [by eapply rewritten_line_wf | done].
Qed.

Lemma rewrite_file_eval r classes text :
  Forall (wf_line (Z.of_nat (length classes) + 1)) (readlines text) →
  rewrite_file r (make_class_map r classes) text = Ok (rewritten_text r text).
Proof.
  intros Hwf. unfold rewrite_file. by rewrite rewrite_lines_eval.
Qed.

Lemma update_labels_eval r classes dir :
  wf_dir (Z.of_nat (length classes) + 1) dir →
  update_labels dir r (make_class_map r classes) = (rewritten_dir r dir, None).
Proof.
  induction 1 as [|[file text] dir Hfile _ IH]; [done|].
  cbn [update_labels rewritten_dir fmap list_fmap fst snd].
  destruct (endswith file ".txt") eqn:Hext.
  - rewrite rewrite_file_eval by (by apply Hfile).
    fold (rewritten_dir r dir) in *. unfold rewritten_dir in IH. by rewrite IH.
  - unfold rewritten_dir in IH. by rewrite IH.
Qed.

Lemma rewritten_dir_wf count r dir :
  0 ≤ r < count → wf_dir count dir → wf_dir (count - 1) (rewritten_dir r dir).
Proof.
  intros Hr. unfold wf_dir, rewritten_dir. intros Hwf.
  apply Forall_fmap. eapply Forall_impl; [exact Hwf|].
  intros [file text] Hfile. unfold compose. cbn [fst snd] in *.
  destruct (endswith file ".txt") eqn:Hext; cbn [fst snd]; intros Hext'.
  - rewrite readlines_rewritten_text. apply rewritten_lines_wf; [done | by apply Hfile].
  - congruence.
Qed.

Lemma update_splits_eval r classes splits : ∀ dirs,
  NoDup splits →
  (∀ sp d, sp ∈ splits → dirs !! sp = Some d →
           wf_dir (Z.of_nat (length classes) + 1) d) →
  ∃ dirs',
    update_splits splits r (make_class_map r classes) dirs = (dirs', None)
    ∧ ∀ sp, dirs' !! sp
            = if bool_decide (sp ∈ splits) then rewritten_dir r <$> dirs !! sp
              else dirs !! sp.
Proof.
  induction splits as [|split splits IH]; intros dirs Hnd Hwf.
  - exists dirs. split; [done|]. intros sp.
    rewrite bool_decide_eq_false_2; [done | apply not_elem_of_nil].
  - apply NoDup_cons in Hnd as [Hnotin Hnd]. cbn [update_splits].
    destruct (dirs !! split) as [dir|] eqn:Hdir.
    + rewrite update_labels_eval by (eapply Hwf; [left | done]).
      destruct (IH (<[split := rewritten_dir r dir]> dirs) Hnd) as (dirs' & -> & Hlook).
      { intros sp d Hin. rewrite lookup_insert_ne by (by intros ->).
        apply Hwf. by right. }
      exists dirs'. split; [done|]. intros sp. rewrite Hlook.
      destruct (decide (sp = split)) as [->|Hne].
      * rewrite (bool_decide_eq_false_2 (split ∈ splits)) by done.
        rewrite (bool_decide_eq_true_2 (split ∈ split :: splits)) by left.
        by rewrite lookup_insert_eq, Hdir.
      * rewrite lookup_insert_ne by done.
        apply (f_equal (λ b : bool, if b then _ else _)).
        apply bool_decide_ext. rewrite elem_of_cons. intuition congruence.
    + destruct (IH dirs Hnd) as (dirs' & -> & Hlook).
      { intros sp d Hin. apply Hwf. by right. }
      exists dirs'. split; [done|]. intros sp. rewrite Hlook.
      destruct (decide (sp = split)) as [->|Hne].
      * rewrite (bool_decide_eq_false_2 (split ∈ splits)) by done.
        rewrite (bool_decide_eq_true_2 (split ∈ split :: splits)) by left.
        by rewrite Hdir.
      * apply (f_equal (λ b : bool, if b then _ else _)).
        apply bool_decide_ext. rewrite elem_of_cons. intuition congruence.
Qed.

Local Arguments update_splits : simpl never.

(** The whole run on a dataset whose label lines can all be processed. *)
Lemma process_dataset_eval yaml_path selected_class ds old_names k :
  yaml_path ≠ "" → selected_class ≠ "" →
  names (yaml ds) = Some old_names →
  index selected_class old_names = Some k →
  (∀ split dir, split ∈ all_splits → labels ds !! split = Some dir →
                wf_dir (Z.of_nat (length old_names)) dir) →
  ∃ dirs',
    process_dataset yaml_path selected_class ds
    = ({| yaml := {| names := Some (delete k old_names);
                     nc := Some (Z.of_nat (length (delete k old_names)));
                     other_keys := other_keys (yaml ds) |};
          labels := dirs' |},
       ShowInfo ("Class '" +:+ selected_class
                 +:+ "' removed successfully from the dataset."))
    ∧ ∀ sp, dirs' !! sp
            = if bool_decide (sp ∈ all_splits)
              then rewritten_dir (Z.of_nat k) <$> labels ds !! sp
              else labels ds !! sp.
Proof.
  intros Hpath Hsel Hnames Hk Hwf. unfold process_dataset.
  rewrite !bool_decide_eq_false_2 by done. rewrite Hnames. simpl.
  unfold get_class_index. rewrite Hk.
  rewrite bool_decide_eq_false_2 by lia. rewrite Nat2Z.id.
  destruct (index_Some _ _ _ Hk) as (_ & _ & Hlt).
  destruct (update_splits_eval (Z.of_nat k) (delete k old_names) all_splits
              (labels ds) all_splits_NoDup) as (dirs' & -> & Hlook).
  { intros sp d Hsp Hd.
    rewrite length_delete by (by apply lookup_lt_is_Some).
    replace (Z.of_nat (length old_names - 1) + 1) with (Z.of_nat (length old_names))
      by lia.
    by eapply Hwf. }
  by exists dirs'.
Qed.

(** X4. A removal keeps the dataset consistent: when every label line of
    the existing splits has a leading index below the old class count, then
    after the run every line that is left has a leading index below the new
    class count, the length of the saved names list.  So another class can
    be removed from the result. *)
Theorem removal_keeps_labels_well_formed (yaml_path selected_class : string)
    (ds : dataset) (old_names : list string) :
  yaml_path ≠ "" → selected_class ≠ "" →
  names (yaml ds) = Some old_names → selected_class ∈ old_names →
  (∀ split dir, split ∈ all_splits → labels ds !! split = Some dir →
                wf_dir (Z.of_nat (length old_names)) dir) →
  let ds' := (process_dataset yaml_path selected_class ds).1 in
  ∃ new_names,
    names (yaml ds') = Some new_names
    ∧ Z.of_nat (length new_names) = Z.of_nat (length old_names) - 1
    ∧ ∀ split dir', split ∈ all_splits → labels ds' !! split = Some dir' →
        wf_dir (Z.of_nat (length new_names)) dir'.
Proof.
  intros Hpath Hsel Hnames Hin Hwf.
  destruct (index_elem _ _ Hin) as [k Hk].
  destruct (index_Some _ _ _ Hk) as (_ & _ & Hlt).
  destruct (process_dataset_eval _ _ _ _ _ Hpath Hsel Hnames Hk Hwf)
    as (dirs' & -> & Hlook).
  cbn [fst yaml names labels]. exists (delete k old_names).
  assert (Z.of_nat (length (delete k old_names)) = Z.of_nat (length old_names) - 1)
    as Hlen by (rewrite length_delete by (by apply lookup_lt_is_Some); lia).
  split; [done|]. split; [done|].
  intros split dir' Hsp. rewrite Hlook, bool_decide_eq_true_2 by done.
  destruct (labels ds !! split) as [dir|] eqn:Hdir; [|done].
  intros [= <-]. rewrite Hlen. apply rewritten_dir_wf; [lia | by eapply Hwf].
Qed.

Ltac compute_lines :=
  match goal with
  | |- Forall _ ?l => let l' := eval vm_compute in l in change l with l'
  end.
Ltac wf_line_at i := exists i; split; [vm_compute; reflexivity | simpl; lia].

Ltac sample_dataset_wf :=
  let split := fresh "split" in
  let dir := fresh "dir" in
  let Hsplit := fresh "Hsplit" in
  let Hdir := fresh "Hdir" in
  intros split dir Hsplit Hdir;
  unfold all_splits in Hsplit; rewrite !elem_of_cons in Hsplit;
  destruct Hsplit as [-> | [-> | [-> | Hsplit]]];
    [| | | by apply elem_of_nil in Hsplit];
  vm_compute in Hdir; [| discriminate |]; injection Hdir as <-;
  [ constructor; [|constructor; [|constructor]];
    [ intros _; compute_lines;
      constructor; [wf_line_at 0|constructor; [wf_line_at 1|
        constructor; [wf_line_at 2|constructor]]]
    | let Hext := fresh in intros Hext; vm_compute in Hext; discriminate ]
  | constructor; [|constructor];
    intros _; compute_lines;
    constructor; [wf_line_at 1|constructor; [wf_line_at 2|constructor]] ].

Lemma removal_keeps_labels_well_formed_witness :
  let ds' := (process_dataset "data.yaml" "dog" sample_dataset).1 in
  ∃ new_names,
    names (yaml ds') = Some new_names
    ∧ Z.of_nat (length new_names) = Z.of_nat (length ["cat"; "dog"; "bird"]) - 1
    ∧ ∀ split dir', split ∈ all_splits → labels ds' !! split = Some dir' →
        wf_dir (Z.of_nat (length new_names)) dir'.
Proof.
  apply (removal_keeps_labels_well_formed "data.yaml" "dog" sample_dataset
           ["cat"; "dog"; "bird"]).
  - discriminate.
  - discriminate.
  - reflexivity.
  - apply (bool_decide_unpack _). vm_compute. reflexivity.
  - sample_dataset_wf.
Defined.

(** ** Two removals *)

Lemma omap_omap {A B C} (f : A → option B) (g : B → option C) (l : list A) :
  omap g (omap f l) = omap (λ x, f x ≫= g) l.
Proof.
  induction l as [|x l IH]; [done|]. cbn [omap list_omap].
  destruct (f x) as [y|]; cbn [omap list_omap mbind option_bind]; by rewrite IH.
Qed.

Lemma omap_ext_Forall {A B} (P : A → Prop) (f g : A → option B) (l : list A) :
  Forall P l → (∀ x, P x → f x = g x) → omap f l = omap g l.
Proof.
  intros Hl Hfg. induction Hl as [|x l Hx _ IH]; [done|].
  cbn [omap list_omap]. by rewrite (Hfg x Hx), IH.
Qed.

Lemma rewritten_line_parts r line t rest i :
  split line = t :: rest → int_of_str t = Ok i →
  rewritten_line r line
  = if bool_decide (i ≠ r) then Some (render_line (remap r i) rest) else None.
Proof. intros Hs Hi. unfold rewritten_line. by rewrite Hs, Hi. Qed.

(** One line, the two orders. *)
Lemma rewritten_line_commute count ra rb line :
  wf_line count line → ra ≠ rb →
  rewritten_line ra line ≫= rewritten_line (remap ra rb)
  = rewritten_line rb line ≫= rewritten_line (remap rb ra).
Proof.
  intros Hwf Hne.
  destruct (wf_line_parts _ _ Hwf) as (t & rest & i & Hs & Hi & _ & Hrest).
  rewrite (rewritten_line_parts ra line t rest i Hs Hi).
  rewrite (rewritten_line_parts rb line t rest i Hs Hi).
  assert (∀ r r' j, j ≠ r → r' ≠ r → (remap r j = remap r r' ↔ j = r')) as Hinj.
  { intros r r' j ? ?. unfold remap.
    destruct (Z.ltb_spec j r), (Z.ltb_spec r' r); lia. }
  assert (i ≠ ra → i ≠ rb →
          remap (remap ra rb) (remap ra i) = remap (remap rb ra) (remap rb i)) as Hcomp.
  { intros ? ?. unfold remap.
    destruct (Z.ltb_spec i ra), (Z.ltb_spec i rb), (Z.ltb_spec rb ra),
      (Z.ltb_spec ra rb); try lia;
      repeat match goal with |- context [?a <? ?b] => destruct (Z.ltb_spec a b) end;
      lia. }
  destruct (decide (i = ra)) as [->|Hia]; [|destruct (decide (i = rb)) as [->|Hib]].
  - rewrite (bool_decide_eq_false_2 (ra ≠ ra)) by (by intros []).
    rewrite (bool_decide_eq_true_2 (ra ≠ rb)) by done.
    cbn [mbind option_bind]. rewrite rewritten_line_render by done.
    by rewrite bool_decide_eq_false_2 by (by intros []).
  - rewrite (bool_decide_eq_false_2 (rb ≠ rb)) by (by intros []).
    rewrite (bool_decide_eq_true_2 (rb ≠ ra)) by done.
    cbn [mbind option_bind]. rewrite rewritten_line_render by done.
    by rewrite bool_decide_eq_false_2 by (by intros []).
  - rewrite !bool_decide_eq_true_2 by done. cbn [mbind option_bind].
    rewrite !rewritten_line_render by done.
    rewrite !bool_decide_eq_true_2 by (rewrite Hinj; done).
    by rewrite Hcomp.
Qed.

Lemma rewritten_text_commute count ra rb text :
  Forall (wf_line count) (readlines text) → ra ≠ rb →
  rewritten_text (remap ra rb) (rewritten_text ra text)
  = rewritten_text (remap rb ra) (rewritten_text rb text).
Proof.
  intros Hwf Hne. unfold rewritten_text at 1 3.
  rewrite !readlines_rewritten_text, !omap_omap. f_equal.
  eapply omap_ext_Forall; [exact Hwf|].
  intros line Hline. by eapply rewritten_line_commute.
Qed.

Lemma rewritten_dir_commute count ra rb dir :
  wf_dir count dir → ra ≠ rb →
  rewritten_dir (remap ra rb) (rewritten_dir ra dir)
  = rewritten_dir (remap rb ra) (rewritten_dir rb dir).
Proof.
  intros Hwf Hne. unfold rewritten_dir. rewrite <- !list_fmap_compose.
  apply Forall_fmap_ext_1. eapply Forall_impl; [exact Hwf|].
  intros [file text] Hfile. unfold compose. cbn [fst snd] in *.
  destruct (endswith file ".txt") eqn:Hext; cbn [fst snd]; rewrite Hext; [|done].
  f_equal. eapply rewritten_text_commute; [by apply Hfile | done].
Qed.

Lemma delete_cons_S {A} (n : nat) (x : A) (l : list A) :
  delete (S n) (x :: l) = x :: delete n l.
Proof. reflexivity. Qed.

(** The positions of two names after one of them is popped. *)
Lemma index_delete_other a b : a ≠ b → ∀ l ia ib,
  index a l = Some ia → index b l = Some ib →
  ia ≠ ib
  ∧ index b (delete ia l) = Some (if (ib <? ia)%nat then ib else (ib - 1)%nat)
  ∧ index a (delete ib l) = Some (if (ia <? ib)%nat then ia else (ia - 1)%nat)
  ∧ delete (if (ib <? ia)%nat then ib else (ib - 1)%nat) (delete ia l)
    = delete (if (ia <? ib)%nat then ia else (ia - 1)%nat) (delete ib l).
Proof.
  intros Hab. induction l as [|y l IH]; intros ia ib Ha Hb; [done|].
  cbn [index] in Ha, Hb.
  destruct (String.eqb_spec y a) as [Hya|Hya], (String.eqb_spec y b) as [Hyb|Hyb];
    try subst y.
  - done.
  - injection Ha as <-.
    destruct (index b l) as [j|] eqn:Hj; [|done]. injection Hb as <-.
    split; [done|]. cbn [delete list_delete Nat.ltb Nat.leb index].
    rewrite Hj. replace (S j - 1)%nat with j by lia.
    rewrite (proj2 (String.eqb_eq a a)) by done. done.
  - injection Hb as <-.
    destruct (index a l) as [i|] eqn:Hi; [|done]. injection Ha as <-.
    split; [done|]. cbn [delete list_delete Nat.ltb Nat.leb index].
    rewrite Hi. replace (S i - 1)%nat with i by lia.
    rewrite (proj2 (String.eqb_eq b b)) by done. done.
  - destruct (index a l) as [i|] eqn:Hi; [|done]. injection Ha as <-.
    destruct (index b l) as [j|] eqn:Hj; [|done]. injection Hb as <-.
    destruct (IH i j eq_refl eq_refl) as (Hne & Hb' & Ha' & Hdel).
    split; [lia|]. rewrite !delete_cons_S. cbn [index].
    rewrite (proj2 (String.eqb_neq y a)), (proj2 (String.eqb_neq y b)) by done.
    rewrite Hb', Ha'. cbn [fmap option_fmap option_map].
    change (S j <? S i)%nat with (j <? i)%nat.
    change (S i <? S j)%nat with (i <? j)%nat.
    destruct (Nat.ltb_spec j i), (Nat.ltb_spec i j); try lia.
    + split; [done|]. split; [f_equal; lia|].
      replace (S i - 1)%nat with (S (i - 1)) by lia.
      rewrite !delete_cons_S. by rewrite Hdel.
    + split; [f_equal; lia|]. split; [done|].
      replace (S j - 1)%nat with (S (j - 1)) by lia.
      rewrite !delete_cons_S. by rewrite Hdel.
Qed.

(** X5. Two removals commute: on a dataset whose label lines all have a
    leading index below the class count, removing [a] and then [b] leaves
    the same data.yaml and the same label files as removing [b] and then
    [a], and all four runs end with the success box. *)
Theorem removals_commute (yaml_path a b : string) (ds : dataset)
    (old_names : list string) :
  yaml_path ≠ "" → a ≠ "" → b ≠ "" → a ≠ b →
  names (yaml ds) = Some old_names → a ∈ old_names → b ∈ old_names →
  (∀ split dir, split ∈ all_splits → labels ds !! split = Some dir →
                wf_dir (Z.of_nat (length old_names)) dir) →
  let after_a := process_dataset yaml_path a ds in
  let after_b := process_dataset yaml_path b ds in
  let after_ab := process_dataset yaml_path b after_a.1 in
  let after_ba := process_dataset yaml_path a after_b.1 in
  (∃ msg, after_ab.2 = ShowInfo msg) ∧ (∃ msg, after_ba.2 = ShowInfo msg)
  ∧ after_ab.1 = after_ba.1.
Proof.
  intros Hpath Ha Hb Hab Hnames Hina Hinb Hwf.
  destruct (index_elem _ _ Hina) as [ia Hia].
  destruct (index_elem _ _ Hinb) as [ib Hib].
  destruct (index_Some _ _ _ Hia) as (_ & _ & Hlta).
  destruct (index_Some _ _ _ Hib) as (_ & _ & Hltb).
  destruct (index_delete_other a b Hab old_names ia ib Hia Hib)
    as (Hne & Hib' & Hia' & Hdel).
  set (ib' := if (ib <? ia)%nat then ib else (ib - 1)%nat) in *.
  set (ia' := if (ia <? ib)%nat then ia else (ia - 1)%nat) in *.
  assert (Z.of_nat ib' = remap (Z.of_nat ia) (Z.of_nat ib)) as Hzb.
  { unfold ib', remap.
    destruct (Nat.ltb_spec ib ia), (Z.ltb_spec (Z.of_nat ib) (Z.of_nat ia)); lia. }
  assert (Z.of_nat ia' = remap (Z.of_nat ib) (Z.of_nat ia)) as Hza.
  { unfold ia', remap.
    destruct (Nat.ltb_spec ia ib), (Z.ltb_spec (Z.of_nat ia) (Z.of_nat ib)); lia. }
  assert (∀ k, (k < length old_names)%nat →
            Z.of_nat (length (delete k old_names)) = Z.of_nat (length old_names) - 1)
    as Hlen by (intros k Hk; rewrite length_delete by (by apply lookup_lt_is_Some); lia).
  intros after_a after_b after_ab after_ba.
  destruct (process_dataset_eval _ _ _ _ _ Hpath Ha Hnames Hia Hwf)
    as (dirs_a & Hrun_a & Hlook_a).
  destruct (process_dataset_eval _ _ _ _ _ Hpath Hb Hnames Hib Hwf)
    as (dirs_b & Hrun_b & Hlook_b).
  assert (∀ (r : nat) (dirs : gmap string label_dir), (r < length old_names)%nat →
            (∀ sp, dirs !! sp = if bool_decide (sp ∈ all_splits)
                                then rewritten_dir (Z.of_nat r) <$> labels ds !! sp
                                else labels ds !! sp) →
            ∀ split dir, split ∈ all_splits → dirs !! split = Some dir →
              wf_dir (Z.of_nat (length (delete r old_names))) dir) as Hwf'.
  { intros r dirs Hr Hlook split dir Hsp.
    rewrite Hlook, bool_decide_eq_true_2 by done.
    destruct (labels ds !! split) as [d|] eqn:Hd; [|done]. intros [= <-].
    rewrite Hlen by done. apply rewritten_dir_wf; [lia | by eapply Hwf]. }
  destruct (process_dataset_eval yaml_path b after_a.1 (delete ia old_names) ib')
    as (dirs_ab & Hrun_ab & Hlook_ab); try done.
  { unfold after_a. by rewrite Hrun_a. }
  { unfold after_a. rewrite Hrun_a. cbn [fst labels]. by apply Hwf'. }
  destruct (process_dataset_eval yaml_path a after_b.1 (delete ib old_names) ia')
    as (dirs_ba & Hrun_ba & Hlook_ba); try done.
  { unfold after_b. by rewrite Hrun_b. }
  { unfold after_b. rewrite Hrun_b. cbn [fst labels]. by apply Hwf'. }
  unfold after_ab, after_ba. rewrite Hrun_ab, Hrun_ba. cbn [fst snd].
  split; [by eexists|]. split; [by eexists|].
  unfold after_a, after_b. rewrite Hrun_a, Hrun_b. cbn [fst yaml other_keys].
  rewrite Hdel. f_equal. apply map_eq. intros sp.
  rewrite Hlook_ab, Hlook_ba. unfold after_a, after_b.
  rewrite Hrun_a, Hrun_b. cbn [fst labels]. rewrite Hlook_a, Hlook_b.
  case_bool_decide as Hsp; [|done].
  destruct (labels ds !! sp) as [d|] eqn:Hd; [|done].
  cbn [fmap option_fmap option_map]. f_equal. rewrite Hzb, Hza.
  eapply rewritten_dir_commute; [by eapply Hwf | lia].
Qed.

Lemma removals_commute_witness :
  let after_a := process_dataset "data.yaml" "dog" sample_dataset in
  let after_b := process_dataset "data.yaml" "cat" sample_dataset in
  let after_ab := process_dataset "data.yaml" "cat" after_a.1 in
  let after_ba := process_dataset "data.yaml" "dog" after_b.1 in
  (∃ msg, after_ab.2 = ShowInfo msg) ∧ (∃ msg, after_ba.2 = ShowInfo msg)
  ∧ after_ab.1 = after_ba.1.
Proof.
  apply (removals_commute "data.yaml" "dog" "cat" sample_dataset
           ["cat"; "dog"; "bird"]).
  - discriminate.
  - discriminate.
  - discriminate.
  - discriminate.
  - reflexivity.
  - apply (bool_decide_unpack _). vm_compute. reflexivity.
  - apply (bool_decide_unpack _). vm_compute. reflexivity.
  - sample_dataset_wf.
Defined.

(** ** A run that is stopped by an exception *)

Lemma update_labels_fail r classes e : ∀ dir dir',
  update_labels dir r (make_class_map r classes) = (dir', Some e) →
  ∃ pre pre' file text rest,
    dir = pre ++ (file, text) :: rest
    ∧ dir' = pre' ++ (file, text) :: rest
    ∧ endswith file ".txt" = true
    ∧ rewrite_file r (make_class_map r classes) text = Raise e
    ∧ dir_rewritten r pre pre'.
Proof.
  induction dir as [|[file text] dir IH]; intros dir' Hrun; [done|].
  cbn [update_labels] in Hrun.
  destruct (endswith file ".txt") eqn:Hext.
  - destruct (rewrite_file r (make_class_map r classes) text) as [text'|x] eqn:Hfile.
    + destruct (update_labels dir r (make_class_map r classes)) as [done e'] eqn:Hrest.
      injection Hrun as <- ->.
      destruct (IH done eq_refl) as (pre & pre' & f & t & rest & -> & -> & ? & ? & Hpre).
      exists ((file, text) :: pre), ((file, text') :: pre'), f, t, rest.
      repeat split; try done. constructor; [|done]. cbn [fst snd].
      split; [done|]. rewrite Hext. by eapply rewrite_file_spec.
    + injection Hrun as <- <-.
      exists [], [], file, text, dir. repeat split; try done. constructor.
  - destruct (update_labels dir r (make_class_map r classes)) as [done e'] eqn:Hrest.
    injection Hrun as <- ->.
    destruct (IH done eq_refl) as (pre & pre' & f & t & rest & -> & -> & ? & ? & Hpre).
    exists ((file, text) :: pre), ((file, text) :: pre'), f, t, rest.
    repeat split; try done. constructor; [|done]. cbn [fst snd].
    split; [done|]. by rewrite Hext.
Qed.

Lemma update_splits_cons split splits r cm dirs :
  update_splits (split :: splits) r cm dirs
  = match dirs !! split with
    | Some dir =>
        let '(dir', e) := update_labels dir r cm in
        let dirs' := <[split := dir']> dirs in
        match e with
        | Some x => (dirs', Some x)
        | None => update_splits splits r cm dirs'
        end
    | None => update_splits splits r cm dirs
    end.
Proof. reflexivity. Qed.

Lemma update_splits_fail r classes e splits : ∀ dirs dirs',
  NoDup splits →
  update_splits splits r (make_class_map r classes) dirs = (dirs', Some e) →
  ∃ done split todo dir dir',
    splits = done ++ split :: todo
    ∧ dirs !! split = Some dir
    ∧ update_labels dir r (make_class_map r classes) = (dir', Some e)
    ∧ dirs' !! split = Some dir'
    ∧ (∀ sp, sp ∈ todo → dirs' !! sp = dirs !! sp)
    ∧ (∀ sp, sp ∉ splits → dirs' !! sp = dirs !! sp)
    ∧ (∀ sp d, sp ∈ done → dirs !! sp = Some d →
         ∃ d', dirs' !! sp = Some d' ∧ dir_rewritten r d d').
Proof.
  induction splits as [|split splits IH]; intros dirs dirs' Hnd Hrun; [done|].
  apply NoDup_cons in Hnd as [Hnotin Hnd]. rewrite update_splits_cons in Hrun.
  destruct (dirs !! split) as [dir|] eqn:Hdir.
  - destruct (update_labels dir r (make_class_map r classes)) as [dir' e'] eqn:Hlab.
    destruct e' as [x|].
    + injection Hrun as <- <-.
      exists [], split, splits, dir, dir'. repeat split; try done.
      * by rewrite lookup_insert_eq.
      * intros sp Hsp. rewrite lookup_insert_ne; [done | by intros ->].
      * intros sp Hsp. rewrite lookup_insert_ne; [done|].
        intros ->. apply Hsp. by left.
      * intros sp d Hsp. by apply elem_of_nil in Hsp.
    + destruct (IH _ _ Hnd Hrun)
        as (done & sp0 & todo & d0 & d0' & -> & Hd0 & Hfail & Hd0' & Htodo & Hout & Hdone).
      assert (sp0 ≠ split) as Hne.
      { intros ->. apply Hnotin. apply elem_of_app. right. by left. }
      rewrite lookup_insert_ne in Hd0 by done.
      exists (split :: done), sp0, todo, d0, d0'. repeat split; try done.
      * intros sp Hsp. rewrite Htodo by done. rewrite lookup_insert_ne; [done|].
        intros ->. apply Hnotin. apply elem_of_app. right. by right.
      * intros sp Hsp. rewrite Hout by (intros ?; apply Hsp; by right).
        rewrite lookup_insert_ne; [done|]. intros ->. apply Hsp. by left.
      * intros sp d Hsp Hd. apply elem_of_cons in Hsp as [->|Hsp].
        -- rewrite Hdir in Hd. injection Hd as <-. exists dir'.
           rewrite Hout by done. rewrite lookup_insert_eq. split; [done|].
           by eapply update_labels_spec.
        -- apply (Hdone sp d Hsp). rewrite lookup_insert_ne; [done|].
           intros ->. apply Hnotin. apply elem_of_app. by left.
  - destruct (IH _ _ Hnd Hrun)
      as (done & sp0 & todo & d0 & d0' & -> & Hd0 & Hfail & Hd0' & Htodo & Hout & Hdone).
    exists (split :: done), sp0, todo, d0, d0'. repeat split; try done.
    + intros sp Hsp. apply Hout. intros ?. apply Hsp. by right.
    + intros sp d Hsp Hd. apply elem_of_cons in Hsp as [->|Hsp].
      * congruence.
      * by apply Hdone.
Qed.

(** X6. A run that is ended by an exception is not undone: data.yaml is
    already saved without the class; the splits before the failing one are
    rewritten, in the failing directory the files listed before the
    offending file are rewritten, the offending file and the files after it
    are as they were, and so are the splits that follow. *)
Theorem failed_run_is_partial (yaml_path selected_class : string) (ds : dataset)
    (e : exn) :
  (process_dataset yaml_path selected_class ds).2 = Uncaught e →
  let old_names := default [] (names (yaml ds)) in
  let r := get_class_index old_names selected_class in
  let new_names := delete (Z.to_nat r) old_names in
  let ds' := (process_dataset yaml_path selected_class ds).1 in
  names (yaml ds') = Some new_names
  ∧ nc (yaml ds') = Some (Z.of_nat (length new_names))
  ∧ ∃ done split todo pre pre' file text rest,
      all_splits = done ++ split :: todo
      ∧ labels ds !! split = Some (pre ++ (file, text) :: rest)
      ∧ endswith file ".txt" = true
      ∧ rewrite_file r (make_class_map r new_names) text = Raise e
      ∧ labels ds' !! split = Some (pre' ++ (file, text) :: rest)
      ∧ dir_rewritten r pre pre'
      ∧ (∀ sp, sp ∈ todo → labels ds' !! sp = labels ds !! sp)
      ∧ (∀ sp d, sp ∈ done → labels ds !! sp = Some d →
           ∃ d', labels ds' !! sp = Some d' ∧ dir_rewritten r d d').
Proof.
  unfold process_dataset.
  case_bool_decide; [done|]. case_bool_decide; [done|].
  case_bool_decide as Hidx; [done|].
  destruct (update_splits all_splits _ _ (labels ds)) as [dirs x] eqn:Hupd.
  destruct x as [x|]; [|done]. cbn [fst snd yaml names nc labels].
  intros [= ->]. split; [done|]. split; [done|].
  destruct (update_splits_fail _ _ _ _ _ _ all_splits_NoDup Hupd)
    as (done & split & todo & dir & dir' & Hsplits & Hdir & Hfail & Hdir' & Htodo & _ & Hdone).
  destruct (update_labels_fail _ _ _ _ _ Hfail)
    as (pre & pre' & file & text & rest & -> & -> & Hext & Hraise & Hpre).
  by exists done, split, todo, pre, pre', file, text, rest.
Qed.

Lemma failed_run_is_partial_witness :
  let old_names := default [] (names (yaml broken_dataset)) in
  let r := get_class_index old_names "dog" in
  let new_names := delete (Z.to_nat r) old_names in
  let ds' := (process_dataset "data.yaml" "dog" broken_dataset).1 in
  names (yaml ds') = Some new_names
  ∧ nc (yaml ds') = Some (Z.of_nat (length new_names))
  ∧ ∃ done split todo pre pre' file text rest,
      all_splits = done ++ split :: todo
      ∧ labels broken_dataset !! split = Some (pre ++ (file, text) :: rest)
      ∧ endswith file ".txt" = true
      ∧ rewrite_file r (make_class_map r new_names) text = Raise IndexError
      ∧ labels ds' !! split = Some (pre' ++ (file, text) :: rest)
      ∧ dir_rewritten r pre pre'
      ∧ (∀ sp, sp ∈ todo → labels ds' !! sp = labels broken_dataset !! sp)
      ∧ (∀ sp d, sp ∈ done → labels broken_dataset !! sp = Some d →
           ∃ d', labels ds' !! sp = Some d' ∧ dir_rewritten r d d').
Proof.
  apply (failed_run_is_partial "data.yaml" "dog" broken_dataset IndexError).
  vm_compute. reflexivity.
Defined.

(** The failing run on the sample: train is rewritten, b.txt of val is
    rewritten, c.txt stopped the run, d.txt and test are as they were. *)
Example broken_run :
  let r := process_dataset "data.yaml" "dog" broken_dataset in
  r.2 = Uncaught IndexError
  ∧ names (yaml r.1) = Some ["cat"; "bird"]
  ∧ labels r.1 !! "train" = Some [("a.txt", "1 0.5 0.5 0.2 0.2" +:+ nl)]
  ∧ labels r.1 !! "val"
    = Some [("b.txt", "1 0.1 0.1 0.2 0.2" +:+ nl);
            ("c.txt", "0 0.5 0.5 0.2 0.2" +:+ nl +:+ nl);
            ("d.txt", "2 0.3 0.3 0.2 0.2" +:+ nl)]
  ∧ labels r.1 !! "test" = Some [("e.txt", "2 0.4 0.4 0.2 0.2" +:+ nl)].
Proof. vm_compute. done. Qed.

(** ** The same selection once more *)

Lemma index_delete_self x l i :
  index x l = Some i → NoDup l → index x (delete i l) = None.
Proof.
  intros Hi Hnd. destruct (index x (delete i l)) as [j|] eqn:Hj; [|done].
  exfalso. destruct (index_lookup _ _ _ Hj) as [Hl _].
  destruct (index_lookup _ _ _ Hi) as [Hli _].
  destruct (decide (j < i)%nat).
  - rewrite list_lookup_delete_lt in Hl by done.
    pose proof (NoDup_lookup _ _ _ _ Hnd Hl Hli). lia.
  - rewrite list_lookup_delete_ge in Hl by lia.
    pose proof (NoDup_lookup _ _ _ _ Hnd Hl Hli). lia.
Qed.

(** X7. With distinct names in data.yaml, a second run with the same
    selection is refused and changes nothing, whether the first run ended
    with the success box or with an exception: the name is gone from
    data.yaml after the first run. *)
Theorem second_removal_is_refused (yaml_path selected_class : string)
    (ds : dataset) (old_names : list string) :
  yaml_path ≠ "" → selected_class ≠ "" →
  names (yaml ds) = Some old_names → NoDup old_names →
  selected_class ∈ old_names →
  let ds' := (process_dataset yaml_path selected_class ds).1 in
  process_dataset yaml_path selected_class ds'
  = (ds', ShowError ("Class '" +:+ selected_class +:+ "' not found in the dataset.")).
Proof.
  intros Hpath Hsel Hnames Hnd Hin ds'.
  destruct (index_elem _ _ Hin) as [k Hk].
  assert (names (yaml ds') = Some (delete k old_names)) as Hnames'.
  { unfold ds', process_dataset. rewrite !bool_decide_eq_false_2 by done.
    rewrite Hnames. simpl. unfold get_class_index. rewrite Hk.
    rewrite bool_decide_eq_false_2 by lia. rewrite Nat2Z.id.
    by destruct_update_splits dirs e. }
  unfold process_dataset at 1. rewrite !bool_decide_eq_false_2 by done.
  rewrite Hnames'. simpl. unfold get_class_index.
  rewrite (index_delete_self _ _ _ Hk Hnd). by rewrite bool_decide_eq_true_2.
Qed.

Lemma second_removal_is_refused_witness :
  let ds' := (process_dataset "data.yaml" "dog" broken_dataset).1 in
  process_dataset "data.yaml" "dog" ds'
  = (ds', ShowError ("Class '" +:+ "dog" +:+ "' not found in the dataset.")).
Proof.
  apply (second_removal_is_refused "data.yaml" "dog" broken_dataset
           ["cat"; "dog"; "bird"]).
  - discriminate.
  - discriminate.
  - reflexivity.
  - apply (bool_decide_unpack _). vm_compute. reflexivity.
  - apply (bool_decide_unpack _). vm_compute. reflexivity.
Defined.

End ClassRemoverProps.

(** ** AZ_ClassExport2.py: further properties *)
Module ClassExportProps.
Import Py PyLemmas ClassExport ClassExportSpec.

Section Scan.
Context {Frame : Type}.
Implicit Types (st : scan_state Frame) (frame : Frame) (v : video Frame).
Implicit Types (detect : detector Frame) (t : Z * Frame).

Lemma sparse_visit class_name detect step st frame :
  60 < step → sparse step st → sparse step (visit class_name detect step st frame).
Proof.
  intros Hstep [Heps Hcur]. unfold visit, sparse.
  destruct (detect frame) as [detected_classes|];
    [case_bool_decide|]; cbn [frame_index class_episodes current_episode].
  - unfold record_detection. destruct Hcur as [->|(t & -> & Ht)];
      cbn [last frame_index class_episodes current_episode].
    + split; [done|]. right. by eexists.
    + rewrite (proj2 (Z.leb_gt (frame_index st - t.1) 60)) by lia.
      cbn [frame_index class_episodes current_episode]. rewrite Heps.
      split; [done|]. right. by eexists.
  - split; [done|]. destruct Hcur as [?|(t & ? & ?)]; [by left|].
    right. exists t. split; [done | lia].
  - split; [done|]. destruct Hcur as [?|(t & ? & ?)]; [by left|].
    right. exists t. split; [done | lia].
Qed.

Lemma sparse_loop fuel v class_name detect step stopped : ∀ k st st',
  60 < step →
  scan_loop fuel v class_name detect step stopped k st = Some st' →
  sparse step st → sparse step st'.
Proof.
  induction fuel as [|fuel IH]; intros k st st' Hstep; simpl.
  - destruct (_ && _); [done|]. by intros [= <-].
  - destruct (_ && _); [|by intros [= <-]].
    destruct (read v (frame_index st)) as [frame|]; [|by intros [= <-]].
    intros Hloop Hinv. eapply IH; [done | exact Hloop |]. by apply sparse_visit.
Qed.

End Scan.

Lemma select_frames_nil {A} (max_to_save : Z) :
  select_frames (@nil A) max_to_save = Ok [].
Proof.
  unfold select_frames. change (Z.of_nat (length (@nil A))) with 0.
  destruct (0 >? max_to_save) eqn:Hcmp; [|done].
  apply Z.gtb_lt in Hcmp. unfold int_truediv.
  destruct max_to_save as [|p|p]; [lia | lia |].
  cbn [mbind result_bind]. unfold range. by rewrite seqZ_nil by lia.
Qed.

(** X8. With a frame step above 60 no episode can form, since two visited
    frames are more than 60 apart: whatever the video, the model, the stop
    flag and the cap, the run ends with an empty export. *)
Theorem wide_step_exports_nothing {Frame : Type} (fuel : nat) (v : video Frame)
    (detect : detector Frame) (class_name : string)
    (step max_to_save resume : Z) (stopped : nat → bool) (o : outcome Frame) :
  60 < step → class_name ≠ "" →
  process_video fuel (Some v) (Some detect) class_name step max_to_save resume
    stopped = Some o →
  ∃ resume', o = Exported [] resume'.
Proof.
  intros Hstep Hname. unfold process_video.
  rewrite bool_decide_eq_false_2 by done.
  destruct (scan_loop _ _ _ _ _ _ _ _) as [st|] eqn:Hloop; [|done].
  cbn [mbind option_bind].
  assert (sparse step st) as [Heps Hcur].
  { eapply sparse_loop; [done | exact Hloop |]. split; [done | by left]. }
  unfold final_episodes. rewrite Heps.
  assert (close_episode (current_episode st) = []) as ->
    by (destruct Hcur as [->|(t & -> & _)]; done).
  cbn [app flatten fmap list_fmap]. rewrite select_frames_nil.
  intros [= <-]. by eexists.
Qed.

Lemma wide_step_exports_nothing_witness :
  ∃ resume',
    default (ShowError "") (process_video 200 (Some sample_video) (Some sample_detector)
                              "dog" 100 500 0 never)
    = Exported [] resume'.
Proof.
  apply (wide_step_exports_nothing 200 sample_video sample_detector "dog"
           100 500 0 never).
  - lia.
  - discriminate.
  - vm_compute. reflexivity.
Defined.

Section Restart.
Context {Frame : Type}.
Implicit Types (st : scan_state Frame) (frame : Frame) (v : video Frame).
Implicit Types (detect : detector Frame) (t : Z * Frame).

(** An unstopped loop is left at the end of the video or at a frame that
    cannot be read. *)
Lemma scan_loop_exit fuel v class_name detect step : ∀ k st st',
  scan_loop fuel v class_name detect step never k st = Some st' →
  total_frames v ≤ frame_index st' ∨ read v (frame_index st') = None.
Proof.
  induction fuel as [|fuel IH]; intros k st st'; simpl.
  - destruct (Z.ltb_spec (frame_index st) (total_frames v)); [done|].
    intros [= <-]. by left.
  - destruct (Z.ltb_spec (frame_index st) (total_frames v));
      [|intros [= <-]; by left].
    cbn [andb negb never].
    destruct (read v (frame_index st)) as [frame|] eqn:Hread;
      [apply IH | intros [= <-]; by right].
Qed.

(** From such a position the loop does nothing. *)
Lemma scan_loop_at_end fuel v class_name detect step stopped k st :
  total_frames v ≤ frame_index st ∨ read v (frame_index st) = None →
  scan_loop (S fuel) v class_name detect step stopped k st = Some st.
Proof.
  intros Hend. simpl. destruct (_ && _) eqn:Hcond; [|done].
  apply andb_prop in Hcond as [Hlt _]. apply Z.ltb_lt in Hlt.
  destruct Hend as [? | ->]; [lia | done].
Qed.

End Restart.

(** X9. [resume_from_frame] is never reset: after a run that was not
    stopped (it is left at the end of the video or at an unreadable frame),
    every further run on the same video, with any class, model, step, cap
    and stop flag, visits no frame and exports nothing. *)
Theorem restart_exports_nothing {Frame : Type} (fuel : nat) (v : video Frame)
    (detect : detector Frame) (class_name : string)
    (step max_to_save resume resume' : Z) (o : outcome Frame) :
  process_video fuel (Some v) (Some detect) class_name step max_to_save resume
    never = Some o →
  (∃ selected_frames, o = Exported selected_frames resume')
  ∨ (∃ e, o = Uncaught e resume') →
  ∀ fuel' (detect' : detector Frame) class_name' step' max_to_save' stopped',
    class_name' ≠ "" →
    process_video (S fuel') (Some v) (Some detect') class_name' step' max_to_save'
      resume' stopped'
    = Some (Exported [] resume').
Proof.
  unfold process_video at 1. case_bool_decide as Hname.
  { intros [= <-] [[? ?]|[? ?]]; done. }
  destruct (scan_loop _ _ _ _ _ _ _ _) as [st|] eqn:Hloop; [|done].
  cbn [mbind option_bind]. intros [= <-] Hres.
  assert (resume' = frame_index st) as ->.
  { destruct (select_frames _ _); destruct Hres as [[? Ho]|[? Ho]]; congruence. }
  apply scan_loop_exit in Hloop.
  intros fuel' detect' class_name' step' max_to_save' stopped' Hname'.
  unfold process_video. rewrite bool_decide_eq_false_2 by done.
  rewrite scan_loop_at_end by done. cbn [mbind option_bind].
  unfold final_episodes, initial_scan, close_episode.
  cbn [class_episodes current_episode length Nat.leb app flatten fmap list_fmap
       frame_index].
  by rewrite select_frames_nil.
Qed.

Lemma restart_exports_nothing_witness :
  process_video 1 (Some sample_video) (Some sample_detector) "person" 1 10 1500
    (stop_at 0)
  = Some (Exported [] 1500).
Proof.
  apply (restart_exports_nothing 200 sample_video sample_detector "dog" 10 500 0
           1500 (default (ShowError "")
                   (process_video 200 (Some sample_video) (Some sample_detector)
                      "dog" 10 500 0 never))).
  - vm_compute. reflexivity.
  - left. vm_compute. eexists. reflexivity.
  - discriminate.
Defined.

(** ** What is exported *)

Lemma mapM_Ok_inv {A B} (f : A → result B) : ∀ (l : list A) (l' : list B),
  mapM f l = Ok l' → Forall2 (λ x y, f x = Ok y) l l'.
Proof.
  induction l as [|x l IH]; intros l'; simpl.
  - intros [= <-]. constructor.
  - destruct (f x) as [y|] eqn:Hy; [|done]. cbn [mbind result_bind].
    destruct (mapM f l) as [k|]; [|done]. cbn [mbind result_bind mret result_ret].
    intros [= <-]. constructor; [done|]. by apply IH.
Qed.

Lemma getitem_elem_of {A} (l : list A) (i : Z) (x : A) :
  getitem l i = Ok x → x ∈ l.
Proof.
  unfold getitem. destruct (_ && _); [|done].
  destruct (l !! _) as [y|] eqn:Hy; [|done]. intros [= <-].
  by eapply list_elem_of_lookup_2.
Qed.

(** The selection takes its frames from the list it is given. *)
Lemma select_frames_subseteq {A} (all_detected selected_frames : list A)
    (max_to_save : Z) :
  select_frames all_detected max_to_save = Ok selected_frames →
  selected_frames ⊆ all_detected.
Proof.
  unfold select_frames. destruct (_ >? _); [|by intros [= <-]].
  destruct (int_truediv _ _) as [interval|]; [|done]. cbn [mbind result_bind].
  destruct (mapM (scaled_index interval) _) as [indices|]; [|done].
  cbn [mbind result_bind]. intros Hsel%mapM_Ok_inv x Hx.
  apply list_elem_of_lookup in Hx as [j Hj].
  destruct (Forall2_lookup_r _ _ _ _ _ Hsel Hj) as (i & _ & Hi).
  by eapply getitem_elem_of.
Qed.

Section Exported.
Context {Frame : Type}.
Implicit Types (st : scan_state Frame) (frame : Frame) (v : video Frame).
Implicit Types (detect : detector Frame) (t : Z * Frame).
Implicit Types (r : list (Z * Frame)) (runs : list (list (Z * Frame))).

Lemma head_elem_of {A} (l : list A) (x : A) : head l = Some x → x ∈ l.
Proof. destruct l; [done|]. intros [= <-]. by left. Qed.

Lemma last_elem_of {A} (l : list A) (x : A) : last l = Some x → x ∈ l.
Proof.
  intros Hl. apply last_Some in Hl as [l' ->]. apply elem_of_app. right. by left.
Qed.

Lemma elem_of_concat {A} (x : A) (l : list A) (ls : list (list A)) :
  x ∈ l → l ∈ ls → x ∈ concat ls.
Proof.
  intros Hx. induction ls as [|l' ls IH]; intros Hl; [by apply elem_of_nil in Hl|].
  cbn [concat]. apply elem_of_app. apply elem_of_cons in Hl as [<-|Hl]; auto.
Qed.

(** The endpoints of the episodes are frames of the runs. *)
Lemma episodes_of_elem_of runs a b :
  (a, b) ∈ episodes_of runs → a ∈ concat runs ∧ b ∈ concat runs.
Proof.
  unfold episodes_of. intros Hin. apply list_elem_of_omap in Hin as (r & Hr & Hend).
  apply list_elem_of_filter in Hr as [_ Hr]. unfold endpoints in Hend.
  destruct (head r) as [a'|] eqn:Hhead; [|done].
  destruct (last r) as [b'|] eqn:Hlast; [|done]. injection Hend as <- <-.
  split; apply (elem_of_concat _ r); try done;
    first [by apply head_elem_of | by apply last_elem_of].
Qed.

Lemma flatten_elem_of (eps : list ((Z * Frame) * (Z * Frame))) t :
  t ∈ flatten eps → ∃ a b, (a, b) ∈ eps ∧ (t = a ∨ t = b).
Proof.
  unfold flatten. rewrite elem_of_app, !list_elem_of_fmap.
  intros [([a b] & -> & Hin)|([a b] & -> & Hin)]; exists a, b; auto.
Qed.

(** Every detected frame was visited: it lies before the end of the video. *)
Lemma detected_before_end fuel v class_name detect step stopped : ∀ k st st',
  scan_loop fuel v class_name detect step stopped k st = Some st' →
  Forall (λ t, t.1 < total_frames v) (detected_frame_indices st) →
  Forall (λ t, t.1 < total_frames v) (detected_frame_indices st').
Proof.
  induction fuel as [|fuel IH]; intros k st st'; simpl.
  - destruct (_ && _); [done|]. by intros [= <-].
  - destruct (_ && _) eqn:Hcond; [|by intros [= <-]].
    apply andb_prop in Hcond as [Hlt _]. apply Z.ltb_lt in Hlt.
    destruct (read v (frame_index st)) as [frame|]; [|by intros [= <-]].
    intros Hloop Hall. eapply IH; [exact Hloop|].
    unfold visit. destruct (detect frame) as [detected_classes|]; [|done].
    case_bool_decide; [|done]. unfold record_detection.
    destruct (last (current_episode st)) as [prev|];
      [destruct (_ <=? _)|]; cbn [detected_frame_indices];
      (apply Forall_app; split; [done|]; by constructor).
Qed.

End Exported.

(** X10. Every exported frame is a frame of the video, read at its index
    before the end of the video, in which the model detected the selected
    class. *)
Theorem exported_frames_are_detections {Frame : Type} (fuel : nat)
    (v : video Frame) (detect : detector Frame) (class_name : string)
    (step max_to_save resume resume' : Z) (stopped : nat → bool)
    (selected_frames : list (Z * Frame)) :
  process_video fuel (Some v) (Some detect) class_name step max_to_save resume
    stopped = Some (Exported selected_frames resume') →
  Forall (λ t, detected_in v class_name detect t ∧ t.1 < total_frames v)
    selected_frames.
Proof.
  unfold process_video. case_bool_decide; [done|].
  destruct (scan_loop _ _ _ _ _ _ _ _) as [st|] eqn:Hloop; [|done].
  cbn [mbind option_bind].
  destruct (select_frames _ _) as [sel|] eqn:Hsel; [|done].
  intros [= <- <-]. apply select_frames_subseteq in Hsel.
  assert (Forall (detected_in v class_name detect) (detected_frame_indices st))
    as Hdet by (eapply detected_loop; [exact Hloop | constructor]).
  assert (Forall (λ t, t.1 < total_frames v) (detected_frame_indices st))
    as Hlt by (eapply detected_before_end; [exact Hloop | constructor]).
  destruct (scan_inv_final st) as (runs & (Hconcat & _) & Heps).
  { eapply scan_inv_loop; [exact Hloop | apply scan_inv_initial]. }
  rewrite Forall_forall in Hdet, Hlt. apply Forall_forall. intros t Ht.
  apply Hsel in Ht. apply flatten_elem_of in Ht as (a & b & Hab & Ht).
  rewrite Heps in Hab. apply episodes_of_elem_of in Hab as [Ha Hb].
  rewrite Hconcat in Ha, Hb.
  destruct Ht as [-> | ->]; split; auto.
Qed.

Lemma exported_frames_are_detections_witness :
  Forall (λ t, detected_in sample_video "dog" sample_detector t
               ∧ t.1 < total_frames sample_video)
    (match process_video 200 (Some sample_video) (Some sample_detector) "dog"
             10 22 0 (stop_at 120) with
     | Some (Exported selected_frames _) => selected_frames
     | _ => []
     end).
Proof.
  apply (exported_frames_are_detections 200 sample_video sample_detector "dog"
           10 22 0 1200 (stop_at 120)).
  vm_compute. reflexivity.
Defined.

(** ** Stop and start again *)

Section Resume.
Context {Frame : Type}.
Implicit Types (st : scan_state Frame) (frame : Frame) (v : video Frame).
Implicit Types (detect : detector Frame) (t : Z * Frame).

Lemma scan_loop_S fuel v class_name detect step stopped k st :
  scan_loop (S fuel) v class_name detect step stopped k st
  = if (frame_index st <? total_frames v) && negb (stopped k) then
      match read v (frame_index st) with
      | None => Some st
      | Some frame =>
          scan_loop fuel v class_name detect step stopped (S k)
            (visit class_name detect step st frame)
      end
    else Some st.
Proof. reflexivity. Qed.

Lemma scan_loop_O v class_name detect step stopped k st :
  scan_loop O v class_name detect step stopped k st
  = if (frame_index st <? total_frames v) && negb (stopped k) then None
    else Some st.
Proof. reflexivity. Qed.

(** More fuel does not change a result. *)
Lemma scan_loop_more_fuel v class_name detect step stopped : ∀ fuel k st st',
  scan_loop fuel v class_name detect step stopped k st = Some st' →
  scan_loop (S fuel) v class_name detect step stopped k st = Some st'.
Proof.
  induction fuel as [|fuel IH]; intros k st st'.
  - rewrite scan_loop_O, scan_loop_S. by destruct (_ && _).
  - rewrite (scan_loop_S (S fuel)), (scan_loop_S fuel).
    destruct (_ && _); [|done].
    destruct (read v (frame_index st)); [apply IH | done].
Qed.

(** Without the flag the count of the tests plays no role. *)
Lemma scan_loop_never_index v class_name detect step fuel j st :
  scan_loop fuel v class_name detect step never j st
  = scan_loop fuel v class_name detect step never O st.
Proof. by apply scan_loop_never. Qed.

(** A run that was stopped went through states of the unstopped run. *)
Lemma scan_loop_prefix v class_name detect step stopped : ∀ fuel k st0 st1 st,
  scan_loop fuel v class_name detect step stopped k st0 = Some st1 →
  scan_loop fuel v class_name detect step never O st0 = Some st →
  scan_loop fuel v class_name detect step never O st1 = Some st.
Proof.
  induction fuel as [|fuel IH]; intros k st0 st1 st.
  - rewrite !scan_loop_O.
    destruct (frame_index st0 <? total_frames v) eqn:Hlt; cbn [andb negb never].
    + destruct (stopped k); cbn [negb]; [|done]. intros [= <-]. by rewrite Hlt.
    + intros [= <-]. by rewrite Hlt.
  - rewrite (scan_loop_S fuel _ _ _ _ stopped), (scan_loop_S fuel _ _ _ _ never O st0).
    destruct (frame_index st0 <? total_frames v) eqn:Hlt; cbn [andb].
    + destruct (stopped k); cbn [negb never].
      * intros [= <-]. by rewrite (scan_loop_S fuel _ _ _ _ never O st0), Hlt.
      * destruct (read v (frame_index st0)) as [frame|] eqn:Hread.
        -- rewrite scan_loop_never_index. intros H1 H2.
           apply scan_loop_more_fuel. by eapply IH.
        -- intros [= <-].
           by rewrite (scan_loop_S fuel _ _ _ _ never O st0), Hlt, Hread.
    + intros [= <-]. by rewrite (scan_loop_S fuel _ _ _ _ never O st0), Hlt.
Qed.

Lemma visit_detected class_name detect step st frame :
  frame_index (visit class_name detect step st frame) = frame_index st + step
  ∧ detected_frame_indices (visit class_name detect step st frame)
    = detected_frame_indices st
      ++ match detect frame with
         | Some detected_classes =>
             if bool_decide (class_name ∈ detected_classes)
             then [(frame_index st, frame)] else []
         | None => []
         end.
Proof.
  unfold visit. split; [done|]. cbn [detected_frame_indices].
  destruct (detect frame) as [detected_classes|]; [|by rewrite app_nil_r].
  case_bool_decide; [|by rewrite app_nil_r]. unfold record_detection.
  by destruct (last (current_episode st)); [destruct (_ <=? _)|].
Qed.

(** Two scans from the same position see the same frames, whatever they
    had collected before. *)
Lemma scan_loop_suffix v class_name detect step pre : ∀ fuel sa sb sa' sb',
  frame_index sa = frame_index sb →
  detected_frame_indices sa = pre ++ detected_frame_indices sb →
  scan_loop fuel v class_name detect step never O sa = Some sa' →
  scan_loop fuel v class_name detect step never O sb = Some sb' →
  frame_index sa' = frame_index sb'
  ∧ detected_frame_indices sa' = pre ++ detected_frame_indices sb'.
Proof.
  induction fuel as [|fuel IH]; intros sa sb sa' sb' Hfi Hdet.
  - rewrite !scan_loop_O, Hfi. destruct (_ && _); [done|].
    by intros [= <-] [= <-].
  - rewrite !scan_loop_S, Hfi. destruct (_ && _); [|by intros [= <-] [= <-]].
    destruct (read v (frame_index sb)) as [frame|]; [|by intros [= <-] [= <-]].
    rewrite !(scan_loop_never_index _ _ _ _ _ 1%nat). apply IH.
    + destruct (visit_detected class_name detect step sa frame) as [-> _].
      destruct (visit_detected class_name detect step sb frame) as [-> _]. lia.
    + destruct (visit_detected class_name detect step sa frame) as [_ ->].
      destruct (visit_detected class_name detect step sb frame) as [_ ->].
      by rewrite Hdet, Hfi, app_assoc.
Qed.

End Resume.

(** X11. Stop and Start lose no frame and visit none twice: the frames
    with a detection found by a stopped scan, followed by those found by
    the scan that resumes where it was left, are the frames found by the
    scan that is not stopped, and both end at the same position. *)
Theorem stop_and_resume {Frame : Type} (fuel : nat) (v : video Frame)
    (detect : detector Frame) (class_name : string) (step resume : Z)
    (stopped : nat → bool) (st1 st2 st : scan_state Frame) :
  scan_loop fuel v class_name detect step stopped O (initial_scan resume) = Some st1 →
  scan_loop fuel v class_name detect step never O (initial_scan (frame_index st1))
  = Some st2 →
  scan_loop fuel v class_name detect step never O (initial_scan resume) = Some st →
  detected_frame_indices st = detected_frame_indices st1 ++ detected_frame_indices st2
  ∧ frame_index st = frame_index st2.
Proof.
  intros Hfirst Hsecond Hwhole.
  pose proof (scan_loop_prefix _ _ _ _ _ _ _ _ _ _ Hfirst Hwhole) as Hrest.
  destruct (scan_loop_suffix v class_name detect step (detected_frame_indices st1)
              fuel st1 (initial_scan (frame_index st1)) st st2) as [Hfi Hdet];
    try done.
  by rewrite app_nil_r.
Qed.

Lemma stop_and_resume_witness :
  let run stopped resume :=
    default (initial_scan 0)
      (scan_loop 200 sample_video "dog" sample_detector 10 stopped O
         (initial_scan resume)) in
  detected_frame_indices (run never 0)
  = detected_frame_indices (run (stop_at 62) 0)
    ++ detected_frame_indices (run never (frame_index (run (stop_at 62) 0)))
  ∧ frame_index (run never 0)
    = frame_index (run never (frame_index (run (stop_at 62) 0))).
Proof.
  apply (stop_and_resume 200 sample_video sample_detector "dog" 10 0 (stop_at 62)).
  - vm_compute. reflexivity.
  - vm_compute. reflexivity.
  - vm_compute. reflexivity.
Defined.

(** Stopping inside an episode loses it: the sample video scanned in one go
    has fifteen episodes, stopped after frame 600 and started again it has
    six and eight. *)
Example stop_splits_an_episode :
  let run stopped resume :=
    default (initial_scan 0)
      (scan_loop 200 sample_video "dog" sample_detector 10 stopped O
         (initial_scan resume)) in
  length (final_episodes (run never 0)) = 15%nat
  ∧ frame_index (run (stop_at 61) 0) = 610
  ∧ length (final_episodes (run (stop_at 61) 0)) = 6%nat
  ∧ length (final_episodes (run never 610)) = 8%nat.
Proof. vm_compute. done. Qed.

(** ** The cap at its edges *)

(** The sign given to the rounding only labels the result. *)
Lemma binary_round_aux_sign (mx ex : Z) (l : location) :
  binary_round_aux 53 1024 true mx ex l
  = match binary_round_aux 53 1024 false mx ex l with
    | S754_zero _ => S754_zero true
    | S754_infinity _ => S754_infinity true
    | S754_nan => S754_nan
    | S754_finite _ m e => S754_finite true m e
    end.
Proof.
  unfold binary_round_aux.
  destruct (shr_fexp 53 1024 mx ex l) as [mrs' e'].
  destruct (shr_fexp 53 1024 _ e' loc_Exact) as [mrs'' e''].
  destruct (shr_m mrs''); [done | | done]. by destruct (_ <=? _).
Qed.

Lemma int_truediv_neg (a b : Z) :
  0 < a < 2 ^ 53 → - 2 ^ 53 < b < 0 → ∃ q, int_truediv a b = Ok q.
Proof.
  intros Ha Hb.
  destruct (FloatLemmas.int_truediv_upper a (- b)) as (q & Hq & (m & e & -> & _) & _);
    [lia | lia |].
  destruct a as [|a|a]; [lia | | lia]. destruct b as [|b|b]; [lia | lia |].
  unfold int_truediv in *. change (- Z.neg b) with (Z.pos b) in Hq.
  change (Z.abs (Z.neg b)) with (Z.pos b). change (Z.abs (Z.pos b)) with (Z.pos b) in Hq.
  destruct (SFdiv_core_binary 53 1024 (Z.abs (Z.pos a)) 0 (Z.pos b) 0) as [[q0 e0] l0].
  change (xorb (Z.pos a <? 0) (Z.neg b <? 0)) with true.
  change (xorb (Z.pos a <? 0) (Z.pos b <? 0)) with false in Hq.
  rewrite binary_round_aux_sign.
  destruct (binary_round_aux 53 1024 false q0 e0 l0); try done; by eexists.
Qed.

(** X12. The cap at its edges: with "Max Frames to Save" 0 and at least
    one endpoint frame the division raises ZeroDivisionError; with a
    negative cap (above -2^53, on fewer than 2^53 frames) nothing is
    selected. *)
Theorem selection_cap_edges {A : Type} (all_detected : list A) (max_to_save : Z) :
  (all_detected ≠ [] → max_to_save = 0 →
     select_frames all_detected max_to_save = Raise ZeroDivisionError)
  ∧ (Z.of_nat (length all_detected) < 2 ^ 53 → - 2 ^ 53 < max_to_save < 0 →
       select_frames all_detected max_to_save = Ok []).
Proof.
  unfold select_frames. split.
  - intros Hne ->. destruct all_detected as [|x l]; [done|].
    rewrite (proj2 (Z.gtb_lt _ _)) by (cbn [length]; lia).
    unfold int_truediv. by destruct (Z.of_nat _).
  - intros Hlen Hmax. rewrite (proj2 (Z.gtb_lt _ _)) by lia.
    assert (∃ q, int_truediv (Z.of_nat (length all_detected)) max_to_save = Ok q)
      as [q ->].
    { destruct (decide (length all_detected = O)) as [->|Hne].
      - unfold int_truediv. cbn [Z.of_nat].
        destruct max_to_save; [lia | by eexists | by eexists].
      - apply int_truediv_neg; lia. }
    cbn [mbind result_bind]. unfold range. by rewrite seqZ_nil by lia.
Qed.

Lemma selection_cap_edges_witness :
  select_frames sample_endpoints 0 = Raise ZeroDivisionError
  ∧ select_frames sample_endpoints (-3) = Ok [].
Proof.
  split.
  - apply (proj1 (selection_cap_edges sample_endpoints 0)).
    + vm_compute. discriminate.
    + reflexivity.
  - apply (proj2 (selection_cap_edges sample_endpoints (-3))).
    + vm_compute. reflexivity.
    + lia.
Defined.

(** ** The order of the episodes *)

Section Order.
Context {Frame : Type}.
Implicit Types (st : scan_state Frame) (frame : Frame) (v : video Frame).
Implicit Types (detect : detector Frame) (t : Z * Frame).
Implicit Types (e : (Z * Frame) * (Z * Frame)).

Lemma chain_head_last {A} (f : A → Z) (l : list A) (a b : A) :
  chain (λ x y, f x < f y) l → (2 ≤ length l)%nat →
  head l = Some a → last l = Some b → f a < f b.
Proof.
  destruct l as [|x l]; [done|]. cbn [head]. intros Hch Hlen [= ->].
  revert a Hch Hlen. induction l as [|y l IH]; intros a Hch Hlen; [simpl in Hlen; lia|].
  destruct Hch as [Hay Hch]. destruct l as [|z l].
  - by intros [= <-].
  - intros Hlast. etrans; [exact Hay|]. apply IH; [done | simpl; lia | done].
Qed.

Lemma close_episode_cases (cur : list (Z * Frame)) :
  close_episode cur = []
  ∨ ∃ a b, close_episode cur = [(a, b)] ∧ head cur = Some a ∧ last cur = Some b
           ∧ (2 ≤ length cur)%nat.
Proof.
  unfold close_episode. destruct (Nat.leb_spec 2 (length cur)); [|by left].
  destruct (head cur) as [a|] eqn:Ha; [|by left].
  destruct (last cur) as [b|] eqn:Hb; [|by left].
  right. by exists a, b.
Qed.

Lemma ordered_close resume step total st e :
  ordered resume step total st → e ∈ close_episode (current_episode st) →
  resume ≤ e.1.1 ∧ e.1.1 < e.2.1 ∧ e.2.1 < total ∧ e.2.1 + step ≤ frame_index st.
Proof.
  intros (_ & Hcur & Hasc & _) He.
  destruct (close_episode_cases (current_episode st)) as [Hnil|(a & b & Hab & Ha & Hb & Hlen)].
  - rewrite Hnil in He. by apply elem_of_nil in He.
  - rewrite Hab in He. apply list_elem_of_singleton in He as ->. cbn [fst snd].
    rewrite Forall_forall in Hcur.
    pose proof (chain_head_last fst _ _ _ Hasc Hlen Ha Hb).
    destruct (Hcur a) as (? & ? & ?); [by apply head_elem_of|].
    destruct (Hcur b) as (? & ? & ?); [by apply last_elem_of|]. lia.
Qed.

Lemma ordered_record resume step total st frame :
  1 ≤ step → frame_index st < total → ordered resume step total st →
  let st' := record_detection st frame in
  ordered resume step total
    {| frame_index := frame_index st + step;
       detected_frame_indices := detected_frame_indices st';
       class_episodes := class_episodes st';
       current_episode := current_episode st' |}.
Proof.
  intros Hstep Hlt Hord. pose proof Hord as (Hres & Hcur & Hasc & Heps & Hapart & Hgap & Hnil).
  unfold record_detection, ordered.
  destruct (last (current_episode st)) as [prev|] eqn:Hlast.
  - assert (prev ∈ current_episode st) as Hprev by (by apply last_elem_of).
    rewrite Forall_forall in Hcur. destruct (Hcur prev Hprev) as (Hp1 & Hp2 & Hp3).
    destruct (Z.leb_spec (frame_index st - prev.1) 60) as [Hnear|Hfar];
      cbn [frame_index class_episodes current_episode].
    + split; [lia|]. split; [|split; [|split; [|split; [done|split]]]].
      * apply Forall_app. split.
        -- apply Forall_forall. intros t Ht. destruct (Hcur t Ht) as (? & ? & ?). lia.
        -- repeat constructor; cbn [fst]; lia.
      * apply chain_snoc. split; [done|]. rewrite Hlast. cbn [fst]. lia.
      * eapply Forall_impl; [exact Heps|]. intros e (? & ? & ? & ?). lia.
      * intros e c He Hc. apply (Hgap e c He).
        destruct (current_episode st); [done|]. exact Hc.
      * intros Happ. by apply app_eq_nil in Happ as [_ ?].
    + assert (∃ c0, head (current_episode st) = Some c0 ∧ c0 ∈ current_episode st)
        as (c0 & Hc0 & Hc0in).
      { destruct (current_episode st) as [|c0 l]; [done|]. exists c0.
        split; [done | by left]. }
      destruct (Hcur c0 Hc0in) as (_ & _ & Hc0lt).
      split; [lia|]. split; [|split; [done|split; [|split; [|split]]]].
      * repeat constructor; cbn [fst]; lia.
      * apply Forall_app. split.
        -- eapply Forall_impl; [exact Heps|]. intros e (? & ? & ? & ?). lia.
        -- apply Forall_forall. intros e He.
           destruct (ordered_close _ _ _ _ _ Hord He) as (? & ? & ? & ?). lia.
      * destruct (close_episode_cases (current_episode st))
          as [->|(a & b & -> & Ha & Hb & _)]; [by rewrite app_nil_r|].
        apply chain_snoc. split; [done|].
        destruct (last (class_episodes st)) as [e0|] eqn:He0; [|done].
        cbn [fst snd]. by apply (Hgap e0 a).
      * intros e c He [= <-]. cbn [fst].
        destruct (close_episode_cases (current_episode st))
          as [Hcl|(a & b & Hcl & Ha & Hb & _)]; rewrite Hcl in He.
        -- rewrite app_nil_r in He. pose proof (Hgap e c0 He Hc0). lia.
        -- rewrite last_snoc in He. injection He as <-. cbn [snd].
           rewrite Hlast in Hb. injection Hb as <-. lia.
      * done.
  - cbn [frame_index class_episodes current_episode].
    assert (current_episode st = []) as Hempty
      by (destruct (current_episode st) using rev_ind; [done | by rewrite last_snoc in Hlast]).
    rewrite (Hnil Hempty).
    split; [lia|]. split; [|split; [done|split; [constructor|split; [done|split]]]].
    + repeat constructor; cbn [fst]; lia.
    + by intros e c.
    + done.
Qed.

Lemma ordered_visit resume step total class_name detect st frame :
  1 ≤ step → frame_index st < total → ordered resume step total st →
  ordered resume step total (visit class_name detect step st frame).
Proof.
  intros Hstep Hlt Hord. unfold visit.
  assert (ordered resume step total
            {| frame_index := frame_index st + step;
               detected_frame_indices := detected_frame_indices st;
               class_episodes := class_episodes st;
               current_episode := current_episode st |}) as Hskip.
  { destruct Hord as (Hres & Hcur & Hasc & Heps & Hapart & Hgap & Hnil).
    unfold ordered. cbn [frame_index class_episodes current_episode].
    split; [lia|]. split; [|split; [done|split; [|done]]].
    - eapply Forall_impl; [exact Hcur|]. intros t (? & ? & ?). lia.
    - eapply Forall_impl; [exact Heps|]. intros e (? & ? & ? & ?). lia. }
  destruct (detect frame) as [detected_classes|]; [|done].
  case_bool_decide; [|done]. by apply ordered_record.
Qed.

Lemma ordered_loop fuel v class_name detect step stopped resume : ∀ k st st',
  1 ≤ step →
  scan_loop fuel v class_name detect step stopped k st = Some st' →
  ordered resume step (total_frames v) st → ordered resume step (total_frames v) st'.
Proof.
  induction fuel as [|fuel IH]; intros k st st' Hstep; simpl.
  - destruct (_ && _); [done|]. by intros [= <-].
  - destruct (_ && _) eqn:Hcond; [|by intros [= <-]].
    apply andb_prop in Hcond as [Hlt _]. apply Z.ltb_lt in Hlt.
    destruct (read v (frame_index st)) as [frame|]; [|by intros [= <-]].
    intros Hloop Hord. eapply IH; [done | exact Hloop |]. by apply ordered_visit.
Qed.

End Order.

(** X13. With a step of at least 1 the episodes are in order of time: in
    every episode the first frame lies at or after the resume position and
    before the last frame, which lies before the end of the video; each
    episode starts more than 60 frames after the one before it ended. *)
Theorem episodes_in_order {Frame : Type} (fuel : nat) (v : video Frame)
    (detect : detector Frame) (class_name : string) (step resume : Z)
    (stopped : nat → bool) (st : scan_state Frame) :
  1 ≤ step →
  scan_loop fuel v class_name detect step stopped O (initial_scan resume) = Some st →
  Forall (λ e, resume ≤ e.1.1 ∧ e.1.1 < e.2.1 ∧ e.2.1 < total_frames v)
    (final_episodes st)
  ∧ chain (λ e1 e2, e2.1.1 - e1.2.1 > 60) (final_episodes st).
Proof.
  intros Hstep Hloop.
  assert (ordered resume step (total_frames v) st) as Hord.
  { eapply ordered_loop; [done | exact Hloop |].
    unfold ordered, initial_scan. cbn [frame_index class_episodes current_episode].
    split; [lia|]. repeat split; done. }
  pose proof Hord as (_ & _ & _ & Heps & Hapart & Hgap & _).
  unfold final_episodes. split.
  - apply Forall_app. split.
    + eapply Forall_impl; [exact Heps|]. intros e (? & ? & ? & ?). lia.
    + apply Forall_forall. intros e He.
      destruct (ordered_close _ _ _ _ _ Hord He) as (? & ? & ? & ?). lia.
  - destruct (close_episode_cases (current_episode st))
      as [->|(a & b & -> & Ha & Hb & _)]; [by rewrite app_nil_r|].
    apply chain_snoc. split; [done|].
    destruct (last (class_episodes st)) as [e0|] eqn:He0; [|done].
    cbn [fst snd]. by apply (Hgap e0 a).
Qed.

Lemma episodes_in_order_witness :
  let st := default (initial_scan 0)
              (scan_loop 200 sample_video "dog" sample_detector 10 never O
                 (initial_scan 0)) in
  Forall (λ e, 0 ≤ e.1.1 ∧ e.1.1 < e.2.1 ∧ e.2.1 < total_frames sample_video)
    (final_episodes st)
  ∧ chain (λ e1 e2, e2.1.1 - e1.2.1 > 60) (final_episodes st).
Proof.
  apply (episodes_in_order 200 sample_video sample_detector "dog" 10 0 never).
  - lia.
  - vm_compute. reflexivity.
Defined.

End ClassExportProps.

(** ** AZYoloDatasetRearrange.py: further properties *)
Module RearrangeProps.
Import Py PyLemmas Rearrange RearrangeSpec RuntimeFacts.

Lemma slice_all {A} (l : list A) :
  slice l None (Some (Z.of_nat (length l))) = l
  ∧ slice l (Some (Z.of_nat (length l))) None = [].
Proof.
  rewrite slice_prefix, slice_suffix by lia. rewrite Nat2Z.id.
  by rewrite firstn_all, drop_all.
Qed.

Lemma slice_none {A} (l : list A) :
  slice l None (Some 0) = [] ∧ slice l (Some 0) None = l.
Proof. by rewrite slice_prefix, slice_suffix by lia. Qed.

(** With nothing left for train, the train percentage is 0.0. *)
Lemma zero_train_percents :
  Forall (λ r, zero_train_percent r = true) (seqZ 0 101).
Proof. apply (bool_decide_unpack _). vm_compute. reflexivity. Qed.

Lemma zero_train_count (n : Z) :
  0 ≤ n < 2 ^ 53 → train_count_of (S754_zero false) n = Ok 0.
Proof.
  intros Hn. unfold train_count_of.
  change (float_div (S754_zero false) float_100) with (Ok (S754_zero false) : result float).
  cbn [mbind result_bind]. by apply mul_zero_int.
Qed.

(** X14. The boundary settings of [rearrange_dataset], on at most 2^50
    images: with a test percentage of 100 every image goes to test; with 0
    the test set is empty; with the slider at 0 the train set is empty; with
    0 and the slider at 100 every image goes to train. *)
Theorem rearrange_boundaries (shuffle : list image_path → list image_path)
    (dataset_path test_percent_entry : string) (scale test_percent : Z)
    (image_folders : gmap string (list string)) :
  dataset_path ≠ "" →
  int_of_str test_percent_entry = Ok test_percent →
  0 ≤ test_percent ≤ 100 → 0 ≤ scale ≤ 100 →
  let all_images :=
    shuffle (collect image_folders "train" ++ collect image_folders "val"
             ++ collect image_folders "test") in
  Z.of_nat (length all_images) ≤ 2 ^ 50 →
  let run :=
    rearrange_dataset shuffle dataset_path test_percent_entry scale image_folders in
  (test_percent = 100 → run = Rearranged all_images [] [])
  ∧ (test_percent = 0 →
       ∃ train_images valid_images,
         run = Rearranged [] train_images valid_images
         ∧ train_images ++ valid_images = all_images)
  ∧ (scale = 0 →
       ∃ test_images valid_images,
         run = Rearranged test_images [] valid_images
         ∧ test_images ++ valid_images = all_images)
  ∧ (test_percent = 0 → scale = 100 → run = Rearranged [] all_images []).
Proof.
  intros Hpath Hentry Hp Hs all_images Hn run.
  assert (2 ^ 50 < 2 ^ 53) as Hpow by done.
  assert (run = match (train_percent ← train_percent_of scale (100 - test_percent);
                       test_count ← test_count_of test_percent
                                      (Z.of_nat (length all_images));
                       let test_images := slice all_images None (Some test_count) in
                       let remaining_images := slice all_images (Some test_count) None in
                       train_count ← train_count_of train_percent
                                       (Z.of_nat (length remaining_images));
                       Ok (test_images,
                           slice remaining_images None (Some train_count),
                           slice remaining_images (Some train_count) None)) with
                | Ok (te, tr, va) => Rearranged te tr va
                | Raise e => Uncaught e
                end) as ->.
  { unfold run, rearrange_dataset. rewrite bool_decide_eq_false_2 by done.
    rewrite Hentry.
    rewrite (proj2 (Z.leb_le 0 test_percent)), (proj2 (Z.leb_le test_percent 100))
      by lia.
    done. }
  destruct (test_count_in_range test_percent (Z.of_nat (length all_images)))
    as (tc & Htc & Htc_range); [lia | lia |].
  assert (Z.of_nat (length (slice all_images (Some tc) None))
          = Z.of_nat (length all_images) - tc) as Hrem
    by (rewrite slice_suffix by lia; rewrite length_drop; lia).
  destruct (train_count_in_range scale (100 - test_percent)
              (Z.of_nat (length all_images) - tc))
    as (tp & trc & Htp & Htrc & Htrc_range); [lia..|].
  rewrite Htp, Htc. cbn [mbind result_bind]. rewrite Hrem, Htrc.
  cbn [mbind result_bind].
  split; [|split; [|split]].
  - intros ->. unfold test_count_of in Htc.
    change (int_truediv 100 100) with (Ok float_1 : result float) in Htc.
    cbn [mbind result_bind] in Htc. rewrite mul_one_int in Htc by lia.
    injection Htc as <-. assert (trc = 0) as -> by lia.
    destruct (slice_all all_images) as [-> ->].
    by destruct (slice_none (@nil image_path)) as [-> ->].
  - intros ->. unfold test_count_of in Htc.
    change (int_truediv 0 100) with (Ok (S754_zero false) : result float) in Htc.
    cbn [mbind result_bind] in Htc. rewrite mul_zero_int in Htc by lia.
    injection Htc as <-. destruct (slice_none all_images) as [-> ->].
    eexists _, _. split; [done|].
    rewrite slice_prefix, slice_suffix by lia. apply take_drop.
  - intros ->. pose proof zero_train_percents as Hzero.
    rewrite Forall_forall in Hzero.
    specialize (Hzero (100 - test_percent) ltac:(apply elem_of_seqZ; lia)).
    unfold zero_train_percent in Hzero. rewrite Htp in Hzero.
    destruct tp as [[]| | |]; try done. rewrite zero_train_count in Htrc by lia.
    injection Htrc as <-.
    destruct (slice_none (slice all_images (Some tc) None)) as [-> ->].
    eexists _, _. split; [done|].
    rewrite slice_prefix, slice_suffix by lia. apply take_drop.
  - intros -> ->. unfold test_count_of in Htc.
    change (int_truediv 0 100) with (Ok (S754_zero false) : result float) in Htc.
    cbn [mbind result_bind] in Htc. rewrite mul_zero_int in Htc by lia.
    injection Htc as <-. destruct (slice_none all_images) as [-> Hall].
    rewrite Hall in *.
    change (train_percent_of 100 (100 - 0)) with (Ok float_100 : result float) in Htp.
    injection Htp as <-. unfold train_count_of in Htrc.
    change (float_div float_100 float_100) with (Ok float_1 : result float) in Htrc.
    cbn [mbind result_bind] in Htrc. rewrite mul_one_int in Htrc by lia.
    injection Htrc as <-. rewrite Z.sub_0_r.
    by destruct (slice_all all_images) as [-> ->].
Qed.

Lemma rearrange_boundaries_witness :
  rearrange_dataset (λ l, l) "dataset" "100" 70 sample_folders
  = Rearranged (collect sample_folders "train" ++ collect sample_folders "val"
                ++ collect sample_folders "test") [] [].
Proof.
  apply (proj1 (rearrange_boundaries (λ l, l) "dataset" "100" 70 100 sample_folders
                  ltac:(discriminate) ltac:(vm_compute; reflexivity)
                  ltac:(lia) ltac:(lia) ltac:(vm_compute; discriminate))).
  reflexivity.
Defined.

(** ** Which files are handed to [move_files] *)

Lemma collect_elem_of image_folders split img :
  img ∈ collect image_folders split →
  img.1 = split ∧ is_image img.2 = true
  ∧ ∃ listing, image_folders !! split = Some listing ∧ img.2 ∈ listing.
Proof.
  unfold collect. destruct (image_folders !! split) as [listing|].
  - intros (f & -> & Hf)%list_elem_of_fmap.
    apply list_elem_of_filter in Hf as [Himg Hf]. cbn [fst snd].
    split; [done|]. split; [by destruct (is_image f)|]. by exists listing.
  - by intros ?%elem_of_nil.
Qed.

(** X15. Only images are handed to [move_files]: every path in the test,
    train and val lists is a file of one of the three image folders whose
    name ends in .jpg or .png. *)
Theorem only_images_are_moved (shuffle : list image_path → list image_path)
    (dataset_path test_percent_entry : string) (scale : Z)
    (image_folders : gmap string (list string))
    (test_images train_images valid_images : list image_path) :
  (∀ l, shuffle l ≡ₚ l) →
  rearrange_dataset shuffle dataset_path test_percent_entry scale image_folders
  = Rearranged test_images train_images valid_images →
  ∀ img, img ∈ test_images ++ train_images ++ valid_images →
    img.1 ∈ splits ∧ is_image img.2 = true
    ∧ ∃ listing, image_folders !! img.1 = Some listing ∧ img.2 ∈ listing.
Proof.
  intros Hperm. unfold rearrange_dataset. case_bool_decide; [done|].
  destruct (int_of_str test_percent_entry) as [test_percent|]; [|done].
  destruct (negb _); [done|].
  set (all_images := collect image_folders "train" ++ collect image_folders "val"
                     ++ collect image_folders "test").
  destruct (train_percent_of scale _) as [tp|]; [|done]. cbn [mbind result_bind].
  destruct (test_count_of _ _) as [tc|]; [|done]. cbn [mbind result_bind].
  destruct (train_count_of _ _) as [trc|]; [|done]. cbn [mbind result_bind].
  intros [= <- <- <-] img Himg.
  assert (img ∈ all_images) as Hall.
  { rewrite <- (Hperm all_images).
    rewrite !elem_of_app in Himg.
    destruct Himg as [Hi|[Hi|Hi]]; repeat apply slice_subseteq in Hi; done. }
  unfold all_images in Hall. rewrite !elem_of_app in Hall.
  destruct Hall as [Hi|[Hi|Hi]]; apply collect_elem_of in Hi as (Hsp & ? & ?);
    rewrite Hsp; (split; [|done]); unfold splits; rewrite !elem_of_cons; auto.
Qed.

Lemma only_images_are_moved_witness :
  Forall (λ img : image_path,
            img.1 ∈ splits ∧ is_image img.2 = true
            ∧ ∃ listing,
                ({[ "train" := ["a.jpg"; "notes.txt"; "b.PNG"; "c.png"] ]}
                   : gmap string (list string)) !! img.1 = Some listing
                ∧ img.2 ∈ listing)
    ([] ++ [] ++ [("train", "a.jpg"); ("train", "c.png")]).
Proof.
  apply Forall_forall.
  apply (only_images_are_moved (λ l, l) "dataset" "29" 70
           {[ "train" := ["a.jpg"; "notes.txt"; "b.PNG"; "c.png"] ]}
           [] [] [("train", "a.jpg"); ("train", "c.png")]).
  - intros l. reflexivity.
  - vm_compute. reflexivity.
Defined.

End RearrangeProps.

(** ** Paths, and the files [move_files] moves *)
Module PathLemmas.
Import Py PyLemmas Rearrange.

Example replace_examples :
  replace "abc" "" "-" = "-a-b-c-" ∧ replace "aaa" "aa" "b" = "ba"
  ∧ replace "imaimagesges" "images" "labels" = "imalabelsges"
  ∧ replace "" "" "-" = "-" ∧ replace "a.jpg.jpg" ".jpg" ".txt" = "a.txt.txt".
Proof. repeat split; reflexivity. Qed.

Example path_examples :
  path_join "d" ["train"; "images"] = "d/train/images"
  ∧ path_join "d/" ["x"] = "d/x" ∧ path_join "" ["x"] = "x"
  ∧ path_join "d" ["/x"] = "/x" ∧ path_join "d" [""] = "d/"
  ∧ basename "a/b/c.jpg" = "c.jpg" ∧ basename "a/b/" = "" ∧ basename "c" = "c"
  ∧ splitext ".jpg" = (".jpg", "") ∧ splitext "..jpg" = ("..jpg", "")
  ∧ splitext "a.b.jpg" = ("a.b", ".jpg") ∧ splitext "a." = ("a", ".")
  ∧ splitext "x/.hid.png" = ("x/.hid", ".png")
  ∧ splitext "a.jpg/b" = ("a.jpg/b", "").
Proof. repeat split; reflexivity. Qed.

Lemma prefix_cons (a b : ascii) (p s : string) :
  String.prefix (String a p) (String b s) = Ascii.eqb a b && String.prefix p s.
Proof.
  cbn [String.prefix]. destruct (ascii_dec a b) as [->|Hne].
  - by rewrite Ascii.eqb_refl.
  - by rewrite (proj2 (Ascii.eqb_neq a b) Hne).
Qed.

Lemma prefix_nil_l (s : string) : String.prefix "" s = true.
Proof. by destruct s. Qed.

Lemma length_app (a b : string) :
  String.length (a +:+ b) = (String.length a + String.length b)%nat.
Proof. induction a as [|x a IH]; sapp; simpl; [done | by rewrite IH]. Qed.

(** An occurrence that starts in [u] does not reach over a character that
    [old] holds at no place but its first. *)
Lemma prefix_app_boundary (b : ascii) (w : string) : ∀ old u,
  u ≠ "" →
  string_forall (λ c, negb (Ascii.eqb c b)) (str_drop 1 old) = true →
  String.prefix old (u +:+ String b w) = true → String.prefix old u = true.
Proof.
  intros old u Hu Htail. destruct old as [|o old]; [intros _; apply prefix_nil_l|].
  destruct u as [|x u]; [done|]. sapp. rewrite !prefix_cons.
  cbn [str_drop] in Htail. intros [Hox Hrest]%andb_prop. rewrite Hox. cbn [andb].
  clear Hu Hox o x. revert u Hrest Htail.
  induction old as [|o old IH]; intros u Hrest Htail; [apply prefix_nil_l|].
  cbn [string_forall] in Htail. apply andb_prop in Htail as [Ho Htail].
  revert Hrest. destruct u as [|x u]; sapp; rewrite ?prefix_cons.
  - intros [Hob _]%andb_prop. by rewrite Hob in Ho.
  - intros [-> Hrest]%andb_prop. cbn [andb]. by apply IH.
Qed.

(** The part of a text before an occurrence-free stretch ends is copied. *)
Lemma replace_go_free (old new : string) (b : ascii) (w : string) : ∀ u,
  free old u = true →
  string_forall (λ c, negb (Ascii.eqb c b)) (str_drop 1 old) = true →
  replace_go old new O (u +:+ String b w) = u +:+ replace_go old new O (String b w).
Proof.
  induction u as [|x u IH]; intros Hfree Htail; sapp; [done|].
  cbn [free] in Hfree. apply andb_prop in Hfree as [Hhere Hfree].
  apply negb_true_iff in Hhere.
  cbn [replace_go].
  destruct (String.prefix old (String x (u +:+ String b w))) eqn:Hocc.
  - apply (prefix_app_boundary b w old (String x u)) in Hocc; [|done..].
    congruence.
  - by rewrite IH.
Qed.

Lemma replace_go_free_end (old new : string) : ∀ u,
  free old u = true → replace_go old new O u = u.
Proof.
  induction u as [|x u IH]; intros Hfree; [done|].
  cbn [free] in Hfree. apply andb_prop in Hfree as [Hhere Hfree].
  apply negb_true_iff in Hhere. cbn [replace_go]. rewrite Hhere. by rewrite IH.
Qed.

Lemma free_app_boundary (old : string) (b : ascii) (w : string) : ∀ u,
  free old u = true → free old (String b w) = true →
  string_forall (λ c, negb (Ascii.eqb c b)) (str_drop 1 old) = true →
  free old (u +:+ String b w) = true.
Proof.
  induction u as [|x u IH]; intros Hu Hw Htail; sapp; [done|].
  pose proof Hu as Hu'. cbn [free] in Hu. apply andb_prop in Hu as [Hhere Hu].
  apply negb_true_iff in Hhere. cbn [free]. rewrite IH by done.
  rewrite andb_true_r. apply negb_true_iff.
  destruct (String.prefix old (String x (u +:+ String b w))) eqn:Hocc; [|done].
  apply (prefix_app_boundary b w old (String x u)) in Hocc; [|done..]. congruence.
Qed.

(** [rev] and [endswith]. *)
Lemma rev_app_app (a b t : string) :
  String.rev_app (a +:+ b) t = String.rev_app b (String.rev_app a t).
Proof. revert t. induction a as [|x a IH]; intros t; sapp; simpl; [done | apply IH]. Qed.

Lemma endswith_snoc (a : string) (c : ascii) :
  endswith (a +:+ String c "") "/" = Ascii.eqb "/" c.
Proof.
  unfold endswith, String.rev. rewrite rev_app_app. cbn [String.rev_app].
  rewrite prefix_cons, prefix_nil_l. by rewrite andb_true_r.
Qed.

(** The joins of [move_files] and of the collection of the images. *)
Lemma path_join2_plain (path b : string) (x : ascii) (y : ascii) (p' b' : string) :
  path = p' +:+ String x "" → b = String y b' → x ≠ "/"%char → y ≠ "/"%char →
  path_join2 path b = path +:+ "/" +:+ b.
Proof.
  intros -> -> Hx Hy. unfold path_join2. rewrite prefix_cons.
  rewrite (proj2 (Ascii.eqb_neq "/" y)) by done. cbn [andb].
  rewrite endswith_snoc, (proj2 (Ascii.eqb_neq "/" x)) by done.
  rewrite orb_false_r. by destruct p'.
Qed.

(** [basename] and the last slash. *)
Lemma basename_go_slash (r : string) : ∀ a cur,
  basename_go cur (a +:+ String "/" r) = basename_go "" r.
Proof.
  induction a as [|x a IH]; intros cur; sapp; cbn [basename_go].
  - done.
  - destruct (Ascii.eqb x "/"); apply IH.
Qed.

Lemma basename_go_no_slash : ∀ n cur,
  string_forall (λ c, negb (Ascii.eqb c "/")) n = true →
  basename_go cur n = cur +:+ n.
Proof.
  induction n as [|x n IH]; intros cur Hn; cbn [basename_go].
  - by rewrite append_nil_r.
  - cbn [string_forall] in Hn. apply andb_prop in Hn as [Hx Hn].
    apply negb_true_iff in Hx. rewrite Hx. rewrite IH by done.
    by rewrite append_snoc_cons.
Qed.

Lemma basename_file (a n : string) :
  string_forall (λ c, negb (Ascii.eqb c "/")) n = true →
  basename (a +:+ String "/" n) = n.
Proof.
  intros Hn. unfold basename. rewrite basename_go_slash.
  by rewrite basename_go_no_slash.
Qed.

(** [rfind], [str_take], [str_drop] on a text put together from two. *)
Lemma rfind_go_app (c : ascii) : ∀ a b i best,
  rfind_go c i best (a +:+ b)
  = rfind_go c (i + String.length a) (rfind_go c i best a) b.
Proof.
  induction a as [|x a IH]; intros b i best; sapp; cbn [rfind_go String.length].
  - by rewrite Nat.add_0_r.
  - rewrite IH. f_equal. lia.
Qed.

Lemma rfind_go_absent (c : ascii) : ∀ s i best,
  string_forall (λ x, negb (Ascii.eqb x c)) s = true → rfind_go c i best s = best.
Proof.
  induction s as [|x s IH]; intros i best Hs; [done|].
  cbn [string_forall] in Hs. apply andb_prop in Hs as [Hx Hs].
  apply negb_true_iff in Hx. cbn [rfind_go]. rewrite Hx. by apply IH.
Qed.

Lemma str_take_app (a b : string) : str_take (String.length a) (a +:+ b) = a.
Proof. induction a as [|x a IH]; sapp; simpl; [by destruct b | by rewrite IH]. Qed.

Lemma str_drop_app (a b : string) : str_drop (String.length a) (a +:+ b) = b.
Proof. induction a as [|x a IH]; sapp; simpl; done. Qed.

(** [splitext] of a name that ends in an extension of letters. *)
Lemma splitext_name (stem ext : string) :
  string_forall (λ c, negb (Ascii.eqb c "/")) stem = true →
  string_forall (λ c, Ascii.eqb c ".") stem = false →
  string_forall (λ c, negb (Ascii.eqb c "/") && negb (Ascii.eqb c ".")) ext = true →
  splitext (stem +:+ String "." ext) = (stem, String "." ext).
Proof.
  intros Hslash Hdots Hext.
  assert (string_forall (λ c, negb (Ascii.eqb c "/")) ext = true
          ∧ string_forall (λ c, negb (Ascii.eqb c ".")) ext = true) as [Hes Hed].
  { clear -Hext. induction ext as [|x ext IH]; [done|].
    cbn [string_forall] in *. apply andb_prop in Hext as [Hx Hext].
    apply andb_prop in Hx as [-> ->]. cbn [andb]. by apply IH. }
  unfold splitext, rfind.
  rewrite (rfind_go_absent "/") by (rewrite string_forall_app, Hslash; cbn [string_forall]; by rewrite Hes).
  rewrite rfind_go_app. cbn [rfind_go]. rewrite Ascii.eqb_refl.
  rewrite rfind_go_absent by done. cbn [Nat.add].
  rewrite (proj2 (Z.ltb_lt _ _)) by lia. cbn [andb].
  replace (Z.to_nat (Z.of_nat (String.length stem) - -1 - 1)) with (String.length stem)
    by lia.
  change (Z.to_nat (-1 + 1)) with O. cbn [str_drop].
  rewrite Nat2Z.id, str_take_app, str_drop_app, Hdots. done.
Qed.

Lemma replace_go_skip (old new : string) : ∀ k s,
  replace_go old new k s = replace_go old new O (str_drop k s).
Proof.
  induction k as [|k IH]; intros s; [by destruct s|].
  destruct s as [|c s]; [done|]. cbn [replace_go str_drop]. apply IH.
Qed.

Lemma prefix_split : ∀ old s,
  String.prefix old s = true → s = old +:+ str_drop (String.length old) s.
Proof.
  induction old as [|o old IH]; intros s; [by destruct s|].
  destruct s as [|c s]; [done|]. rewrite prefix_cons.
  intros [Hoc Hrest]%andb_prop. apply Ascii.eqb_eq in Hoc as ->.
  sapp. cbn [String.length str_drop]. f_equal. by apply IH.
Qed.

Lemma prefix_app_r : ∀ old s rest,
  String.prefix old s = true → String.prefix old (s +:+ rest) = true.
Proof.
  induction old as [|o old IH]; intros s rest; [intros _; apply prefix_nil_l|].
  destruct s as [|c s]; [done|]. sapp. rewrite !prefix_cons.
  intros [-> Hrest]%andb_prop. cbn [andb]. by apply IH.
Qed.

Lemma prefix_append : ∀ a b, String.prefix a (a +:+ b) = true.
Proof.
  induction a as [|x a IH]; intros b; [apply prefix_nil_l|].
  sapp. rewrite prefix_cons, Ascii.eqb_refl. apply IH.
Qed.

Lemma prefix_get : ∀ a t i x,
  String.prefix a t = true → String.get i a = Some x → String.get i t = Some x.
Proof.
  induction a as [|y a IH]; intros t i x; [by destruct i|].
  destruct t as [|c t]; [done|]. rewrite prefix_cons.
  intros [Hyc Hrest]%andb_prop. apply Ascii.eqb_eq in Hyc as ->.
  destruct i as [|i]; [done|]. cbn [String.get]. by apply IH.
Qed.

Lemma string_forall_get (P : ascii → bool) : ∀ s i x,
  string_forall P s = true → String.get i s = Some x → P x = true.
Proof.
  induction s as [|c s IH]; intros i x; [by destruct i|].
  cbn [string_forall]. intros [Hc Hs]%andb_prop.
  destruct i as [|i]; cbn [String.get]; [by intros [= <-] | by apply IH].
Qed.

(** At an occurrence, [new] is written and the occurrence is passed. *)
Lemma replace_go_occurrence (old new s : string) :
  old ≠ "" → String.prefix old s = true →
  replace_go old new O s
  = new +:+ replace_go old new O (str_drop (String.length old) s).
Proof.
  intros Hold Hocc. destruct s as [|c s]; [by destruct old|].
  cbn [replace_go]. rewrite Hocc, replace_go_skip.
  destruct old as [|o old]; [done|]. cbn [String.length str_drop].
  by replace (S (String.length old) - 1)%nat with (String.length old) by lia.
Qed.

(** Where [old] first occurs in a text that starts with [d], the first
    character of [new] is written. *)
Lemma replace_go_first (o n : ascii) (old' new' : string) : ∀ d rest,
  free (String o old') d = false →
  ∃ i, String.get i d = Some o
       ∧ String.get i (replace_go (String o old') (String n new') O (d +:+ rest))
         = Some n.
Proof.
  induction d as [|c d IH]; intros rest Hfree; [done|].
  cbn [free] in Hfree. sapp. cbn [replace_go].
  destruct (String.prefix (String o old') (String c (d +:+ rest))) eqn:Hocc.
  - exists O. split; [|done]. rewrite prefix_cons in Hocc.
    apply andb_prop in Hocc as [Hoc _]. by apply Ascii.eqb_eq in Hoc as ->.
  - destruct (String.prefix (String o old') (String c d)) eqn:Hhere.
    + apply (prefix_app_r _ _ rest) in Hhere. revert Hhere. sapp. congruence.
    + cbn [negb andb] in Hfree. destruct (IH rest Hfree) as (i & Hd & Hr).
      by exists (S i).
Qed.

(** A character that [old] does not hold stays where it is when [old] is
    replaced by a text of the same length. *)
Lemma replace_go_keeps (old new : string) (x : ascii) :
  old ≠ "" → String.length old = String.length new →
  string_forall (λ c, negb (Ascii.eqb c x)) old = true →
  ∀ m s i, (String.length s ≤ m)%nat → String.get i s = Some x →
    String.get i (replace_go old new O s) = Some x.
Proof.
  intros Hold Hlen Hx. induction m as [|m IH]; intros s i Hm Hget.
  { destruct s; [by destruct i | simpl in Hm; lia]. }
  destruct s as [|c s]; [by destruct i|].
  destruct (String.prefix old (String c s)) eqn:Hocc.
  - rewrite (replace_go_occurrence old new _ Hold Hocc).
    pose proof (prefix_split _ _ Hocc) as Hsplit.
    set (rest := str_drop (String.length old) (String c s)) in *.
    assert (String.length old + String.length rest = S (String.length s))%nat as Hl.
    { rewrite <- length_app, <- Hsplit. done. }
    assert (String.length old ≠ 0)%nat as Hpos by (by destruct old).
    rewrite Hsplit in Hget.
    destruct (lt_dec i (String.length old)) as [Hlt | Hge].
    + rewrite <- append_correct1 in Hget by done.
      apply (string_forall_get _ _ _ _ Hx) in Hget.
      by rewrite Ascii.eqb_refl in Hget.
    + replace i with ((i - String.length old) + String.length old)%nat in Hget by lia.
      rewrite <- append_correct2 in Hget.
      replace i with ((i - String.length old) + String.length new)%nat at 1 by lia.
      rewrite <- append_correct2. apply IH; [|done]. simpl in Hm. lia.
  - cbn [replace_go]. rewrite Hocc. destruct i as [|i]; [done|].
    cbn [String.get] in *. apply IH; [|done]. simpl in Hm. lia.
Qed.

(** With "images" in the dataset folder's path, the label is looked for
    outside that folder. *)
Lemma label_source_outside (d rest : string) :
  free "images" d = false → String.prefix d (label_source (d +:+ rest)) = false.
Proof.
  intros Hfree. unfold label_source.
  change (replace ?a "images" "labels") with (replace_go "images" "labels" O a).
  change (replace ?a ".jpg" ".txt") with (replace_go ".jpg" ".txt" O a).
  change (replace ?a ".png" ".txt") with (replace_go ".png" ".txt" O a).
  destruct (replace_go_first "i" "l" "mages" "abels" d rest Hfree) as (i & Hd & Hr).
  apply (replace_go_keeps ".jpg" ".txt" "l" ltac:(done) eq_refl eq_refl _ _ _ (le_n _))
    in Hr.
  apply (replace_go_keeps ".png" ".txt" "l" ltac:(done) eq_refl eq_refl _ _ _ (le_n _))
    in Hr.
  destruct (String.prefix d _) eqn:Hpre; [|done].
  rewrite (prefix_get _ _ _ _ Hpre Hd) in Hr. discriminate Hr.
Qed.

End PathLemmas.

Module MoveLemmas.
Import Py PyLemmas Rearrange PathLemmas.

(** A join with a folder that is not empty and does not end in a slash. *)
Lemma path_join2_dir (path b : string) :
  path ≠ "" → endswith path "/" = false → String.prefix "/" b = false →
  path_join2 path b = path +:+ String "/" b.
Proof.
  intros Hne Hend Hb. unfold path_join2. rewrite Hb, Hend.
  rewrite (proj2 (String.eqb_neq path "")) by done. cbn [orb].
  reflexivity.
Qed.

Lemma append_ne_nil (a : string) (c : ascii) (b : string) : a +:+ String c b ≠ "".
Proof. destruct a; sapp; discriminate. Qed.

Lemma endswith_app_snoc (a b : string) (c : ascii) :
  endswith (a +:+ (b +:+ String c "")) "/" = Ascii.eqb "/" c.
Proof. by rewrite <- append_assoc, endswith_snoc. Qed.

Lemma split_cases (s : string) :
  s ∈ splits → s = "train" ∨ s = "val" ∨ s = "test".
Proof.
  unfold splits. rewrite !elem_of_cons. intros [?|[?|[?|H]]]; auto.
  by apply elem_of_nil in H.
Qed.

(** The folder of a kind of files of a split, and a file in it. *)
Lemma split_folder (dataset_path s kind name : string) (k : ascii) (kind' : string)
    (y : ascii) (name' : string) :
  dataset_path ≠ "" → endswith dataset_path "/" = false → s ∈ splits →
  kind = kind' +:+ String k "" → k ≠ "/"%char →
  String.prefix "/" kind = false →
  name = String y name' → y ≠ "/"%char →
  path_join (path_join dataset_path [s; kind]) [name]
  = dataset_path +:+ String "/" (s +:+ String "/" (kind +:+ String "/" name)).
Proof.
  intros Hne Hend Hs -> Hk Hkind -> Hy. cbn [path_join foldl].
  assert (path_join2 dataset_path s = dataset_path +:+ String "/" s) as ->.
  { apply path_join2_dir; [done..|].
    by destruct (split_cases s Hs) as [-> | [-> | ->]]. }
  assert (endswith (dataset_path +:+ String "/" s) "/" = false) as Hend1.
  { destruct (split_cases s Hs) as [-> | [-> | ->]].
    - exact (endswith_app_snoc dataset_path "/trai" "n").
    - exact (endswith_app_snoc dataset_path "/va" "l").
    - exact (endswith_app_snoc dataset_path "/tes" "t"). }
  rewrite (path_join2_dir (dataset_path +:+ String "/" s) (kind' +:+ String k ""));
    [|apply append_ne_nil | done | done].
  rewrite path_join2_dir.
  - rewrite !append_assoc. sapp. by rewrite !append_assoc.
  - apply append_ne_nil.
  - rewrite append_assoc. sapp.
    assert (String "/" (s +:+ String "/" (kind' +:+ String k ""))
            = String "/" (s +:+ String "/" kind') +:+ String k "") as ->
      by (sapp; rewrite append_assoc; by sapp).
    rewrite endswith_app_snoc. by apply Ascii.eqb_neq.
  - rewrite prefix_cons. by rewrite (proj2 (Ascii.eqb_neq "/" y)).
Qed.

(** One replacement on a path: the dataset folder and the stem are copied,
    the folders between them are handled as the last hypothesis says. *)
Lemma replace_in_path (old new dataset_path seg seg' stem ext : string) :
  free old dataset_path = true → free old stem = true →
  string_forall (λ c, negb (Ascii.eqb c "/")) (str_drop 1 old) = true →
  string_forall (λ c, negb (Ascii.eqb c ".")) (str_drop 1 old) = true →
  (∀ x, replace_go old new O (String "/" (seg +:+ x))
        = String "/" (seg' +:+ replace_go old new O x)) →
  replace_go old new O (dataset_path +:+ String "/" (seg +:+ (stem +:+ String "." ext)))
  = dataset_path +:+ String "/" (seg' +:+ (stem +:+ replace_go old new O (String "." ext))).
Proof.
  intros Hd Hstem Hslash Hdot Hseg.
  rewrite (replace_go_free old new "/" (seg +:+ (stem +:+ String "." ext))
             dataset_path Hd Hslash).
  rewrite (Hseg (stem +:+ String "." ext)).
  by rewrite (replace_go_free old new "." ext stem Hstem Hdot).
Qed.

(** The three replacements of [move_files] on the path of an image. *)
Lemma label_source_path (dataset_path segi segl stem ext : string) :
  plain dataset_path = true → plain stem = true → ext ∈ ["jpg"; "png"] →
  (∀ x, replace_go "images" "labels" O (String "/" (segi +:+ x))
        = String "/" (segl +:+ replace_go "images" "labels" O x)) →
  (∀ x, replace_go ".jpg" ".txt" O (String "/" (segl +:+ x))
        = String "/" (segl +:+ replace_go ".jpg" ".txt" O x)) →
  (∀ x, replace_go ".png" ".txt" O (String "/" (segl +:+ x))
        = String "/" (segl +:+ replace_go ".png" ".txt" O x)) →
  label_source (dataset_path +:+ String "/" (segi +:+ (stem +:+ String "." ext)))
  = dataset_path +:+ String "/" (segl +:+ (stem +:+ ".txt")).
Proof.
  intros Hd Hs Hext Himages Hjpg Hpng.
  unfold plain in Hd, Hs.
  apply andb_prop in Hd as [Hd Hdpng]. apply andb_prop in Hd as [Hdimg Hdjpg].
  apply andb_prop in Hs as [Hs Hspng]. apply andb_prop in Hs as [Hsimg Hsjpg].
  unfold label_source.
  change (replace ?a "images" "labels") with (replace_go "images" "labels" O a).
  change (replace ?a ".jpg" ".txt") with (replace_go ".jpg" ".txt" O a).
  change (replace ?a ".png" ".txt") with (replace_go ".png" ".txt" O a).
  rewrite (replace_in_path "images" "labels" dataset_path segi segl stem ext
             Hdimg Hsimg eq_refl eq_refl Himages).
  apply elem_of_cons in Hext as [->|Hext];
    [|apply elem_of_cons in Hext as [->|Hext]; [|by apply elem_of_nil in Hext]].
  - change (replace_go "images" "labels" 0 ".jpg") with ".jpg".
    rewrite (replace_in_path ".jpg" ".txt" dataset_path segl segl stem "jpg"
               Hdjpg Hsjpg eq_refl eq_refl Hjpg).
    change (replace_go ".jpg" ".txt" 0 ".jpg") with ".txt".
    rewrite (replace_in_path ".png" ".txt" dataset_path segl segl stem "txt"
               Hdpng Hspng eq_refl eq_refl Hpng).
    reflexivity.
  - change (replace_go "images" "labels" 0 ".png") with ".png".
    rewrite (replace_in_path ".jpg" ".txt" dataset_path segl segl stem "png"
               Hdjpg Hsjpg eq_refl eq_refl Hjpg).
    change (replace_go ".jpg" ".txt" 0 ".png") with ".png".
    rewrite (replace_in_path ".png" ".txt" dataset_path segl segl stem "png"
               Hdpng Hspng eq_refl eq_refl Hpng).
    reflexivity.
Qed.

Ltac segment := intros x; sapp; reflexivity.

(** The paths of the images and the path a label is moved to: the joins,
    [basename] and [splitext]. *)
Lemma image_paths (dataset_path s split stem ext : string) :
  folder_named dataset_path = true → s ∈ splits → split ∈ splits →
  name_ok stem = true → ext ∈ ["jpg"; "png"] →
  let name := stem +:+ "." +:+ ext in
  let file := image_file dataset_path (s, name) in
  file = dataset_path +:+ "/" +:+ s +:+ "/images/" +:+ name
  ∧ image_dest dataset_path split file
    = dataset_path +:+ "/" +:+ split +:+ "/images/" +:+ name
  ∧ label_dest dataset_path split file
    = dataset_path +:+ "/" +:+ split +:+ "/labels/" +:+ stem +:+ ".txt".
Proof.
  intros Hfolder Hs Hsplit Hstem Hext name file.
  unfold folder_named in Hfolder. apply andb_prop in Hfolder as [Hne Hend].
  apply negb_true_iff in Hne, Hend. apply String.eqb_neq in Hne.
  unfold name_ok in Hstem.
  apply andb_prop in Hstem as [Hslash Hdots]. apply negb_true_iff in Hdots.
  assert (ext = "jpg" ∨ ext = "png") as Hext'.
  { apply elem_of_cons in Hext as [->|Hext]; [by left|].
    apply elem_of_cons in Hext as [->|Hext]; [by right|]. by apply elem_of_nil in Hext. }
  assert (∃ y stem', stem = String y stem' ∧ y ≠ "/"%char) as (y & stem' & Hy & Hyne).
  { destruct stem as [|y stem']; [done|]. exists y, stem'. split; [done|].
    cbn [string_forall] in Hslash. apply andb_prop in Hslash as [Hy _].
    apply negb_true_iff in Hy. by apply Ascii.eqb_neq. }
  assert (name = String y (stem' +:+ "." +:+ ext)) as Hname_cons
    by (unfold name; rewrite Hy; by sapp).
  assert (string_forall (λ c, negb (Ascii.eqb c "/")) name = true) as Hname.
  { unfold name. rewrite string_forall_app, Hslash. by destruct Hext' as [-> | ->]. }
  assert (∀ sp kind k kind' nm, sp ∈ splits → kind = kind' +:+ String k "" →
            k ≠ "/"%char → String.prefix "/" kind = false →
            nm = name ∨ nm = stem +:+ ".txt" →
            path_join (path_join dataset_path [sp; kind]) [nm]
            = dataset_path +:+ String "/" (sp +:+ String "/" (kind +:+ String "/" nm)))
    as Hjoin.
  { intros sp kind k kind' nm Hsp Hkind Hk Hpre Hnm.
    destruct Hnm as [-> | ->].
    - by eapply (split_folder dataset_path sp kind name k kind' y).
    - eapply (split_folder dataset_path sp kind _ k kind' y (stem' +:+ ".txt")); try done.
      rewrite Hy. by sapp. }
  assert (file = dataset_path +:+ String "/" (s +:+ String "/" ("images" +:+ String "/" name)))
    as Hfile.
  { unfold file, image_file. cbn [fst snd].
    apply (Hjoin s "images" "s"%char "image" name); auto. }
  assert (basename file = name) as Hbase.
  { rewrite Hfile.
    assert (dataset_path +:+ String "/" (s +:+ String "/" ("images" +:+ String "/" name))
            = (dataset_path +:+ String "/" (s +:+ "/images")) +:+ String "/" name) as ->
      by (rewrite !append_assoc; sapp; rewrite !append_assoc; by sapp).
    by apply basename_file. }
  assert (splitext name = (stem, String "." ext)) as Hsplitext.
  { unfold name. apply splitext_name; [done..|]. by destruct Hext' as [-> | ->]. }
  split; [|split].
  - rewrite Hfile. by sapp.
  - unfold image_dest. rewrite Hbase.
    rewrite (Hjoin split "images" "s"%char "image" name); auto.
  - unfold label_dest, label_name. rewrite Hbase, Hsplitext. cbn [fst].
    rewrite (Hjoin split "labels" "s"%char "label" (stem +:+ ".txt")); auto.
Qed.

(** The paths [move_files] computes for an image of the dataset, when the
    folder and the stem are plain. *)
Lemma move_paths (dataset_path s split stem ext : string) :
  folder_ok dataset_path = true → s ∈ splits → split ∈ splits →
  stem_ok stem = true → ext ∈ ["jpg"; "png"] →
  let name := stem +:+ "." +:+ ext in
  let file := image_file dataset_path (s, name) in
  file = dataset_path +:+ "/" +:+ s +:+ "/images/" +:+ name
  ∧ image_dest dataset_path split file
    = dataset_path +:+ "/" +:+ split +:+ "/images/" +:+ name
  ∧ label_source file
    = dataset_path +:+ "/" +:+ s +:+ "/labels/" +:+ stem +:+ ".txt"
  ∧ label_dest dataset_path split file
    = dataset_path +:+ "/" +:+ split +:+ "/labels/" +:+ stem +:+ ".txt".
Proof.
  intros Hfolder Hs Hsplit Hstem Hext name file.
  unfold folder_ok in Hfolder. apply andb_prop in Hfolder as [Hfolder Hplain].
  unfold stem_ok in Hstem. apply andb_prop in Hstem as [Hstem Hsplain].
  destruct (image_paths dataset_path s split stem ext Hfolder Hs Hsplit Hstem Hext)
    as (Hfile & Hdest & Hldest).
  fold name in Hfile, Hdest, Hldest. fold file in Hfile, Hdest, Hldest.
  split; [done|]. split; [done|]. split; [|done].
  rewrite Hfile. unfold name.
  destruct (split_cases s Hs) as [-> | [-> | ->]].
  - etrans; [apply (label_source_path dataset_path "train/images/" "train/labels/"
                      stem ext Hplain Hsplain Hext); segment|]. by sapp.
  - etrans; [apply (label_source_path dataset_path "val/images/" "val/labels/"
                      stem ext Hplain Hsplain Hext); segment|]. by sapp.
  - etrans; [apply (label_source_path dataset_path "test/images/" "test/labels/"
                      stem ext Hplain Hsplain Hext); segment|]. by sapp.
Qed.

Lemma append_inj_l (a x y : string) : a +:+ x = a +:+ y → x = y.
Proof. induction a as [|c a IH]; sapp; [done|]. intros [= H]. by apply IH. Qed.

(** A name is split at its last dot in one way. *)
Lemma name_inj (stem stem' e e' : string) :
  string_forall (λ c, negb (Ascii.eqb c ".")) e = true →
  string_forall (λ c, negb (Ascii.eqb c ".")) e' = true →
  stem +:+ String "." e = stem' +:+ String "." e' → stem = stem' ∧ e = e'.
Proof.
  intros He He' Heq.
  assert (rfind_go "." O None (stem +:+ String "." e) = Some (String.length stem)) as H1.
  { rewrite rfind_go_app. cbn [rfind_go]. rewrite Ascii.eqb_refl.
    by rewrite rfind_go_absent. }
  assert (rfind_go "." O None (stem' +:+ String "." e') = Some (String.length stem')) as H2.
  { rewrite rfind_go_app. cbn [rfind_go]. rewrite Ascii.eqb_refl.
    by rewrite rfind_go_absent. }
  rewrite Heq, H2 in H1. injection H1 as Hlen.
  pose proof (str_take_app stem (String "." e)) as Ht.
  pose proof (str_drop_app stem (String "." e)) as Hd.
  rewrite Heq, <- Hlen in Ht, Hd. rewrite str_take_app in Ht. rewrite str_drop_app in Hd.
  split; [done | congruence].
Qed.

(** Two paths of the dataset are the same only with the same split, kind
    and name. *)
Lemma dataset_path_inj (dataset_path sp sp' kind kind' n n' : string) :
  sp ∈ splits → sp' ∈ splits →
  kind ∈ ["images"; "labels"] → kind' ∈ ["images"; "labels"] →
  dataset_path +:+ String "/" (sp +:+ String "/" (kind +:+ String "/" n))
  = dataset_path +:+ String "/" (sp' +:+ String "/" (kind' +:+ String "/" n')) →
  sp = sp' ∧ kind = kind' ∧ n = n'.
Proof.
  intros Hsp Hsp' Hk Hk' Heq. apply append_inj_l in Heq.
  assert (kind = "images" ∨ kind = "labels") as Hkc.
  { apply elem_of_cons in Hk as [->|Hk]; [by left|].
    apply elem_of_cons in Hk as [->|Hk]; [by right|]. by apply elem_of_nil in Hk. }
  assert (kind' = "images" ∨ kind' = "labels") as Hkc'.
  { apply elem_of_cons in Hk' as [->|Hk']; [by left|].
    apply elem_of_cons in Hk' as [->|Hk']; [by right|]. by apply elem_of_nil in Hk'. }
  destruct (split_cases sp Hsp) as [-> | [-> | ->]];
    destruct (split_cases sp' Hsp') as [-> | [-> | ->]];
    destruct Hkc as [-> | ->]; destruct Hkc' as [-> | ->];
    revert Heq; sapp; intros Heq; try discriminate Heq;
    injection Heq as ->; done.
Qed.

Lemma ext_cases (ext : string) : ext ∈ ["jpg"; "png"] → ext = "jpg" ∨ ext = "png".
Proof.
  intros Hext. apply elem_of_cons in Hext as [-> | Hext]; [by left|].
  apply elem_of_cons in Hext as [-> | Hext]; [by right|]. by apply elem_of_nil in Hext.
Qed.

Ltac kind_in := first [apply list_elem_of_here | apply list_elem_of_further, list_elem_of_here].

Lemma not_in_item_paths D split (it : item) p :
  p ∉ item_paths D split it →
  item_image D it.1.1 it ≠ p ∧ item_image D split it ≠ p
  ∧ item_label D it.1.1 it ≠ p ∧ item_label D split it ≠ p.
Proof.
  unfold item_paths. rewrite !not_elem_of_cons.
  intros (? & ? & ? & ? & _). repeat split; congruence.
Qed.

Lemma in_item_paths D split (it : item) :
  item_image D it.1.1 it ∈ item_paths D split it
  ∧ item_image D split it ∈ item_paths D split it
  ∧ item_label D it.1.1 it ∈ item_paths D split it
  ∧ item_label D split it ∈ item_paths D split it.
Proof. unfold item_paths. rewrite !elem_of_cons. tauto. Qed.

Lemma image_image_inj D sp sp' (it it' : item) :
  sp ∈ splits → sp' ∈ splits → item_ok it → item_ok it' →
  item_image D sp it = item_image D sp' it' →
  sp = sp' ∧ it.1.2 = it'.1.2 ∧ it.2 = it'.2.
Proof.
  intros Hsp Hsp' (_ & _ & He) (_ & _ & He') Heq. unfold item_image in Heq.
  apply (dataset_path_inj D sp sp' "images" "images"
           (it.1.2 +:+ "." +:+ it.2) (it'.1.2 +:+ "." +:+ it'.2)) in Heq
    as (-> & _ & Hn); [|done|done|kind_in..].
  split; [done|]. apply name_inj in Hn; [done|..].
  - by destruct (ext_cases _ He) as [-> | ->].
  - by destruct (ext_cases _ He') as [-> | ->].
Qed.

Lemma label_label_inj D sp sp' (it it' : item) :
  sp ∈ splits → sp' ∈ splits →
  item_label D sp it = item_label D sp' it' → sp = sp' ∧ it.1.2 = it'.1.2.
Proof.
  intros Hsp Hsp' Heq. unfold item_label in Heq.
  apply (dataset_path_inj D sp sp' "labels" "labels"
           (it.1.2 +:+ ".txt") (it'.1.2 +:+ ".txt")) in Heq
    as (-> & _ & Hn); [|done|done|kind_in..].
  split; [done|]. by apply (name_inj _ _ "txt" "txt") in Hn as [? _].
Qed.

Lemma image_label_ne D sp sp' (it it' : item) :
  sp ∈ splits → sp' ∈ splits → item_image D sp it ≠ item_label D sp' it'.
Proof.
  intros Hsp Hsp' Heq. unfold item_image, item_label in Heq.
  by apply (dataset_path_inj D sp sp' "images" "labels"
           (it.1.2 +:+ "." +:+ it.2) (it'.1.2 +:+ ".txt")) in Heq
    as (_ & ? & _); [|done|done|kind_in..].
Qed.

(** Images of different stems share no path. *)
Lemma item_paths_disjoint D split split' (it it' : item) p :
  split ∈ splits → split' ∈ splits → item_ok it → item_ok it' → it.1.2 ≠ it'.1.2 →
  p ∈ item_paths D split it → p ∉ item_paths D split' it'.
Proof.
  intros Hsplit Hsplit' Hok Hok' Hne Hp Hp'.
  pose proof Hok as (Hs & _). pose proof Hok' as (Hs' & _).
  unfold item_paths in Hp, Hp'.
  repeat (apply elem_of_cons in Hp as [-> | Hp]); [..|by apply elem_of_nil in Hp];
    repeat (apply elem_of_cons in Hp' as [Hp' | Hp']);
    try (by apply elem_of_nil in Hp');
    first [ by apply image_image_inj in Hp' as (_ & ? & _)
          | by apply label_label_inj in Hp' as (_ & ?)
          | by apply image_label_ne in Hp'
          | by (symmetry in Hp'; apply image_label_ne in Hp') ].
Qed.

(** The paths of one image. *)
Lemma item_file_paths D split (it : item) :
  folder_ok D = true → split ∈ splits → item_ok it →
  item_file D it = item_image D it.1.1 it
  ∧ image_dest D split (item_file D it) = item_image D split it
  ∧ label_source (item_file D it) = item_label D it.1.1 it
  ∧ label_dest D split (item_file D it) = item_label D split it.
Proof.
  intros HD Hsplit (Hs & Hstem & Hext).
  exact (move_paths D it.1.1 split it.1.2 it.2 HD Hs Hsplit Hstem Hext).
Qed.

Lemma move_found src dst (fs : gmap string string) c :
  fs !! src = Some c → move src dst fs = Some (<[dst := c]> (delete src fs)).
Proof. intros H. unfold move. by rewrite H. Qed.

(** What one round of the loop of [move_files] does. *)
Lemma move_files_step D split (it : item) (fs : gmap string string) c :
  folder_ok D = true → split ∈ splits → item_ok it →
  fs !! item_image D it.1.1 it = Some c →
  ∃ fs2,
    (∀ files, move_files D split (item_file D it :: files) fs
              = move_files D split files fs2)
    ∧ fs2 !! item_image D split it = Some c
    ∧ (is_Some (fs !! item_label D it.1.1 it) →
         fs2 !! item_label D split it = fs !! item_label D it.1.1 it)
    ∧ (fs !! item_label D it.1.1 it = None →
         fs2 !! item_label D split it = fs !! item_label D split it)
    ∧ (it.1.1 ≠ split →
         fs2 !! item_image D it.1.1 it = None ∧ fs2 !! item_label D it.1.1 it = None)
    ∧ (∀ p, p ∉ item_paths D split it → fs2 !! p = fs !! p).
Proof.
  intros HD Hsplit Hok Himg. pose proof Hok as (Hs & _).
  destruct (item_file_paths D split it HD Hsplit Hok) as (Hfile & Hdest & Hsrc & Hldest).
  set (fs1 := <[item_image D split it := c]> (delete (item_image D it.1.1 it) fs)).
  assert (∀ sp, sp ∈ splits → fs1 !! item_label D sp it = fs !! item_label D sp it) as Hlbl.
  { intros sp Hsp. unfold fs1.
    rewrite lookup_insert_ne by (by apply image_label_ne).
    by rewrite lookup_delete_ne by (by apply image_label_ne). }
  assert (∀ p, p ∉ item_paths D split it → fs1 !! p = fs !! p) as Hframe1.
  { intros p Hp. apply not_in_item_paths in Hp as (H1 & H2 & _). unfold fs1.
    rewrite lookup_insert_ne by done. by rewrite lookup_delete_ne by done. }
  assert (it.1.1 ≠ split → fs1 !! item_image D it.1.1 it = None) as Hgone1.
  { intros Hne. unfold fs1. rewrite lookup_insert_ne.
    - by rewrite lookup_delete_eq.
    - intros Heq. apply image_image_inj in Heq as (? & _); done. }
  destruct (fs !! item_label D it.1.1 it) as [l|] eqn:El.
  - exists (<[item_label D split it := l]> (delete (item_label D it.1.1 it) fs1)).
    split; [|split; [|split; [|split; [|split]]]].
    + intros files. cbn [move_files]. rewrite Hdest, Hsrc, Hldest, Hfile.
      rewrite (move_found _ _ fs c Himg). cbn [mbind option_bind]. fold fs1.
      rewrite bool_decide_eq_true_2 by (rewrite Hlbl, El; eauto).
      rewrite (move_found _ _ fs1 l); [done|]. by rewrite Hlbl.
    + rewrite lookup_insert_ne by (intros Heq; symmetry in Heq; by apply image_label_ne in Heq).
      rewrite lookup_delete_ne by (intros Heq; symmetry in Heq; by apply image_label_ne in Heq).
      unfold fs1. by rewrite lookup_insert_eq.
    + intros _. by rewrite lookup_insert_eq.
    + done.
    + intros Hne. split.
      * rewrite lookup_insert_ne
          by (intros Heq; symmetry in Heq; by apply image_label_ne in Heq).
        rewrite lookup_delete_ne
          by (intros Heq; symmetry in Heq; by apply image_label_ne in Heq).
        by apply Hgone1.
      * rewrite lookup_insert_ne.
        -- by rewrite lookup_delete_eq.
        -- intros Heq. apply label_label_inj in Heq as (? & _); done.
    + intros p Hp. pose proof (not_in_item_paths _ _ _ _ Hp) as (_ & _ & H3 & H4).
      rewrite lookup_insert_ne by done. rewrite lookup_delete_ne by done.
      by apply Hframe1.
  - exists fs1. split; [|split; [|split; [|split; [|split]]]].
    + intros files. cbn [move_files]. rewrite Hdest, Hsrc, Hldest, Hfile.
      rewrite (move_found _ _ fs c Himg). cbn [mbind option_bind]. fold fs1.
      rewrite bool_decide_eq_false_2; [done|].
      rewrite Hlbl, El by done. by intros [? ?].
    + unfold fs1. by rewrite lookup_insert_eq.
    + by intros [? ?].
    + intros _. by apply Hlbl.
    + intros Hne. split; [by apply Hgone1|]. by rewrite Hlbl.
    + done.
Qed.

(** What a run leaves alone: the paths of an image of another stem. *)
Lemma move_files_frame D split sp (items : list item) (it' : item)
    (fs fs' : gmap string string) p :
  split ∈ splits → sp ∈ splits → Forall item_ok items → item_ok it' →
  (∀ it, it ∈ items → it.1.2 ≠ it'.1.2) →
  (∀ p, (∀ it, it ∈ items → p ∉ item_paths D split it) → fs' !! p = fs !! p) →
  p ∈ item_paths D sp it' → fs' !! p = fs !! p.
Proof.
  intros Hsplit Hsp Hoks Hok' Hdiff Hframe Hp. apply Hframe. intros it Hin.
  rewrite Forall_forall in Hoks.
  apply (item_paths_disjoint D sp split it' it); auto. by apply not_eq_sym, Hdiff.
Qed.

(** The moves of a whole list, for images of different stems. *)
Lemma move_files_spec D split : ∀ (items : list item) (fs : gmap string string),
  folder_ok D = true → split ∈ splits → Forall item_ok items →
  NoDup ((λ it : item, it.1.2) <$> items) →
  (∀ it, it ∈ items → is_Some (fs !! item_image D it.1.1 it)) →
  ∃ fs',
    move_files D split (item_file D <$> items) fs = Some fs'
    ∧ (∀ it, it ∈ items → moved D split it fs fs')
    ∧ (∀ p, (∀ it, it ∈ items → p ∉ item_paths D split it) → fs' !! p = fs !! p).
Proof.
  intros items. induction items as [|it items IH]; intros fs HD Hsplit Hok Hnd Hex.
  - exists fs. split; [done|]. split; [|done]. by intros it ?%elem_of_nil.
  - apply Forall_cons in Hok as [Hok Hoks]. rewrite fmap_cons in Hnd.
    apply NoDup_cons in Hnd as [Hnotin Hnd].
    assert (∀ it', it' ∈ items → it.1.2 ≠ it'.1.2) as Hdiff.
    { intros it' Hin Heq. apply Hnotin. rewrite Heq.
      by apply (list_elem_of_fmap_2 (λ it : item, it.1.2)). }
    rewrite Forall_forall in Hoks.
    destruct (Hex it) as [c Hc]; [by left|].
    destruct (move_files_step D split it fs c HD Hsplit Hok Hc)
      as (fs2 & Hrun & Himg & Hlbl & Hnolbl & Hgone & Hframe).
    assert (∀ it' p, it' ∈ items → p ∈ item_paths D split it' → fs2 !! p = fs !! p)
      as Hkeep.
    { intros it' p Hin Hp. apply Hframe.
      apply (item_paths_disjoint D split split it' it); auto. by apply not_eq_sym, Hdiff. }
    destruct (IH fs2 HD Hsplit) as (fs' & Hrun' & Hitems & Hframe').
    { by apply Forall_forall. }
    { done. }
    { intros it' Hin. rewrite (Hkeep it') by (done || apply in_item_paths).
      apply Hex. by right. }
    assert (∀ p, p ∈ item_paths D split it → fs' !! p = fs2 !! p) as Hhead.
    { intros p Hp. apply Hframe'. intros it' Hin.
      apply (item_paths_disjoint D split split it it'); auto. }
    exists fs'. split; [by rewrite fmap_cons, Hrun|]. split.
    + unfold moved in *. intros it0 [-> | Hin]%elem_of_cons.
      * rewrite !Hhead by apply in_item_paths. rewrite Hc. done.
      * destruct (Hitems it0 Hin) as (H1 & H2 & H3 & H4).
        destruct (in_item_paths D split it0) as (P1 & _ & P3 & P4).
        rewrite (Hkeep it0 _ Hin P1) in H1. rewrite (Hkeep it0 _ Hin P3) in H2, H3.
        rewrite (Hkeep it0 _ Hin P4) in H3. done.
    + intros p Hp. rewrite Hframe'.
      * apply Hframe. apply Hp. by left.
      * intros it' Hin. apply Hp. by right.
Qed.

End MoveLemmas.

Module MoveFilesProps.
Import Py PyLemmas Rearrange PathLemmas MoveLemmas.

Ltac in_list := repeat first [apply list_elem_of_here | apply list_elem_of_further].

Ltac item_here := split; [in_list | split; [reflexivity | in_list]].

(** X19. For a dataset folder and an image stem that hold none of the
    texts "images", ".jpg" and ".png", [move_files] computes the paths it is
    meant to: the image [<dataset>/<s>/images/<stem>.<ext>] goes to
    [<dataset>/<split>/images/<stem>.<ext>]; its label is looked for at
    [<dataset>/<s>/labels/<stem>.txt] and goes to
    [<dataset>/<split>/labels/<stem>.txt]. *)
Theorem labels_follow_images (dataset_path s split stem ext : string) :
  folder_ok dataset_path = true → s ∈ splits → split ∈ splits →
  stem_ok stem = true → ext ∈ ["jpg"; "png"] →
  let name := stem +:+ "." +:+ ext in
  let file := image_file dataset_path (s, name) in
  file = dataset_path +:+ "/" +:+ s +:+ "/images/" +:+ name
  ∧ image_dest dataset_path split file
    = dataset_path +:+ "/" +:+ split +:+ "/images/" +:+ name
  ∧ label_source file
    = dataset_path +:+ "/" +:+ s +:+ "/labels/" +:+ stem +:+ ".txt"
  ∧ label_dest dataset_path split file
    = dataset_path +:+ "/" +:+ split +:+ "/labels/" +:+ stem +:+ ".txt".
Proof. exact (move_paths dataset_path s split stem ext). Qed.

Lemma labels_follow_images_witness :
  let file := image_file "/data/set" ("train", "img_001.v2.jpg") in
  file = "/data/set/train/images/img_001.v2.jpg"
  ∧ image_dest "/data/set" "test" file = "/data/set/test/images/img_001.v2.jpg"
  ∧ label_source file = "/data/set/train/labels/img_001.v2.txt"
  ∧ label_dest "/data/set" "test" file = "/data/set/test/labels/img_001.v2.txt".
Proof.
  apply (labels_follow_images "/data/set" "train" "test" "img_001.v2" "jpg").
  - reflexivity.
  - apply list_elem_of_here.
  - apply list_elem_of_further, list_elem_of_further, list_elem_of_here.
  - reflexivity.
  - apply list_elem_of_here.
Defined.

(** X20. [move_files] moves every image of its list, and the label of each
    image that has one.  For images of different stems that all exist, the
    run ends without an error; afterwards each image is in the images folder
    of [split] with its content, its label (if it had one) is in the labels
    folder of [split], neither is left in the split it came from, and every
    file that is not the image or the label of a listed image is as it
    was. *)
Theorem move_files_relocates (dataset_path split : string) (items : list item)
    (fs : gmap string string) :
  folder_ok dataset_path = true → split ∈ splits → Forall item_ok items →
  NoDup ((λ it : item, it.1.2) <$> items) →
  (∀ it, it ∈ items → is_Some (fs !! item_image dataset_path it.1.1 it)) →
  ∃ fs',
    move_files dataset_path split (item_file dataset_path <$> items) fs = Some fs'
    ∧ (∀ it, it ∈ items → moved dataset_path split it fs fs')
    ∧ (∀ p, (∀ it, it ∈ items → p ∉ item_paths dataset_path split it) →
         fs' !! p = fs !! p).
Proof. exact (move_files_spec dataset_path split items fs). Qed.

Lemma move_files_relocates_witness :
  let D := "/data/set" in
  let items : list item := [("train", "a", "jpg"); ("val", "b", "png")] in
  let fs : gmap string string :=
    {[ "/data/set/train/images/a.jpg" := "A"; "/data/set/train/labels/a.txt" := "0 .5 .5 1 1";
       "/data/set/val/images/b.png" := "B"; "/data/set/notes.txt" := "n" ]} in
  ∃ fs',
    move_files D "test" (item_file D <$> items) fs = Some fs'
    ∧ (∀ it, it ∈ items → moved D "test" it fs fs')
    ∧ (∀ p, (∀ it, it ∈ items → p ∉ item_paths D "test" it) → fs' !! p = fs !! p).
Proof.
  intros D items fs. apply (move_files_relocates D "test" items fs).
  - reflexivity.
  - apply list_elem_of_further, list_elem_of_further, list_elem_of_here.
  - constructor; [item_here | constructor; [item_here | constructor]].
  - apply (bool_decide_unpack _). vm_compute. reflexivity.
  - intros it Hit. repeat (apply elem_of_cons in Hit as [-> | Hit]).
    + vm_compute. eauto.
    + vm_compute. eauto.
    + by apply elem_of_nil in Hit.
Defined.

(** X21. Two images of the same name in two splits, both moved to the third
    split: the second replaces the first.  Afterwards the split holds one
    image of that name, with the content of the second, and neither of the
    two splits holds the image any more. *)
Theorem same_name_replaces (dataset_path split s1 s2 stem ext : string)
    (fs : gmap string string) (c1 c2 : string) :
  folder_ok dataset_path = true →
  split ∈ splits → s1 ∈ splits → s2 ∈ splits →
  s1 ≠ s2 → s1 ≠ split → s2 ≠ split →
  stem_ok stem = true → ext ∈ ["jpg"; "png"] →
  fs !! item_image dataset_path s1 (s1, stem, ext) = Some c1 →
  fs !! item_image dataset_path s2 (s2, stem, ext) = Some c2 →
  ∃ fs',
    move_files dataset_path split
      [item_file dataset_path (s1, stem, ext); item_file dataset_path (s2, stem, ext)] fs
    = Some fs'
    ∧ fs' !! item_image dataset_path split (s1, stem, ext) = Some c2
    ∧ fs' !! item_image dataset_path s1 (s1, stem, ext) = None
    ∧ fs' !! item_image dataset_path s2 (s2, stem, ext) = None.
Proof.
  intros HD Hsplit Hs1 Hs2 Hne H1 H2 Hstem Hext Hc1 Hc2.
  set (it1 := (s1, stem, ext) : item). set (it2 := (s2, stem, ext) : item).
  assert (item_ok it1) as Hok1 by done. assert (item_ok it2) as Hok2 by done.
  destruct (move_files_step dataset_path split it1 fs c1 HD Hsplit Hok1 Hc1)
    as (fsa & Hrun1 & _ & _ & _ & Hgone1 & Hframe1).
  assert (fsa !! item_image dataset_path s2 it2 = Some c2) as Hc2'.
  { rewrite Hframe1; [done|]. unfold item_paths. rewrite !not_elem_of_cons.
    cbn [fst snd it1]. repeat split.
    - intros (? & _)%image_image_inj; done.
    - intros (? & _)%image_image_inj; done.
    - by apply image_label_ne.
    - by apply image_label_ne.
    - apply not_elem_of_nil. }
  destruct (move_files_step dataset_path split it2 fsa c2 HD Hsplit Hok2 Hc2')
    as (fsb & Hrun2 & Himg2 & _ & _ & Hgone2 & Hframe2).
  exists fsb. split; [by rewrite Hrun1, Hrun2|]. split; [exact Himg2|]. split.
  - rewrite Hframe2; [by apply Hgone1|]. unfold item_paths. rewrite !not_elem_of_cons.
    cbn [fst snd it2]. repeat split.
    + intros (? & _)%image_image_inj; done.
    + intros (? & _)%image_image_inj; done.
    + by apply image_label_ne.
    + by apply image_label_ne.
    + apply not_elem_of_nil.
  - by apply Hgone2.
Qed.

Lemma same_name_replaces_witness :
  let D := "/data/set" in
  let fs : gmap string string :=
    {[ "/data/set/train/images/a.jpg" := "from train";
       "/data/set/val/images/a.jpg" := "from val" ]} in
  ∃ fs',
    move_files D "test"
      [item_file D ("train", "a", "jpg"); item_file D ("val", "a", "jpg")] fs = Some fs'
    ∧ fs' !! item_image D "test" ("train", "a", "jpg") = Some "from val"
    ∧ fs' !! item_image D "train" ("train", "a", "jpg") = None
    ∧ fs' !! item_image D "val" ("val", "a", "jpg") = None.
Proof.
  intros D fs.
  apply (same_name_replaces D "test" "train" "val" "a" "jpg" fs "from train" "from val").
  - reflexivity.
  - apply list_elem_of_further, list_elem_of_further, list_elem_of_here.
  - apply list_elem_of_here.
  - apply list_elem_of_further, list_elem_of_here.
  - discriminate.
  - discriminate.
  - discriminate.
  - reflexivity.
  - apply list_elem_of_here.
  - vm_compute. reflexivity.
  - vm_compute. reflexivity.
Defined.

(** X22. When the path of the dataset folder holds the text "images",
    [move_files] moves the images and no label: it looks for each label
    outside the dataset folder, where there is no file.  Every listed image
    is afterwards in [split], and every label file, in every split, is where
    it was. *)
Theorem labels_stay_behind (dataset_path split : string) (items : list item)
    (fs : gmap string string) :
  folder_named dataset_path = true → free "images" dataset_path = false →
  split ∈ splits → Forall item_ok items → NoDup items →
  (∀ it, it ∈ items → is_Some (fs !! item_image dataset_path it.1.1 it)) →
  (∀ p, is_Some (fs !! p) → String.prefix dataset_path p = true) →
  ∃ fs',
    move_files dataset_path split (item_file dataset_path <$> items) fs = Some fs'
    ∧ (∀ it, it ∈ items → is_Some (fs' !! item_image dataset_path split it))
    ∧ (∀ sp it, sp ∈ splits →
         fs' !! item_label dataset_path sp it = fs !! item_label dataset_path sp it).
Proof.
  intros HD Himages Hsplit Hoks Hnd Hex Hin.
  cut (∃ fs',
    move_files dataset_path split (item_file dataset_path <$> items) fs = Some fs'
    ∧ (∀ it, it ∈ items → is_Some (fs' !! item_image dataset_path split it))
    ∧ (∀ sp it, sp ∈ splits →
         fs' !! item_label dataset_path sp it = fs !! item_label dataset_path sp it)
    ∧ (∀ p, is_Some (fs !! p) →
         (∀ it, it ∈ items → p = item_image dataset_path it.1.1 it → it.1.1 = split) →
         is_Some (fs' !! p))).
  { intros (fs' & ? & ? & ? & _). by exists fs'. }
  revert fs Hex Hin. induction items as [|it items IH]; intros fs Hex Hin.
  { exists fs. split; [done|]. split; [by intros it ?%elem_of_nil|]. done. }
  apply Forall_cons in Hoks as [Hok Hoks]. apply NoDup_cons in Hnd as [Hnotin Hnd].
  pose proof Hok as (Hs & Hstem & Hext).
  unfold stem_ok in Hstem. apply andb_prop in Hstem as [Hname _].
  destruct (image_paths dataset_path it.1.1 split it.1.2 it.2 HD Hs Hsplit Hname Hext)
    as (Hfile & Hdest & _).
  change (image_file dataset_path (it.1.1, it.1.2 +:+ "." +:+ it.2))
    with (item_file dataset_path it) in Hfile, Hdest.
  change (item_file dataset_path it = item_image dataset_path it.1.1 it) in Hfile.
  change (image_dest dataset_path split (item_file dataset_path it)
          = item_image dataset_path split it) in Hdest.
  destruct (Hex it) as [c Hc]; [by left|].
  set (fs1 := <[item_image dataset_path split it := c]>
                (delete (item_image dataset_path it.1.1 it) fs)).
  assert (∀ p, is_Some (fs1 !! p) → String.prefix dataset_path p = true) as Hin1.
  { intros p. unfold fs1.
    destruct (decide (item_image dataset_path split it = p)) as [<- | Hp1].
    { intros _. apply prefix_append. }
    rewrite lookup_insert_ne by done.
    destruct (decide (item_image dataset_path it.1.1 it = p)) as [<- | Hp2].
    { rewrite lookup_delete_eq. by intros [? ?]. }
    rewrite lookup_delete_ne by done. apply Hin. }
  assert (fs1 !! label_source (item_image dataset_path it.1.1 it) = None) as Hnone.
  { destruct (fs1 !! label_source (item_image dataset_path it.1.1 it)) as [l|] eqn:El;
      [|done].
    assert (is_Some (fs1 !! label_source (item_image dataset_path it.1.1 it))) as Hl
      by (rewrite El; eauto).
    apply Hin1 in Hl. unfold item_image in Hl.
    by rewrite label_source_outside in Hl. }
  assert (∀ it', it' ∈ items → item_ok it') as Hoks' by (by apply Forall_forall).
  destruct (IH Hoks Hnd fs1) as (fs' & Hrun & Himgs & Hlbls & Hstay).
  { intros it' Hit'. unfold fs1.
    destruct (decide (item_image dataset_path split it
                      = item_image dataset_path it'.1.1 it')) as [<- | Hp1].
    { rewrite lookup_insert_eq. eauto. }
    rewrite lookup_insert_ne by done. rewrite lookup_delete_ne; [by apply Hex; right|].
    intros Heq. apply image_image_inj in Heq as (H1 & H2 & H3); auto.
    - apply Hnotin. destruct it as [[a b] e], it' as [[a' b'] e'].
      cbn [fst snd] in *. by subst.
    - destruct (Hoks' it' Hit') as (? & _). done. }
  { exact Hin1. }
  exists fs'. split; [|split; [|split]].
  - rewrite fmap_cons. cbn [move_files]. rewrite Hdest, Hfile.
    rewrite (move_found _ _ fs c Hc). cbn [mbind option_bind]. fold fs1.
    rewrite bool_decide_eq_false_2 by (rewrite Hnone; by intros [? ?]).
    exact Hrun.
  - intros it0 [-> | Hit0]%elem_of_cons; [|by apply Himgs].
    apply Hstay.
    + unfold fs1. rewrite lookup_insert_eq. eauto.
    + intros it' Hit' Heq. apply image_image_inj in Heq as (? & _); auto.
      destruct (Hoks' it' Hit') as (? & _). done.
  - intros sp it0 Hsp. rewrite Hlbls by done. unfold fs1.
    rewrite lookup_insert_ne by (by apply image_label_ne).
    by rewrite lookup_delete_ne by (by apply image_label_ne).
  - intros p Hp Hsrc. apply Hstay.
    + unfold fs1.
      destruct (decide (item_image dataset_path split it = p)) as [<- | Hp1].
      { rewrite lookup_insert_eq. eauto. }
      rewrite lookup_insert_ne by done. rewrite lookup_delete_ne; [done|].
      intros Heq. apply Hp1. rewrite (Hsrc it) in Heq by (by left || done).
      rewrite <- (Hsrc it) by (by left || done). done.
    + intros it' Hit'. apply Hsrc. by right.
Qed.

Lemma labels_stay_behind_witness :
  let D := "/home/u/images/set" in
  let items : list item := [("train", "a", "jpg"); ("val", "b", "png")] in
  let fs : gmap string string :=
    {[ "/home/u/images/set/train/images/a.jpg" := "A";
       "/home/u/images/set/train/labels/a.txt" := "0 .5 .5 1 1";
       "/home/u/images/set/val/images/b.png" := "B" ]} in
  ∃ fs',
    move_files D "test" (item_file D <$> items) fs = Some fs'
    ∧ (∀ it, it ∈ items → is_Some (fs' !! item_image D "test" it))
    ∧ (∀ sp it, sp ∈ splits → fs' !! item_label D sp it = fs !! item_label D sp it).
Proof.
  intros D items fs. apply (labels_stay_behind D "test" items fs).
  - reflexivity.
  - reflexivity.
  - in_list.
  - constructor; [item_here | constructor; [item_here | constructor]].
  - apply (bool_decide_unpack _). vm_compute. reflexivity.
  - intros it Hit. repeat (apply elem_of_cons in Hit as [-> | Hit]).
    + vm_compute. eauto.
    + vm_compute. eauto.
    + by apply elem_of_nil in Hit.
  - intros p [x Hx].
    assert (map_Forall (λ p _, String.prefix D p = true) fs) as Hall
      by (apply (bool_decide_unpack _); vm_compute; reflexivity).
    exact (Hall p x Hx).
Defined.

(** X23. The three calls that end [rearrange_dataset], for lists of images
    of different stems that all exist: no call fails; afterwards every image
    of the test list is in test, every image of the train list in train and
    every image of the validation list in val, each with its label; files
    that belong to none of these images are as they were. *)
Theorem rearranged_on_disk (dataset_path : string)
    (test_items train_items valid_items : list item) (fs : gmap string string) :
  folder_ok dataset_path = true →
  Forall item_ok (test_items ++ train_items ++ valid_items) →
  NoDup ((λ it : item, it.1.2) <$> test_items ++ train_items ++ valid_items) →
  (∀ it, it ∈ test_items ++ train_items ++ valid_items →
     is_Some (fs !! item_image dataset_path it.1.1 it)) →
  ∃ fs',
    move_all dataset_path (item_file dataset_path <$> test_items)
      (item_file dataset_path <$> train_items)
      (item_file dataset_path <$> valid_items) fs = Some fs'
    ∧ (∀ it, it ∈ test_items → moved dataset_path "test" it fs fs')
    ∧ (∀ it, it ∈ train_items → moved dataset_path "train" it fs fs')
    ∧ (∀ it, it ∈ valid_items → moved dataset_path "val" it fs fs')
    ∧ (∀ p, (∀ it sp, it ∈ test_items ++ train_items ++ valid_items → sp ∈ splits →
               p ∉ item_paths dataset_path sp it) →
         fs' !! p = fs !! p).
Proof.
  intros HD Hoks Hnd Hex.
  assert ("test" ∈ splits ∧ "train" ∈ splits ∧ "val" ∈ splits) as (Hte & Htr & Hva)
    by (repeat split; in_list).
  rewrite !fmap_app in Hnd.
  apply NoDup_app in Hnd as (Hnd1 & Hd1 & Hnd).
  apply NoDup_app in Hnd as (Hnd2 & Hd2 & Hnd3).
  apply Forall_app in Hoks as [Hok1 Hoks]. apply Forall_app in Hoks as [Hok2 Hok3].
  pose proof (proj1 (Forall_forall _ _) Hok1) as Hok1'.
  pose proof (proj1 (Forall_forall _ _) Hok2) as Hok2'.
  pose proof (proj1 (Forall_forall _ _) Hok3) as Hok3'.
  assert (∀ it it', it ∈ test_items → it' ∈ train_items ++ valid_items →
            it.1.2 ≠ it'.1.2) as Hne1.
  { intros it it' Hit Hit' Heq. apply (Hd1 it.1.2).
    - by apply (list_elem_of_fmap_2 (λ it : item, it.1.2)).
    - rewrite Heq, <- fmap_app. by apply (list_elem_of_fmap_2 (λ it : item, it.1.2)). }
  assert (∀ it it', it ∈ train_items → it' ∈ valid_items → it.1.2 ≠ it'.1.2) as Hne2.
  { intros it it' Hit Hit' Heq. apply (Hd2 it.1.2).
    - by apply (list_elem_of_fmap_2 (λ it : item, it.1.2)).
    - rewrite Heq. by apply (list_elem_of_fmap_2 (λ it : item, it.1.2)). }
  destruct (move_files_spec dataset_path "test" test_items fs HD Hte Hok1 Hnd1)
    as (fs1 & Hrun1 & Hres1 & Hframe1).
  { intros it Hit. apply Hex. rewrite elem_of_app. by left. }
  assert (∀ it sp p, it ∈ train_items ++ valid_items → sp ∈ splits →
            p ∈ item_paths dataset_path sp it → fs1 !! p = fs !! p) as Hkeep1.
  { intros it sp p Hit Hsp Hp.
    apply (move_files_frame dataset_path "test" sp test_items it fs fs1 p);
      [done | done | done | | | done | done].
    - apply elem_of_app in Hit as [Hit | Hit]; auto.
    - intros it0 Hit0. by apply Hne1. }
  destruct (move_files_spec dataset_path "train" train_items fs1 HD Htr Hok2 Hnd2)
    as (fs2 & Hrun2 & Hres2 & Hframe2).
  { intros it Hit.
    rewrite (Hkeep1 it it.1.1) by (rewrite ?elem_of_app; auto; apply in_item_paths
                                   || (by apply Hok2')).
    apply Hex. rewrite !elem_of_app. auto. }
  assert (∀ it sp p, it ∈ test_items ++ valid_items → sp ∈ splits →
            p ∈ item_paths dataset_path sp it → fs2 !! p = fs1 !! p) as Hkeep2.
  { intros it sp p Hit Hsp Hp.
    apply (move_files_frame dataset_path "train" sp train_items it fs1 fs2 p);
      [done | done | done | | | done | done].
    - apply elem_of_app in Hit as [Hit | Hit]; auto.
    - intros it0 Hit0. apply elem_of_app in Hit as [Hit | Hit].
      + apply not_eq_sym, Hne1; [done|]. rewrite elem_of_app. by left.
      + by apply Hne2. }
  destruct (move_files_spec dataset_path "val" valid_items fs2 HD Hva Hok3 Hnd3)
    as (fs3 & Hrun3 & Hres3 & Hframe3).
  { intros it Hit.
    rewrite (Hkeep2 it it.1.1), (Hkeep1 it it.1.1)
      by (rewrite ?elem_of_app; auto; apply in_item_paths || (by apply Hok3')).
    apply Hex. rewrite !elem_of_app. auto. }
  assert (∀ it sp p, it ∈ test_items ++ train_items → sp ∈ splits →
            p ∈ item_paths dataset_path sp it → fs3 !! p = fs2 !! p) as Hkeep3.
  { intros it sp p Hit Hsp Hp.
    apply (move_files_frame dataset_path "val" sp valid_items it fs2 fs3 p);
      [done | done | done | | | done | done].
    - apply elem_of_app in Hit as [Hit | Hit]; auto.
    - intros it0 Hit0. apply not_eq_sym. apply elem_of_app in Hit as [Hit | Hit].
      + apply Hne1; [done|]. rewrite elem_of_app. by right.
      + by apply Hne2. }
  exists fs3. split; [|split; [|split; [|split]]].
  - unfold move_all. rewrite Hrun1. cbn [mbind option_bind]. rewrite Hrun2. exact Hrun3.
  - intros it Hit. specialize (Hres1 it Hit). unfold moved in *.
    destruct (in_item_paths dataset_path "test" it) as (P1 & P2 & P3 & P4).
    assert (∀ p, p ∈ item_paths dataset_path "test" it → fs3 !! p = fs1 !! p) as E.
    { intros p Hp. rewrite (Hkeep3 it "test"), (Hkeep2 it "test");
        rewrite ?elem_of_app; auto. }
    rewrite !E by done. exact Hres1.
  - intros it Hit. specialize (Hres2 it Hit). unfold moved in *.
    destruct (in_item_paths dataset_path "train" it) as (P1 & P2 & P3 & P4).
    assert (∀ p, p ∈ item_paths dataset_path "train" it → fs3 !! p = fs2 !! p) as E.
    { intros p Hp. rewrite (Hkeep3 it "train"); rewrite ?elem_of_app; auto. }
    assert (∀ p, p ∈ item_paths dataset_path "train" it → fs1 !! p = fs !! p) as E'.
    { intros p Hp. rewrite (Hkeep1 it "train"); rewrite ?elem_of_app; auto. }
    rewrite !E by done. rewrite <- !E' by done. exact Hres2.
  - intros it Hit. specialize (Hres3 it Hit). unfold moved in *.
    destruct (in_item_paths dataset_path "val" it) as (P1 & P2 & P3 & P4).
    assert (∀ p, p ∈ item_paths dataset_path "val" it → fs2 !! p = fs !! p) as E.
    { intros p Hp. rewrite (Hkeep2 it "val"), (Hkeep1 it "val");
        rewrite ?elem_of_app; auto. }
    rewrite <- !E by done. exact Hres3.
  - intros p Hp. rewrite Hframe3, Hframe2, Hframe1; [done|..].
    + intros it Hit. apply Hp; [|done]. rewrite !elem_of_app. auto.
    + intros it Hit. apply Hp; [|done]. rewrite !elem_of_app. auto.
    + intros it Hit. apply Hp; [|done]. rewrite !elem_of_app. auto.
Qed.

Lemma rearranged_on_disk_witness :
  let D := "/data/set" in
  let test_items : list item := [("train", "a", "jpg")] in
  let train_items : list item := [("val", "b", "png"); ("train", "c", "jpg")] in
  let valid_items : list item := [("test", "d", "jpg")] in
  let fs : gmap string string :=
    {[ "/data/set/train/images/a.jpg" := "A"; "/data/set/train/labels/a.txt" := "0 .5 .5 1 1";
       "/data/set/val/images/b.png" := "B"; "/data/set/train/images/c.jpg" := "C";
       "/data/set/test/images/d.jpg" := "D"; "/data/set/test/labels/d.txt" := "" ]} in
  ∃ fs',
    move_all D (item_file D <$> test_items) (item_file D <$> train_items)
      (item_file D <$> valid_items) fs = Some fs'
    ∧ (∀ it, it ∈ test_items → moved D "test" it fs fs')
    ∧ (∀ it, it ∈ train_items → moved D "train" it fs fs')
    ∧ (∀ it, it ∈ valid_items → moved D "val" it fs fs')
    ∧ (∀ p, (∀ it sp, it ∈ test_items ++ train_items ++ valid_items → sp ∈ splits →
               p ∉ item_paths D sp it) →
         fs' !! p = fs !! p).
Proof.
  intros D test_items train_items valid_items fs.
  apply (rearranged_on_disk D test_items train_items valid_items fs).
  - reflexivity.
  - repeat (constructor; [item_here|]). constructor.
  - apply (bool_decide_unpack _). vm_compute. reflexivity.
  - intros it Hit. repeat (apply elem_of_cons in Hit as [-> | Hit]).
    + vm_compute. eauto.
    + vm_compute. eauto.
    + vm_compute. eauto.
    + vm_compute. eauto.
    + by apply elem_of_nil in Hit.
Defined.

End MoveFilesProps.

(** ** AZ_Yolov8ClassificationFolderSpliter.py: further properties *)
Module FolderSplitterProps.
Import Py PyLemmas FolderSplitter FolderSplitterSpec RuntimeFacts.

(** ** What a run leaves in place *)

Lemma make_dirs_mono classes dirs : dirs ⊆ make_dirs classes dirs.
Proof.
  unfold make_dirs.
  assert (∀ (sp : string) (acc : gset (string * string)),
            acc ⊆ foldl (λ acc' c', {[ (sp, c') ]} ∪ acc') acc classes) as Hinner.
  { intros sp. induction classes as [|c0 classes IH] using rev_ind; intros acc; [done|].
    rewrite foldl_snoc. etrans; [apply IH|]. apply union_subseteq_r. }
  unfold all_splits. cbn [foldl].
  etrans; [apply (Hinner "train")|]. etrans; [apply (Hinner "val")|].
  apply (Hinner "test").
Qed.

(** What the loop over the classes adds, and that it removes nothing. *)
Lemma split_classes_adds shuffle train_pct val_pct :
  (∀ k l, shuffle k l ≡ₚ l) →
  ∀ classes k out final e,
    split_classes shuffle k train_pct val_pct classes out = (final, e) →
    (∀ p, is_Some (out !! p) → is_Some (final !! p))
    ∧ ∀ s c f o, final !! (s, c, f) = Some o →
        out !! (s, c, f) = Some o
        ∨ (o = (c, f) ∧ s ∈ all_splits
           ∧ ∃ listing, (c, listing) ∈ classes ∧ f ∈ listing).
Proof.
  intros Hperm. induction classes as [|[cls listing] classes IH];
    intros k out final e Hrun; cbn [split_classes] in Hrun.
  - injection Hrun as <- <-. split; [done | by left].
  - destruct (count_of _ train_pct) as [n_train|]; [|injection Hrun as <- <-; split; [done | by left]].
    destruct (count_of _ val_pct) as [n_val|]; [|injection Hrun as <- <-; split; [done | by left]].
    set (plan := split_files (shuffle k listing) n_train n_val) in *.
    assert (∀ f, f ∈ plan.1.1 ∨ f ∈ plan.1.2 ∨ f ∈ plan.2 → f ∈ listing) as Hplan.
    { intros f Hf. rewrite <- (Hperm k listing). unfold plan, split_files in Hf.
      cbn [fst snd] in Hf.
      destruct Hf as [Hf|[Hf|Hf]]; by apply slice_subseteq in Hf. }
    pose proof (class_copies cls plan out) as Hcopies.
    destruct plan as [[tr va] te]. cbn [fst snd] in *.
    destruct (IH _ _ _ _ Hrun) as [Hmono Hnew]. split.
    + intros [[s c] f] Hp. apply Hmono. rewrite Hcopies.
      by case_bool_decide.
    + intros s c f o Ho. destruct (Hnew s c f o Ho) as [Hold|(-> & Hs & l & Hl & Hf)].
      * rewrite Hcopies in Hold. case_bool_decide as Hin; [|by left].
        right. injection Hold as <-. destruct Hin as (-> & Hin).
        split; [done|]. split.
        -- unfold all_splits. rewrite !elem_of_cons.
           destruct Hin as [[-> _]|[[-> _]|[-> _]]]; auto.
        -- exists listing. split; [by left|]. apply Hplan. tauto.
      * right. split; [done|]. split; [done|]. exists l. split; [by right | done].
Qed.

(** X16. Whatever the entries and however the run ends, [split_dataset]
    removes nothing from the output folder: every directory and every file
    that was there before the run is there after it. *)
Theorem output_only_grows (shuffle : nat → list string → list string)
    (input_dir output_dir : string) (train val test : result float)
    (fs : folders) :
  let r := split_dataset shuffle input_dir output_dir train val test fs in
  out_dirs fs ⊆ out_dirs r.1
  ∧ ∀ p, is_Some (out_files fs !! p) → is_Some (out_files r.1 !! p).
Proof.
  unfold split_dataset. destruct (_ || _); [done|].
  destruct (percentage train) as [t|]; cbn [mbind result_bind]; [|done].
  destruct (percentage val) as [v|]; cbn [mbind result_bind]; [|done].
  destruct (percentage test) as [s|]; cbn [mbind result_bind]; [|done].
  destruct (sum_check_fails t v s); [done|].
  destruct (split_classes shuffle 0 t v (input fs) (out_files fs)) as [final e] eqn:Hrun.
  cbn [fst input out_dirs out_files].
  split; [apply make_dirs_mono|].
  clear -Hrun. revert Hrun. generalize (out_files fs), O.
  induction (input fs) as [|[cls listing] classes IH]; intros out k Hrun p Hp;
    cbn [split_classes] in Hrun.
  - by injection Hrun as <- <-.
  - destruct (count_of _ t) as [n_train|]; [|by injection Hrun as <- <-].
    destruct (count_of _ v) as [n_val|]; [|by injection Hrun as <- <-].
    pose proof (class_copies cls (split_files (shuffle k listing) n_train n_val) out)
      as Hcopies.
    destruct (split_files (shuffle k listing) n_train n_val) as [[tr va] te].
    cbn [fst snd] in *. apply (IH _ _ Hrun). destruct p as [[s0 c0] f0].
    rewrite Hcopies. by case_bool_decide.
Qed.

(** X17. Every file that is in the output folder after a run was there
    before or is the copy of an input file of the same name, placed under
    the name of its class in train, val or test, in a directory the run
    made sure exists. *)
Theorem new_files_are_class_copies (shuffle : nat → list string → list string)
    (input_dir output_dir : string) (train val test : result float)
    (fs : folders) :
  (∀ k l, shuffle k l ≡ₚ l) →
  let r := split_dataset shuffle input_dir output_dir train val test fs in
  ∀ split cls f origin,
    out_files r.1 !! (split, cls, f) = Some origin →
    out_files fs !! (split, cls, f) = Some origin
    ∨ (origin = (cls, f) ∧ split ∈ all_splits
       ∧ (split, cls) ∈ out_dirs r.1
       ∧ ∃ listing, (cls, listing) ∈ input fs ∧ f ∈ listing).
Proof.
  intros Hperm. unfold split_dataset. destruct (_ || _); [by left|].
  destruct (percentage train) as [t|]; cbn [mbind result_bind]; [|by left].
  destruct (percentage val) as [v|]; cbn [mbind result_bind]; [|by left].
  destruct (percentage test) as [s|]; cbn [mbind result_bind]; [|by left].
  destruct (sum_check_fails t v s); [by left|].
  destruct (split_classes shuffle 0 t v (input fs) (out_files fs)) as [final e] eqn:Hrun.
  cbn [fst input out_dirs out_files]. intros split cls f origin Hlook.
  destruct (split_classes_adds shuffle t v Hperm _ _ _ _ _ Hrun) as [_ Hnew].
  destruct (Hnew _ _ _ _ Hlook) as [?|(-> & Hs & listing & Hl & Hf)]; [by left|].
  right. split; [done|]. split; [done|]. split; [|by exists listing].
  apply make_dirs_elem; [done|].
  apply list_elem_of_fmap. by exists (cls, listing).
Qed.

Lemma new_files_are_class_copies_witness :
  let r := split_dataset no_shuffle "in" "out" entry_70 entry_20 entry_10
             sample_input in
  out_files sample_input !! ("val", "cats", "7.jpg") = Some ("cats", "7.jpg")
  ∨ (("cats", "7.jpg") = ("cats", "7.jpg") ∧ "val" ∈ all_splits
     ∧ ("val", "cats") ∈ out_dirs r.1
     ∧ ∃ listing, ("cats", listing) ∈ input sample_input ∧ "7.jpg" ∈ listing).
Proof.
  apply (new_files_are_class_copies no_shuffle "in" "out" entry_70 entry_20 entry_10
           sample_input (λ k l, reflexivity l) "val" "cats" "7.jpg" ("cats", "7.jpg")).
  vm_compute. reflexivity.
Defined.

(** ** Whole-number entries *)

Lemma whole_fractions_fit :
  Forall (λ a, Forall (λ b, fractions_fit a b = true) (seqZ 0 (101 - a)))
    (seqZ 0 101).
Proof. apply (bool_decide_unpack _). vm_compute. reflexivity. Qed.

Lemma whole_entries_passing :
  Forall (λ a, Forall (λ b, whole_entries_pass a b (100 - a - b) = true)
                 (seqZ 0 (101 - a)))
    (seqZ 0 101).
Proof. apply (bool_decide_unpack _). vm_compute. reflexivity. Qed.

(** [int(n * c)] for a fraction [c] in [0, 1] stays below the exact product
    up to the rounding of the product. *)
Lemma count_of_upper (n : Z) (c : float) :
  unit_float c = true → 0 ≤ n ≤ 2 ^ 50 →
  ∃ k, count_of n c = Ok k ∧ 0 ≤ k
       ∧ (inject_Z k * (1 - pow2 (-52)) <= inject_Z n * F2Q c)%Q.
Proof.
  intros Hc Hn. unfold count_of, int_mul_float.
  assert (2 ^ 50 < 2 ^ 53) as Hpow by done.
  destruct (Z.eq_dec n 0) as [->|Hn0].
  { exists 0. split; [by destruct c as [[]|[]| |[] m e]|]. split; [done|].
    change (inject_Z 0) with 0%Q. rewrite !Qmult_0_l. apply Qle_refl. }
  destruct (FloatLemmas.float_of_int_small n) as (fn & -> & Hfn & Hvn); [lia|].
  cbn [mbind result_bind].
  destruct (FloatLemmas.unit_float_spec c Hc) as [->|[Hnorm Hle]].
  { exists 0. split; [by destruct Hfn as (m & e & -> & _)|]. split; [done|].
    change (inject_Z 0) with 0%Q. cbn [F2Q]. rewrite Qmult_0_l, Qmult_0_r.
    apply Qle_refl. }
  destruct (FloatLemmas.SFmul_upper fn c _ _ _ _ Hfn Hnorm) as (m & e & Heq & _ & _ & Hq);
    [lia..|].
  rewrite Heq in *.
  destruct (FloatLemmas.int_of_float_pos m e) as (k & -> & Hk0 & Hk).
  exists k. split; [done|]. split; [done|].
  rewrite Hvn in Hq. rewrite FloatLemmas.u52 in *.
  assert (inject_Z k * (1 - (1 # 4503599627370496))
          <= F2Q (S754_finite false m e) * (1 - (1 # 4503599627370496)))%Q
    by (apply Qmult_le_compat_r; [done | lra]).
  lra.
Qed.

(** X18. Whole-number entries between 0 and 100 that add up to 100 pass
    the validation, and for every class of at most 2^50 files the counts
    [int(n * train_pct)] and [int(n * val_pct)] are not negative and add up
    to at most [n]. *)
Theorem whole_percentages_fit (a b c n : Z) :
  0 ≤ a → 0 ≤ b → 0 ≤ c → a + b + c = 100 → 0 ≤ n ≤ 2 ^ 50 →
  percentages_valid (whole_entry a) (whole_entry b) (whole_entry c)
  ∧ ∃ train_pct val_pct,
      percentage (whole_entry a) = Ok train_pct
      ∧ percentage (whole_entry b) = Ok val_pct
      ∧ counts_fit n train_pct val_pct.
Proof.
  intros Ha Hb Hc Hsum Hn.
  pose proof whole_fractions_fit as Hfit. pose proof whole_entries_passing as Hpass.
  rewrite Forall_forall in Hfit, Hpass.
  specialize (Hfit a ltac:(apply elem_of_seqZ; lia)).
  specialize (Hpass a ltac:(apply elem_of_seqZ; lia)).
  rewrite Forall_forall in Hfit, Hpass.
  specialize (Hfit b ltac:(apply elem_of_seqZ; lia)).
  specialize (Hpass b ltac:(apply elem_of_seqZ; lia)).
  replace (100 - a - b) with c in Hpass by lia.
  unfold fractions_fit in Hfit. unfold whole_entries_pass in Hpass.
  destruct (percentage (whole_entry a)) as [t|] eqn:Et; [|done].
  destruct (percentage (whole_entry b)) as [v|] eqn:Ev; [|done].
  destruct (percentage (whole_entry c)) as [s|] eqn:Es; [|done].
  apply andb_prop in Hfit as [Hunit Hle]. apply andb_prop in Hunit as [Ht Hv].
  apply Qle_bool_iff in Hle. apply negb_true_iff in Hpass.
  split; [exists t, v, s; repeat split; done|]. exists t, v. split; [done|]. split; [done|].
  destruct (count_of_upper n t Ht Hn) as (kt & Hkt & Hkt0 & Hqt).
  destruct (count_of_upper n v Hv Hn) as (kv & Hkv & Hkv0 & Hqv).
  exists kt, kv. do 4 (split; [done|]).
  rewrite FloatLemmas.u52 in *.
  assert (0 <= inject_Z n)%Q as Hn0 by (rewrite <- (Zle_Qle 0); lia).
  assert (inject_Z n <= inject_Z (2 ^ 50))%Q as HnQ by (rewrite <- Zle_Qle; lia).
  change (inject_Z (2 ^ 50)) with (1125899906842624 # 1)%Q in HnQ.
  assert ((F2Q t + F2Q v) * inject_Z n
          <= (1 + (1 # 4503599627370496)) * inject_Z n)%Q
    by (by apply Qmult_le_compat_r).
  assert (inject_Z (kt + kv) < inject_Z (n + 1))%Q as Hlt.
  { rewrite !inject_Z_plus. change (inject_Z 1) with 1%Q. lra. }
  rewrite <- Zlt_Qlt in Hlt. lia.
Qed.

Lemma whole_percentages_fit_witness :
  percentages_valid (whole_entry 70) (whole_entry 20) (whole_entry 10)
  ∧ ∃ train_pct val_pct,
      percentage (whole_entry 70) = Ok train_pct
      ∧ percentage (whole_entry 20) = Ok val_pct
      ∧ counts_fit 10 train_pct val_pct.
Proof. apply (whole_percentages_fit 70 20 10 10); lia. Defined.

(** The entries 80 and 20: the two fractions as floats sum to more than 1,
    and the counts still fit. *)
Example fractions_above_one :
  (pt ← percentage (whole_entry 80); pv ← percentage (whole_entry 20);
   Ok (Qle_bool (F2Q pt + F2Q pv) 1))
  = Ok false.
Proof. vm_compute. reflexivity. Qed.

End FolderSplitterProps.
